(** * openvino_xai: saliency-map scaling, target resolution, target-node
      search, colormap layout transition and RISE mask generation.

    Shallow embedding of the Python sources
      - [openvino_xai/common/utils.py]      ([scaling], [get_min_max]),
      - [openvino_xai/explainer/utils.py]   ([get_target_indices], [explains_all]),
      - [openvino_xai/insertion/parse_model.py] ([IRParser], [IRParserCls]),
      - [openvino_xai/explainer/visualizer.py]  ([Visualizer._apply_colormap]),
      - [openvino_xai/methods/black_box/rise.py] ([RISE]).
*)

From Stdlib Require Import ZArith List Bool Lia String Ascii DecimalString.
From Stdlib Require Import Permutation Sorted.
From Stdlib Require Import Floats.SpecFloat.
Import ListNotations.

Local Open Scope Z_scope.

(** ** Python exceptions and results *)

Inductive exn : Type :=
| ValueError (msg : string)
| RuntimeError (msg : string)
| IndexError (msg : string)
| AttributeError (msg : string)
| TypeError (msg : string).

Inductive result (A : Type) : Type :=
| Ok (a : A)
| Raise (e : exn).
Arguments Ok {A} a.
Arguments Raise {A} e.

Definition bind {A B : Type} (r : result A) (k : A -> result B) : result B :=
  match r with
  | Ok a => k a
  | Raise e => Raise e
  end.

(** The [ValueError] of a tuple assignment [a, b, ... = t] whose right
    side has [got] components where [expected] names stand on the left. *)
Definition unpack_error (expected got : nat) : exn :=
  if (got <? expected)%nat
  then ValueError
         ("not enough values to unpack (expected "
          ++ NilEmpty.string_of_uint (Nat.to_uint expected) ++ ", got "
          ++ NilEmpty.string_of_uint (Nat.to_uint got) ++ ")")%string
  else ValueError
         ("too many values to unpack (expected "
          ++ NilEmpty.string_of_uint (Nat.to_uint expected) ++ ")")%string.

Notation "'let*' x ':=' r 'in' k" := (bind r (fun x => k))
  (at level 10, x pattern, r at level 100, k at level 200).

(** ** IEEE-754 binary32 and binary64, as numpy's [float32] and [float64] *)

Module Float32.

Definition prec : Z := 24.
Definition emax : Z := 128.

Definition add : spec_float -> spec_float -> spec_float := SFadd prec emax.
Definition sub : spec_float -> spec_float -> spec_float := SFsub prec emax.
Definition mul : spec_float -> spec_float -> spec_float := SFmul prec emax.
Definition div : spec_float -> spec_float -> spec_float := SFdiv prec emax.
Definition ltb : spec_float -> spec_float -> bool := SFltb.
Definition valid : spec_float -> bool := valid_binary prec emax.

(** Conversion of an integer (a Python [int], a [uint8] element) to
    [float32], rounding to nearest even. *)
Definition of_Z (z : Z) : spec_float := binary_normalize prec emax z 0 false.

(** [astype(np.float32)] on a [float64] element. *)
Definition of_float64 (x : spec_float) : spec_float :=
  match x with
  | S754_finite s m e => binary_round prec emax s m e
  | _ => x
  end.

(** The Python literal [1e-12] once cast to [float32]:
    9223372 * 2^-63. *)
Definition eps : spec_float := S754_finite false 9223372 (-63).

Definition is_nan (x : spec_float) : bool :=
  match x with S754_nan => true | _ => false end.

Definition is_finite (x : spec_float) : bool :=
  match x with
  | S754_zero _ | S754_finite _ _ _ => true
  | _ => false
  end.

(** Truncation toward zero of a finite value. *)
Definition trunc (x : spec_float) : option Z :=
  match x with
  | S754_zero _ => Some 0
  | S754_finite s m e =>
      let a := match e with
               | Zneg p => Z.shiftr (Zpos m) (Zpos p)
               | _ => Z.shiftl (Zpos m) e
               end in
      Some (if s then - a else a)
  | _ => None
  end.

End Float32.

Module Float64.
Definition prec : Z := 53.
Definition emax : Z := 1024.
Definition valid : spec_float -> bool := valid_binary prec emax.
End Float64.

(** ** numpy arrays: a shape and a flat, row-major buffer *)

Inductive buffer : Type :=
| U8 (d : list Z)
| F32 (d : list spec_float)
| F64 (d : list spec_float).

Record ndarray : Type := mk_ndarray { shape : list nat; data : buffer }.

Definition buffer_length (b : buffer) : nat :=
  match b with
  | U8 d => List.length d
  | F32 d => List.length d
  | F64 d => List.length d
  end.

Definition numel (s : list nat) : nat := fold_right Nat.mul 1%nat s.

Definition is_uint8 (a : ndarray) : bool :=
  match data a with U8 _ => true | _ => false end.

Definition buffer_wf (b : buffer) : Prop :=
  match b with
  | U8 d => Forall (fun v => 0 <= v <= 255) d
  | F32 d => Forall (fun x => Float32.valid x = true) d
  | F64 d => Forall (fun x => Float64.valid x = true) d
  end.

Definition ndarray_wf (a : ndarray) : Prop :=
  buffer_length (data a) = numel (shape a) /\ buffer_wf (data a).

(** [a.astype(np.float32)] on the buffer. *)
Definition astype_float32 (b : buffer) : list spec_float :=
  match b with
  | U8 d => map Float32.of_Z d
  | F32 d => d
  | F64 d => map Float32.of_float64 d
  end.

(** [a.reshape((n, len))] as [n] rows of [len] elements. *)
Fixpoint rows_of {A : Type} (n len : nat) (l : list A) : list (list A) :=
  match n with
  | O => []
  | S n' => firstn len l :: rows_of n' len (skipn len l)
  end.

(** [np.squeeze]: every axis of length one is removed. *)
Definition squeeze (s : list nat) : list nat :=
  filter (fun d => negb (Nat.eqb d 1)) s.

Module Scaling.
Section WithPlatform.

(** Converting a float that is NaN, infinite or outside [0, 255] after
  truncation to [uint8] is undefined behaviour of the C cast numpy
  compiles to; [platform_cast] stands for whatever byte the platform
  produces. *)
Variable platform_cast : spec_float -> Z.

Definition to_uint8 (x : spec_float) : Z :=
match Float32.trunc x with
| Some z => if (0 <=? z) && (z <=? 255) then z else platform_cast x mod 256
| None => platform_cast x mod 256
end.

(** [np.minimum.reduce] / [np.maximum.reduce] over one row: NaN is
  propagated, an empty row has no identity. *)
Definition fmin (acc x : spec_float) : spec_float :=
if Float32.ltb acc x || Float32.is_nan acc then acc else x.

Definition fmax (acc x : spec_float) : spec_float :=
if Float32.ltb x acc || Float32.is_nan acc then acc else x.

Definition row_reduce (f : spec_float -> spec_float -> spec_float)
  (name : string) (row : list spec_float) : result spec_float :=
match row with
| [] => Raise (ValueError
    ("zero-size array to reduction operation " ++ name ++ " which has no identity")%string)
| x :: tl => Ok (fold_left f tl x)
end.

Fixpoint map_result {A B : Type} (f : A -> result B) (l : list A) : result (list B) :=
match l with
| [] => Ok []
| x :: tl =>
    let* y := f x in
    let* ys := map_result f tl in
    Ok (y :: ys)
end.

(** [get_min_max]: min and max of every row of an (N, -1) array. *)
Definition get_min_max (rows : list (list spec_float))
  : result (list spec_float * list spec_float) :=
let* min_values := map_result (row_reduce fmin "minimum") rows in
let* max_values := map_result (row_reduce fmax "maximum") rows in
Ok (min_values, max_values).

(** Next to a [float32] array NumPy keeps the arithmetic in [float32] for
  every Python integer that fits in sixteen bits, signed or unsigned (an
  integer beyond that makes NumPy 1.x compute in [float64]); these are the
  values of [max_value] that [scale_elem] stands for.  The default is
  255. *)
Definition float32_scalar (max_value : Z) : bool :=
(-32768 <=? max_value) && (max_value <? 65536).

(** One element of
  [max_value * (saliency_map - min) / (max - min + 1e-12)]. *)
Definition scale_elem (max_value : Z) (mn mx x : spec_float) : spec_float :=
Float32.div
  (Float32.mul (Float32.of_Z max_value) (Float32.sub x mn))
  (Float32.add (Float32.sub mx mn) Float32.eps).

Fixpoint scale_rows (max_value : Z) (rows : list (list spec_float))
  (mins maxs : list spec_float) : list (list spec_float) :=
match rows, mins, maxs with
| row :: rows', mn :: mins', mx :: maxs' =>
    map (scale_elem max_value mn mx) row :: scale_rows max_value rows' mins' maxs'
| _, _, _ => []
end.

(** [scaling(saliency_map, cast_to_uint8, max_value)]. *)
Definition scaling_with (saliency_map : ndarray) (cast_to_uint8 : bool)
  (max_value : Z) : result ndarray :=
let original_num_dims := List.length (shape saliency_map) in
let shape1 :=
  if Nat.eqb original_num_dims 2 then 1%nat :: shape saliency_map
  else shape saliency_map in
let values := astype_float32 (data saliency_map) in
match shape1 with
| [num_maps; h; w] =>
    let rows := rows_of num_maps (h * w) values in
    let* (min_values, max_values) := get_min_max rows in
    let scaled := List.concat (scale_rows max_value rows min_values max_values) in
    let shape2 :=
      if Nat.eqb original_num_dims 2 then squeeze [num_maps; h; w]
      else [num_maps; h; w] in
    if cast_to_uint8
    then Ok (mk_ndarray shape2 (U8 (map to_uint8 scaled)))
    else Ok (mk_ndarray shape2 (F32 scaled))
| _ => Raise (unpack_error 3 (List.length shape1))
end.

Definition scaling (saliency_map : ndarray) : result ndarray :=
scaling_with saliency_map true 255.

End WithPlatform.
End Scaling.

(** On x86-64 the conversion goes through a 32-bit integer whose low byte
    is kept; an out-of-range or NaN operand gives the "integer indefinite"
    value, whose low byte is zero. *)
Definition x86_cast (x : spec_float) : Z :=
  match Float32.trunc x with
  | Some z => if (- 2 ^ 31 <=? z) && (z <? 2 ^ 31) then z mod 256 else 0
  | None => 0
  end.


(** ** Target resolution ([openvino_xai/explainer/utils.py]) *)

Module Targets.

(** An element of [List[int | str]]. *)
Inductive target : Type :=
| TInt (z : Z)
| TStr (s : string).

(** The [targets] argument: a scalar, a list or one-dimensional array, or
    a nested sequence (an array of two or more dimensions). *)
Inductive targets_arg : Type :=
| Scalar (t : target)
| Seq (l : list target)
| Nested (rows : list (list target)).

(** What [np.asarray] makes of a sequence of [int | str]: an integer array
    when every element is an integer, otherwise an array of strings in
    which the integers are written in decimal; an empty list gives an
    empty array. *)
Inductive np_targets : Type :=
| IntArray (l : list Z)
| StrArray (l : list string).

Definition is_int (t : target) : bool :=
  match t with TInt _ => true | TStr _ => false end.

Definition int_of (t : target) : Z :=
  match t with TInt z => z | TStr _ => 0 end.

Definition str_of (t : target) : string :=
  match t with
  | TInt z => NilZero.string_of_int (Z.to_int z)
  | TStr s => s
  end.

(** The integers [np.asarray] stores in an [int64] array. A Python integer
    outside this range makes the array one of [uint64], [float64] or
    Python objects, which [IntArray] does not stand for. *)
Definition int64 (z : Z) : Prop := - 2 ^ 63 <= z < 2 ^ 63.

Definition asarray (l : list target) : np_targets :=
  if forallb is_int l then IntArray (map int_of l) else StrArray (map str_of l).

Definition convert_targets_to_numpy (targets : targets_arg) : result np_targets :=
  match targets with
  | Scalar t => Ok (asarray [t])
  | Seq l => Ok (asarray l)
  | Nested _ =>
      Raise (ValueError "targets expected to be at most 1-dimentional")
  end.

(** [label in targets] on an array of strings. *)
Definition contains (targets : list string) (label : string) : bool :=
  existsb (String.eqb label) targets.

(** The loop over [enumerate(label_names)], started at [label_index]. *)
Fixpoint collect_indices (label_names targets : list string) (label_index : Z) : list Z :=
  match label_names with
  | [] => []
  | label :: rest =>
      if contains targets label
      then label_index :: collect_indices rest targets (label_index + 1)
      else collect_indices rest targets (label_index + 1)
  end.

Definition get_target_indices (targets : targets_arg) (label_names : option (list string))
    : result (list Z) :=
  let* targets := convert_targets_to_numpy targets in
  match targets with
  | IntArray [] | StrArray [] =>
      Raise (IndexError "index 0 is out of bounds for axis 0 with size 0")
  | IntArray l => Ok l
  | StrArray l =>
      match label_names with
      | None | Some [] =>
          Raise (ValueError "Label names should be provided when targets contain string names.")
      | Some names =>
          let target_indices := collect_indices names l 0 in
          if Nat.eqb (List.length l) (List.length target_indices)
          then Ok target_indices
          else Raise (ValueError "No all label names found in label_names. Check spelling.")
      end
  end.

(** The values [explains_all] tells apart with [isinstance]: a Python
    [int] or [str], a NumPy integer scalar (which is no [int]), a list of
    [int | str] or of such lists, an array of one dimension, and an
    integer array of two dimensions with at least one column, given by its
    rows, each a first entry and the entries after it. *)
Inductive py_targets : Type :=
| PyInt (z : Z)
| PyStr (s : string)
| NpInt (z : Z)
| PyList (l : list target)
| PyNestedList (rows : list (list target))
| NdArray (a : np_targets)
| NdArray2 (rows : list (Z * list Z)).

Definition isinstance_int (targets : py_targets) : bool :=
  match targets with PyInt _ => true | _ => false end.

Definition isinstance_str (targets : py_targets) : bool :=
  match targets with PyStr _ => true | _ => false end.

Definition isinstance_ndarray_or_list (targets : py_targets) : bool :=
  match targets with
  | PyList _ | PyNestedList _ | NdArray _ | NdArray2 _ => true
  | _ => false
  end.

(** [len(targets)] of a list or an array. *)
Definition len (targets : py_targets) : nat :=
  match targets with
  | PyList l => List.length l
  | PyNestedList rows => List.length rows
  | NdArray (IntArray l) => List.length l
  | NdArray (StrArray l) => List.length l
  | NdArray2 rows => List.length rows
  | _ => 0%nat
  end.

(** The truth value of [targets[0] == -1] where [targets] has one element.
    An integer is compared by value; a string and a list are never equal
    to -1; a row of a two-dimensional array is compared element by
    element, and the truth value of the array this gives is that of its
    only element, and an error when it has two elements or more. *)
Definition first_is_minus_one (targets : py_targets) : result bool :=
  match targets with
  | PyList (TInt z :: _) => Ok (z =? -1)
  | NdArray (IntArray (z :: _)) => Ok (z =? -1)
  | NdArray2 ((z, []) :: _) => Ok (z =? -1)
  | NdArray2 ((_, _ :: _) :: _) =>
      Raise (ValueError
        "The truth value of an array with more than one element is ambiguous. Use a.any() or a.all()")
  | _ => Ok false
  end.

Definition explains_all (targets : py_targets) : result bool :=
  if isinstance_int targets
     && match targets with PyInt z => z =? -1 | _ => false end
  then Ok true
  else
    let* second :=
      if isinstance_ndarray_or_list targets && Nat.eqb (len targets) 1
      then first_is_minus_one targets
      else Ok false in
    if second then Ok true
    else if isinstance_str targets
            && match targets with PyStr s => String.eqb s "-1" | _ => false end
    then Ok true
    else Ok false.

End Targets.



(** ** Target-node search ([openvino_xai/insertion/parse_model.py]) *)

Module ParseModel.

(** Modelled from the spec: [insertion_parameters.ModelType], whose
    declaration is not among the sources; the spec names a convolutional
    and a transformer family. *)
Inductive ModelType : Type := CNN | TRANSFORMER.

Definition ModelType_eqb (a b : ModelType) : bool :=
  match a, b with
  | CNN, CNN | TRANSFORMER, TRANSFORMER => true
  | _, _ => false
  end.

(** An OpenVINO [Dimension] is static ([Some n]) or dynamic ([None]);
    [get_length] fails on a dynamic one.  A [PartialShape] is modelled
    with a static rank. *)
Definition Dimension : Type := option Z.
Definition PartialShape : Type := list Dimension.

(** An input port: its shape and the output (node id, output index) that
    feeds it. *)
Record InputPort : Type := mk_input {
  port_shape : PartialShape;
  source_node : nat;
  source_index : nat
}.

Record Node : Type := mk_node {
  node_id : nat;
  friendly_name : string;
  type_name : string;
  outputs : list PartialShape;
  inputs : list InputPort
}.

(** [model.get_ordered_ops()]: the nodes in topological order. *)
Definition Model : Type := list Node.

Definition get_length (d : Dimension) : result Z :=
  match d with
  | Some n => Ok n
  | None => Raise (RuntimeError "Cannot get length of dynamic dimension")
  end.

(** [node.output(i).partial_shape] *)
Definition output_shape (op : Node) (i : nat) : result PartialShape :=
  match nth_error (outputs op) i with
  | Some s => Ok s
  | None => Raise (RuntimeError "output index is out of range")
  end.

(** [shape[i]] *)
Definition dim (s : PartialShape) (i : nat) : result Dimension :=
  match nth_error s i with
  | Some d => Ok d
  | None => Raise (IndexError "Index is out of range")
  end.

(** [port.get_source_output().get_node()] *)
Definition get_source_node (model : Model) (p : InputPort) : result Node :=
  match find (fun n => Nat.eqb (node_id n) (source_node p)) model with
  | Some n => Ok n
  | None => Raise (RuntimeError "source node is not in the model")
  end.

(** [node.input(i)] *)
Definition input (op : Node) (i : nat) : result InputPort :=
  match nth_error (inputs op) i with
  | Some p => Ok p
  | None => Raise (RuntimeError "input index is out of range")
  end.

(** [sub in s] on strings. *)
Fixpoint contains_substring (sub s : string) : bool :=
  prefix sub s ||
  match s with
  | EmptyString => false
  | String _ rest => contains_substring sub rest
  end.

(** [IRParser.get_node_by_condition]: the k-th node satisfying the
    condition, [None] when the loop ends. *)
Fixpoint get_node_by_condition (ops : list Node) (condition : Node -> result bool)
    (k : Z) : result (option Node) :=
  match ops with
  | [] => Ok None
  | op :: rest =>
      let* c := condition op in
      if c then
        let k := k - 1 in
        if k =? 0 then Ok (Some op) else get_node_by_condition rest condition k
      else get_node_by_condition rest condition k
  end.

Definition _has_spacial_size (node : Node) : result bool :=
  let* node_output_shape := output_shape node 0 in
  let* d2 := dim node_output_shape 2 in
  let* h := get_length d2 in
  let* d3 := dim node_output_shape 3 in
  let* w := get_length d3 in
  let* d1 := dim node_output_shape 1 in
  let* h_ := get_length d1 in
  let* d2' := dim node_output_shape 2 in
  let* w_ := get_length d2' in
  Ok ((negb (h =? 1) && negb (w =? 1)) || (negb (h_ =? 1) && negb (w_ =? 1))).

Definition _is_conv_node_w_spacial_size (op : Node) : result bool :=
  if negb (String.eqb (type_name op) "Convolution") then Ok false
  else
    let* spacial := _has_spacial_size op in
    if negb spacial then Ok false else Ok true.

Definition _is_pooling_node_wo_spacial_size (op : Node) : result bool :=
  if negb (contains_substring "Pool" (friendly_name op)) then Ok false
  else
    let* spacial := _has_spacial_size op in
    if spacial then Ok false else Ok true.

Definition _is_op_w_single_spacial_output (op : Node) : result bool :=
  if String.eqb (type_name op) "Constant" then Ok false
  else if (1 <? List.length (outputs op))%nat then Ok false
  else
    let* node_output_shape := output_shape op 0 in
    if negb (Nat.eqb (List.length node_output_shape) 4) then Ok false
    else
      let* d1 := dim node_output_shape 1 in
      let* c := get_length d1 in
      let* d2 := dim node_output_shape 2 in
      let* h := get_length d2 in
      let* d3 := dim node_output_shape 3 in
      let* w := get_length d3 in
      Ok ((1 <? h) && (h <? c) && ((1 <? w) && (w <? c))).

(** The loop over [op.inputs()] of
    [_is_add_node_w_two_non_constant_inputs]. *)
Fixpoint all_inputs_non_constant (model : Model) (input_nodes : list InputPort)
    : result bool :=
  match input_nodes with
  | [] => Ok true
  | input_node :: rest =>
      if negb (Nat.eqb (List.length (port_shape input_node)) 3) then Ok false
      else
        let* src := get_source_node model input_node in
        if String.eqb (type_name src) "Constant" then Ok false
        else if String.eqb (type_name src) "Convert" then Ok false
        else all_inputs_non_constant model rest
  end.

Definition _is_add_node_w_two_non_constant_inputs (model : Model) (op : Node)
    : result bool :=
  if negb (String.eqb (type_name op) "Add") then Ok false
  else all_inputs_non_constant model (inputs op).

(** The branch of [IRParserCls.get_target_node] taken when a target node
    name is given; [get_post_target_node] calls it too. *)
Definition get_target_node_named (model : Model) (target_node_name : string)
    : result Node :=
  let reversed_ops := rev model in
  let* target_node :=
    get_node_by_condition reversed_ops
      (fun x => Ok (String.eqb (friendly_name x) target_node_name)) 1 in
  match target_node with
  | Some n => Ok n
  | None => Raise (ValueError ("Cannot find " ++ target_node_name ++ " node.")%string)
  end.

(** A Python string used as a condition. *)
Definition truthy (name : option string) : option string :=
  match name with
  | Some EmptyString | None => None
  | Some s => Some s
  end.

(** The nodes that read output [output_id] of [target_node], one entry for
    every reading input, in the order of the model. *)
Definition consumers (model : Model) (target_node : Node) (output_id : nat)
    : list Node :=
  flat_map (fun n =>
    map (fun _ => n)
      (filter (fun p => Nat.eqb (source_node p) (node_id target_node)
                        && Nat.eqb (source_index p) output_id) (inputs n)))
    model.

Definition get_post_target_node (model : Model) (model_type : option ModelType)
    (target_node_name : option string) (target_node_output_id : nat)
    : result (list Node) :=
  match truthy target_node_name with
  | Some name =>
      let* target_node := get_target_node_named model name in
      let* _ := output_shape target_node target_node_output_id in
      Ok (consumers model target_node target_node_output_id)
  | None =>
      let not_found :=
        Raise (RuntimeError
          "Cannot find first head node in auto mode, please explicitly provide input parameters.") in
      match model_type with
      | Some CNN =>
          let reversed_ops := rev model in
          let* last_pooling_node :=
            get_node_by_condition reversed_ops _is_pooling_node_wo_spacial_size 1 in
          match last_pooling_node with
          | Some n => Ok [n]
          | None => not_found
          end
      | _ => not_found
      end
  end.

(** [IRParserCls.get_target_node].  The call
    [cls.get_post_target_node(model)] passes the model alone, and what it
    returns is a list, on which [.input(0)] is an [AttributeError]. *)
Definition get_target_node (model : Model) (model_type : option ModelType)
    (target_node_name : option string) (k : Z) : result Node :=
  match truthy target_node_name with
  | Some name => get_target_node_named model name
  | None =>
      let not_found :=
        Raise (RuntimeError
          "Cannot find output backbone_node in auto mode, please provide target_layer.") in
      match model_type with
      | Some CNN =>
          let reversed_ops := rev model in
          let* last_op_w_spacial_output :=
            get_node_by_condition reversed_ops _is_op_w_single_spacial_output k in
          match last_op_w_spacial_output with
          | Some n => Ok n
          | None =>
              let* post_target_node := get_post_target_node model None None 0 in
              let* _ := @Raise unit
                (AttributeError "'list' object has no attribute 'input'") in
              not_found
          end
      | Some TRANSFORMER =>
          let reversed_ops := rev model in
          let* target_node :=
            get_node_by_condition reversed_ops
              (_is_add_node_w_two_non_constant_inputs model) k in
          match target_node with
          | Some n => Ok n
          | None => not_found
          end
      | None => not_found
      end
  end.

Definition get_first_conv_node (model : Model) : result Node :=
  let* first_conv_node := get_node_by_condition model _is_conv_node_w_spacial_size 1 in
  match first_conv_node with
  | Some n => Ok n
  | None => Raise (RuntimeError "Cannot find first convolution node in auto mode.")
  end.

End ParseModel.



(** ** Checking a property on every byte by evaluation *)

Definition bytes : list Z := map Z.of_nat (seq 0 256).

Lemma bytes_spec (z : Z) : 0 <= z <= 255 -> In z bytes.
Proof.
  intros Hz. unfold bytes.
  apply in_map_iff. exists (Z.to_nat z). split; [lia|].
  apply in_seq. lia.
Qed.

Lemma forall_bytes (P : Z -> bool) :
  forallb P bytes = true -> forall z, 0 <= z <= 255 -> P z = true.
Proof.
  intros H z Hz. rewrite forallb_forall in H. apply H, bytes_spec, Hz.
Qed.

Lemma forall_bytes2 (P : Z -> Z -> bool) :
  forallb (fun a => forallb (P a) bytes) bytes = true ->
  forall a b, 0 <= a <= 255 -> 0 <= b <= 255 -> P a b = true.
Proof.
  intros H a b Ha Hb.
  apply (forall_bytes (P a)); [|exact Hb].
  apply (forall_bytes (fun a => forallb (P a) bytes)); assumption.
Qed.

Definition spec_float_eqb (x y : spec_float) : bool :=
  match x, y with
  | S754_zero s, S754_zero s' => Bool.eqb s s'
  | S754_infinity s, S754_infinity s' => Bool.eqb s s'
  | S754_nan, S754_nan => true
  | S754_finite s m e, S754_finite s' m' e' =>
      Bool.eqb s s' && Pos.eqb m m' && Z.eqb e e'
  | _, _ => false
  end.

Lemma spec_float_eqb_eq (x y : spec_float) : spec_float_eqb x y = true -> x = y.
Proof.
  destruct x, y; simpl; try discriminate; try reflexivity.
  - intros H. apply Bool.eqb_prop in H. now subst.
  - intros H. apply Bool.eqb_prop in H. now subst.
  - intros H. apply andb_prop in H as [H He]. apply andb_prop in H as [Hs Hm].
    apply Bool.eqb_prop in Hs. apply Pos.eqb_eq in Hm. apply Z.eqb_eq in He.
    now subst.
Qed.

(** ** Rows of a flat buffer *)

Section Rows.
Context {A : Type}.

Lemma rows_of_length (n len : nat) (l : list A) :
  List.length (rows_of n len l) = n.
Proof.
  revert l. induction n as [|n IH]; intros l; simpl; [reflexivity|].
  now rewrite IH.
Qed.

Lemma rows_of_row_length (n len : nat) (l : list A) :
  List.length l = (n * len)%nat ->
  Forall (fun r => List.length r = len) (rows_of n len l).
Proof.
  revert l. induction n as [|n IH]; intros l Hl; simpl; constructor.
  - rewrite length_firstn. simpl in Hl. lia.
  - apply IH. rewrite length_skipn. simpl in Hl. lia.
Qed.

Lemma concat_rows_of (n len : nat) (l : list A) :
  List.length l = (n * len)%nat -> List.concat (rows_of n len l) = l.
Proof.
  revert l. induction n as [|n IH]; intros l Hl; simpl.
  - simpl in Hl. destruct l; [reflexivity | discriminate].
  - rewrite IH; [apply firstn_skipn|].
    rewrite length_skipn. simpl in Hl. lia.
Qed.

Lemma rows_of_concat (n len : nat) (rs : list (list A)) :
  List.length rs = n -> Forall (fun r => List.length r = len) rs ->
  rows_of n len (List.concat rs) = rs.
Proof.
  revert n. induction rs as [|r rs IH]; intros n Hn Hall; subst n; simpl.
  - reflexivity.
  - inversion Hall as [|? ? Hr Hrs]; subst.
    rewrite firstn_app, Nat.sub_diag, firstn_all. simpl. rewrite app_nil_r.
    rewrite skipn_app, Nat.sub_diag, skipn_all. simpl.
    now rewrite IH.
Qed.

Lemma length_concat_rows (len : nat) (rs : list (list A)) :
  Forall (fun r => List.length r = len) rs ->
  List.length (List.concat rs) = (List.length rs * len)%nat.
Proof.
  induction 1 as [|r rs Hr _ IH]; simpl; [reflexivity|].
  rewrite length_app, IH, Hr. reflexivity.
Qed.

End Rows.

Lemma rows_of_map {A B : Type} (f : A -> B) (n len : nat) (l : list A) :
  rows_of n len (map f l) = map (map f) (rows_of n len l).
Proof.
  revert l. induction n as [|n IH]; intros l; simpl; [reflexivity|].
  now rewrite firstn_map, skipn_map, IH.
Qed.

(** ** Minimum and maximum of a row of integers *)

Definition zmin (l : list Z) : Z :=
  match l with [] => 0 | x :: tl => fold_left Z.min tl x end.

Definition zmax (l : list Z) : Z :=
  match l with [] => 0 | x :: tl => fold_left Z.max tl x end.

Lemma fold_min_spec (tl : list Z) (x : Z) :
  In (fold_left Z.min tl x) (x :: tl) /\
  Forall (fun v => fold_left Z.min tl x <= v) (x :: tl).
Proof.
  revert x. induction tl as [|y tl IH]; intros x; simpl.
  - split; [now left | constructor; [lia | constructor]].
  - destruct (IH (Z.min x y)) as [Hin Hle]. split.
    + simpl in Hin. destruct Hin as [Hin | Hin]; [|now right; right].
      rewrite <- Hin. destruct (Z.min_spec x y) as [[_ ->] | [_ ->]]; auto.
    + inversion Hle as [|? ? H1 H2]; subst.
      constructor; [lia | constructor; [lia | exact H2]].
Qed.

Lemma fold_max_spec (tl : list Z) (x : Z) :
  In (fold_left Z.max tl x) (x :: tl) /\
  Forall (fun v => v <= fold_left Z.max tl x) (x :: tl).
Proof.
  revert x. induction tl as [|y tl IH]; intros x; simpl.
  - split; [now left | constructor; [lia | constructor]].
  - destruct (IH (Z.max x y)) as [Hin Hle]. split.
    + simpl in Hin. destruct Hin as [Hin | Hin]; [|now right; right].
      rewrite <- Hin. destruct (Z.max_spec x y) as [[_ ->] | [_ ->]]; auto.
    + inversion Hle as [|? ? H1 H2]; subst.
      constructor; [lia | constructor; [lia | exact H2]].
Qed.

Lemma zmin_spec (l : list Z) :
  l <> [] -> In (zmin l) l /\ Forall (fun v => zmin l <= v) l.
Proof. destruct l as [|x tl]; [congruence | intros _; apply fold_min_spec]. Qed.

Lemma zmax_spec (l : list Z) :
  l <> [] -> In (zmax l) l /\ Forall (fun v => v <= zmax l) l.
Proof. destruct l as [|x tl]; [congruence | intros _; apply fold_max_spec]. Qed.

Lemma zmin_unique (l : list Z) (m : Z) :
  In m l -> Forall (fun v => m <= v) l -> zmin l = m.
Proof.
  intros Hin Hle.
  assert (Hne : l <> []) by (destruct l; [contradiction | discriminate]).
  destruct (zmin_spec l Hne) as [Hin' Hle'].
  rewrite Forall_forall in Hle, Hle'.
  pose proof (Hle _ Hin'). pose proof (Hle' _ Hin). lia.
Qed.

Lemma zmax_unique (l : list Z) (m : Z) :
  In m l -> Forall (fun v => v <= m) l -> zmax l = m.
Proof.
  intros Hin Hle.
  assert (Hne : l <> []) by (destruct l; [contradiction | discriminate]).
  destruct (zmax_spec l Hne) as [Hin' Hle'].
  rewrite Forall_forall in Hle, Hle'.
  pose proof (Hle _ Hin'). pose proof (Hle' _ Hin). lia.
Qed.

Module Float32Facts.

Lemma ltb_of_Z (a b : Z) :
  0 <= a <= 255 -> 0 <= b <= 255 ->
  Float32.ltb (Float32.of_Z a) (Float32.of_Z b) = (a <? b).
Proof.
  intros Ha Hb.
  apply (fun H => proj1 (Bool.eqb_true_iff _ _)
    (forall_bytes2 (fun a b => Bool.eqb (Float32.ltb (Float32.of_Z a) (Float32.of_Z b)) (a <? b)) H a b Ha Hb)).
  vm_compute. reflexivity.
Qed.

Lemma of_Z_not_nan (a : Z) :
  0 <= a <= 255 -> Float32.is_nan (Float32.of_Z a) = false.
Proof.
  intros Ha.
  apply (fun H => proj1 (negb_true_iff _)
    (forall_bytes (fun a => negb (Float32.is_nan (Float32.of_Z a))) H a Ha)).
  vm_compute. reflexivity.
Qed.

Lemma of_Z_valid (a : Z) :
  0 <= a <= 255 -> Float32.valid (Float32.of_Z a) = true.
Proof.
  intros Ha.
  apply (forall_bytes (fun a => Float32.valid (Float32.of_Z a))); [|exact Ha].
  vm_compute. reflexivity.
Qed.

(** [1e-12] lies within half a unit in the last place of [eps]:
    |9223372 * 2^-63 - 10^-12| <= 2^-64. *)
Lemma eps_is_nearest :
  Float32.valid Float32.eps = true /\
  Z.abs (2 * 9223372 * 10 ^ 12 - 2 * 2 ^ 63) <= 10 ^ 12.
Proof. split; [reflexivity | vm_compute; discriminate]. Qed.

End Float32Facts.

(** ** Rounding to nearest even, as [SpecFloat] computes it *)

Module Rounding.

Lemma iter_pos_iter {A : Type} (f : A -> A) (p : positive) (x : A) :
  iter_pos f p x = Pos.iter f x p.
Proof.
  revert x. induction p as [p IH | p IH |]; intros x; simpl.
  - now rewrite !IH, !Pos.iter_swap.
  - now rewrite !IH.
  - reflexivity.
Qed.

Lemma digits2_pos_bounds (p : positive) :
  2 ^ (Zpos (digits2_pos p) - 1) <= Zpos p < 2 ^ Zpos (digits2_pos p).
Proof.
  induction p as [p IH | p IH |]; cbn [digits2_pos].
  - rewrite Pos2Z.inj_succ. replace (Z.succ (Zpos (digits2_pos p)) - 1)
      with (Z.succ (Zpos (digits2_pos p) - 1)) by lia.
    rewrite !Z.pow_succ_r by lia. lia.
  - rewrite Pos2Z.inj_succ. replace (Z.succ (Zpos (digits2_pos p)) - 1)
      with (Z.succ (Zpos (digits2_pos p) - 1)) by lia.
    rewrite !Z.pow_succ_r by lia. lia.
  - simpl. lia.
Qed.

Lemma digits2_pos_unique (p : positive) (k : Z) :
  2 ^ (k - 1) <= Zpos p < 2 ^ k -> Zpos (digits2_pos p) = k.
Proof.
  intros [Hlo Hhi]. pose proof (digits2_pos_bounds p) as [Blo Bhi].
  assert (0 < k).
  { destruct (Z.ltb_spec 0 k); [assumption|].
    assert (2 ^ k <= 2 ^ 0) by (apply Z.pow_le_mono_r; lia). simpl in *. lia. }
  destruct (Z.lt_trichotomy (Zpos (digits2_pos p)) k) as [Hlt | [Heq | Hgt]]; trivial.
  - assert (2 ^ Zpos (digits2_pos p) <= 2 ^ (k - 1)) by (apply Z.pow_le_mono_r; lia). lia.
  - assert (2 ^ k <= 2 ^ (Zpos (digits2_pos p) - 1)) by (apply Z.pow_le_mono_r; lia). lia.
Qed.

(** Where a non-negative remainder [lo] below the weight [w] lies with
    respect to the half of [w]. *)
Definition loc_of (lo w : Z) : location :=
  if lo =? 0 then loc_Exact else loc_Inexact (2 * lo ?= w).

(** [x] is [shr_m mrs] units of weight [w] and a remainder whose position
    the two bits of [mrs] record. *)
Definition shr_inv (x w : Z) (mrs : shr_record) : Prop :=
  exists lo,
    0 <= lo < w /\ x = shr_m mrs * w + lo /\ 0 <= shr_m mrs /\
    loc_of_shr_record mrs = loc_of lo w.

Lemma shr_inv_of_loc (m lo w : Z) :
  0 <= m -> 0 <= lo < w ->
  shr_inv (m * w + lo) w (shr_record_of_loc m (loc_of lo w)).
Proof.
  intros Hm Hlo. exists lo. repeat split; try lia.
  - destruct (loc_of lo w) as [|[]]; reflexivity.
  - destruct (loc_of lo w) as [|[]]; simpl; lia.
  - destruct (loc_of lo w) as [|[]]; reflexivity.
Qed.

Lemma shr_1_inv (x w : Z) (mrs : shr_record) :
  0 < w -> shr_inv x w mrs -> shr_inv x (2 * w) (shr_1 mrs).
Proof.
  intros Hw [lo [Hlo [Hx [Hm Hloc]]]].
  destruct mrs as [m r s]. cbn [shr_m] in *.
  assert (Hs : (r || s) = negb (lo =? 0)).
  { unfold loc_of in Hloc. destruct (Z.eqb_spec lo 0);
      destruct r, s; simpl in *; try reflexivity; try discriminate;
      destruct (2 * lo ?= w); discriminate. }
  assert (Hcase : forall (q : Z) (b : bool),
            0 <= q -> m = 2 * q + Z.b2z b ->
            shr_inv x (2 * w) (Build_shr_record q b (r || s))).
  { intros q b Hq Hmq. exists (Z.b2z b * w + lo). cbn [shr_m].
    destruct b; cbn [Z.b2z] in *.
    - repeat split; try nia. rewrite Hs. unfold loc_of.
      destruct (Z.eqb_spec (1 * w + lo) 0); [lia|].
      destruct (Z.eqb_spec lo 0); cbn [negb loc_of_shr_record].
      + replace (2 * (1 * w + lo) ?= 2 * w) with Eq; [reflexivity|].
        symmetry. apply Z.compare_eq_iff. lia.
      + replace (2 * (1 * w + lo) ?= 2 * w) with Gt; [reflexivity|].
        symmetry. apply Z.compare_gt_iff. lia.
    - repeat split; try nia. rewrite Hs. unfold loc_of.
      replace (0 * w + lo) with lo by lia.
      destruct (Z.eqb_spec lo 0); cbn [negb loc_of_shr_record]; [reflexivity|].
      replace (2 * lo ?= 2 * w) with Lt; [reflexivity|].
      symmetry. apply Z.compare_lt_iff. lia. }
  unfold shr_1.
  destruct m as [|[p | p |]|p]; try lia.
  - apply (Hcase 0 false); simpl; lia.
  - apply (Hcase (Zpos p) true); simpl; lia.
  - apply (Hcase (Zpos p) false); simpl; lia.
  - apply (Hcase 0 true); simpl; lia.
Qed.

Lemma shr_iter_inv (x w : Z) (mrs : shr_record) (p : positive) :
  0 < w -> shr_inv x w mrs -> shr_inv x (w * 2 ^ Zpos p) (iter_pos shr_1 p mrs).
Proof.
  intros Hw H. rewrite iter_pos_iter.
  apply (Pos.iter_ind _ shr_1 mrs (fun p a => shr_inv x (w * 2 ^ Zpos p) a)).
  - replace (w * 2 ^ 1) with (2 * w) by lia. now apply shr_1_inv.
  - intros q a Ha. rewrite Pos2Z.inj_succ, Z.pow_succ_r by lia.
    replace (w * (2 * 2 ^ Zpos q)) with (2 * (w * 2 ^ Zpos q)) by lia.
    apply shr_1_inv; [|exact Ha]. pose proof (Z.pow_pos_nonneg 2 (Zpos q)). lia.
Qed.

(** Shifting right by [n] places. *)
Lemma shr_inv_shift (x w : Z) (mrs : shr_record) (e n : Z) :
  0 < w -> 0 <= n -> shr_inv x w mrs ->
  shr_inv x (w * 2 ^ n) (fst (shr mrs e n)) /\ snd (shr mrs e n) = e + n.
Proof.
  intros Hw Hn H. destruct n as [|p|p]; try lia.
  - simpl. rewrite Z.mul_1_r. split; [exact H | lia].
  - simpl. split; [now apply shr_iter_inv | reflexivity].
Qed.

(** The integer nearest to [x / w], the even one at a tie. *)
Definition nearest_even (x w m : Z) : Prop :=
  exists q lo,
    x = q * w + lo /\ 0 <= lo < w /\
    m = if 2 * lo <? w then q
        else if w <? 2 * lo then q + 1
        else if Z.even q then q else q + 1.

Lemma round_nearest_even_inv (x w : Z) (mrs : shr_record) :
  shr_inv x w mrs ->
  nearest_even x w (round_nearest_even (shr_m mrs) (loc_of_shr_record mrs)).
Proof.
  intros [lo [Hlo [Hx [Hm Hloc]]]]. exists (shr_m mrs), lo.
  split; [exact Hx|]. split; [exact Hlo|].
  rewrite Hloc. unfold loc_of, round_nearest_even.
  destruct (Z.eqb_spec lo 0).
  - subst lo. replace (2 * 0 <? w) with true by (symmetry; apply Z.ltb_lt; lia).
    reflexivity.
  - destruct (Z.compare_spec (2 * lo) w).
    + replace (2 * lo <? w) with false by (symmetry; apply Z.ltb_ge; lia).
      replace (w <? 2 * lo) with false by (symmetry; apply Z.ltb_ge; lia).
      reflexivity.
    + replace (2 * lo <? w) with true by (symmetry; apply Z.ltb_lt; lia).
      reflexivity.
    + replace (2 * lo <? w) with false by (symmetry; apply Z.ltb_ge; lia).
      replace (w <? 2 * lo) with true by (symmetry; apply Z.ltb_lt; lia).
      reflexivity.
Qed.

Lemma nearest_even_bounds (x w m : Z) :
  0 < w -> nearest_even x w m -> 2 * Z.abs (m * w - x) <= w.
Proof.
  intros Hw [q [lo [Hx [Hlo Hm]]]]. subst x.
  destruct (Z.ltb_spec (2 * lo) w); [subst m; lia|].
  destruct (Z.ltb_spec w (2 * lo)); [subst m; lia|].
  destruct (Z.even q); subst m; lia.
Qed.


Lemma nearest_even_range (x w m lo hi : Z) :
  0 < w -> lo * w <= x < hi * w -> nearest_even x w m -> lo <= m <= hi.
Proof.
  intros Hw Hx [q [r [Ex [Hr Hm]]]].
  assert (lo <= q < hi) by nia.
  destruct (2 * r <? w); [lia|]. destruct (w <? 2 * r); [lia|].
  destruct (Z.even q); lia.
Qed.

(** [binary_round_aux] in binary32, on a mantissa of at least 24 digits
    that ends in the normal range: the result is the nearest-even
    rounding at 24 digits, renormalised when the rounding carries. *)
Lemma binary_round_aux_normal (sx : bool) (mx : positive) (ex : Z) (lx : location)
    (x w : Z) :
  0 < w -> shr_inv x w (shr_record_of_loc (Zpos mx) lx) ->
  24 <= Zpos (digits2_pos mx) ->
  -149 <= ex + (Zpos (digits2_pos mx) - 24) <= 103 ->
  exists m,
    nearest_even x (w * 2 ^ (Zpos (digits2_pos mx) - 24)) m /\
    2 ^ 23 <= m <= 2 ^ 24 /\
    binary_round_aux 24 128 sx (Zpos mx) ex lx =
      if m <? 2 ^ 24
      then S754_finite sx (Z.to_pos m) (ex + (Zpos (digits2_pos mx) - 24))
      else S754_finite sx (Z.to_pos (2 ^ 23)) (ex + (Zpos (digits2_pos mx) - 24) + 1).
Proof.
  intros Hw Hinv Hd He.
  pose proof (digits2_pos_bounds mx) as [Blo Bhi].
  remember (Zpos (digits2_pos mx)) as d eqn:Ed.
  remember (d - 24) as n eqn:En.
  assert (Hn : 0 <= n) by lia.
  unfold binary_round_aux, shr_fexp. cbn [Zdigits2]. rewrite <- Ed.
  assert (Hfexp : fexp 24 128 (d + ex) - ex = n).
  { unfold fexp, emin. lia. }
  rewrite Hfexp.
  destruct (shr_inv_shift x w _ ex n Hw Hn Hinv) as [Hinv1 He1].
  destruct (shr (shr_record_of_loc (Zpos mx) lx) ex n) as [mrs1 e1].
  cbn [fst snd] in Hinv1, He1. subst e1.
  pose proof (round_nearest_even_inv _ _ _ Hinv1) as Hne.
  remember (round_nearest_even (shr_m mrs1) (loc_of_shr_record mrs1)) as m eqn:Em.
  assert (Hp : 0 < 2 ^ n) by (apply Z.pow_pos_nonneg; lia).
  assert (Hrange : 2 ^ 23 <= m <= 2 ^ 24).
  { apply (nearest_even_range x (w * 2 ^ n)); [nia| |exact Hne].
    destruct Hinv as [lo0 [Hlo0 [Hx0 _]]].
    assert (Hlo0' : 0 <= lo0 < w).
    { destruct lx as [|[]]; simpl in Hlo0; exact Hlo0. }
    assert (Hm0 : x = Zpos mx * w + lo0).
    { rewrite Hx0. destruct lx as [|[]]; reflexivity. }
    replace (d - 1) with (23 + n) in Blo by lia.
    replace d with (24 + n) in Bhi by lia.
    rewrite Z.pow_add_r in Blo, Bhi by lia.
    split; nia. }
  exists m. split; [exact Hne|]. split; [exact Hrange|].
  destruct (Z.ltb_spec m (2 ^ 24)) as [Hlt | Hge].
  - assert (Hm : exists p, m = Zpos p) by (destruct m; try lia; eauto).
    destruct Hm as [p Hp']. rewrite Hp'. cbn [Zdigits2].
    assert (Hdp : Zpos (digits2_pos p) = 24).
    { apply digits2_pos_unique. rewrite <- Hp'. simpl Z.sub. lia. }
    rewrite Hdp.
    replace (fexp 24 128 (24 + (ex + n)) - (ex + n)) with 0
      by (unfold fexp, emin; lia).
    cbn [shr shr_record_of_loc shr_m].
    replace (ex + n <=? 128 - 24) with true by (symmetry; apply Z.leb_le; lia).
    reflexivity.
  - assert (Hm : m = 2 ^ 24) by lia. rewrite Hm.
    change (Zdigits2 (2 ^ 24)) with 25.
    replace (fexp 24 128 (25 + (ex + n)) - (ex + n)) with 1
      by (unfold fexp, emin; lia).
    cbn [shr iter_pos shr_record_of_loc shr_1 shr_m].
    change (2 ^ 24) with 16777216. cbn [shr_1 shr_m].
    replace (ex + n + 1 <=? 128 - 24) with true by (symmetry; apply Z.leb_le; lia).
    reflexivity.
Qed.


(** [binary_round_aux] in binary32 up to the largest exponent, when the
    rounding does not carry into a 25th digit. *)
Lemma binary_round_aux_top (sx : bool) (mx : positive) (ex : Z) (lx : location)
    (x w : Z) :
  0 < w -> shr_inv x w (shr_record_of_loc (Zpos mx) lx) ->
  24 <= Zpos (digits2_pos mx) ->
  -149 <= ex + (Zpos (digits2_pos mx) - 24) <= 104 ->
  2 * x < (2 ^ 25 - 1) * (w * 2 ^ (Zpos (digits2_pos mx) - 24)) ->
  exists m,
    nearest_even x (w * 2 ^ (Zpos (digits2_pos mx) - 24)) m /\
    2 ^ 23 <= m < 2 ^ 24 /\
    binary_round_aux 24 128 sx (Zpos mx) ex lx =
      S754_finite sx (Z.to_pos m) (ex + (Zpos (digits2_pos mx) - 24)).
Proof.
  intros Hw Hinv Hd He Hx.
  pose proof (digits2_pos_bounds mx) as [Blo Bhi].
  remember (Zpos (digits2_pos mx)) as d eqn:Ed.
  remember (d - 24) as n eqn:En.
  assert (Hn : 0 <= n) by lia.
  unfold binary_round_aux, shr_fexp. cbn [Zdigits2]. rewrite <- Ed.
  assert (Hfexp : fexp 24 128 (d + ex) - ex = n).
  { unfold fexp, emin. lia. }
  rewrite Hfexp.
  destruct (shr_inv_shift x w _ ex n Hw Hn Hinv) as [Hinv1 He1].
  destruct (shr (shr_record_of_loc (Zpos mx) lx) ex n) as [mrs1 e1].
  cbn [fst snd] in Hinv1, He1. subst e1.
  pose proof (round_nearest_even_inv _ _ _ Hinv1) as Hne.
  remember (round_nearest_even (shr_m mrs1) (loc_of_shr_record mrs1)) as m eqn:Em.
  assert (Hp : 0 < 2 ^ n) by (apply Z.pow_pos_nonneg; lia).
  assert (Hrange : 2 ^ 23 <= m <= 2 ^ 24).
  { apply (nearest_even_range x (w * 2 ^ n)); [nia| |exact Hne].
    destruct Hinv as [lo0 [Hlo0 [Hx0 _]]].
    assert (Hlo0' : 0 <= lo0 < w).
    { destruct lx as [|[]]; simpl in Hlo0; exact Hlo0. }
    assert (Hm0 : x = Zpos mx * w + lo0).
    { rewrite Hx0. destruct lx as [|[]]; reflexivity. }
    replace (d - 1) with (23 + n) in Blo by lia.
    replace d with (24 + n) in Bhi by lia.
    rewrite Z.pow_add_r in Blo, Bhi by lia.
    split; nia. }
  assert (Hlt : m < 2 ^ 24).
  { pose proof (nearest_even_bounds x (w * 2 ^ n) m ltac:(nia) Hne) as Hb.
    destruct (Z.eq_dec m (2 ^ 24)) as [E | NE]; [|lia].
    subst m. rewrite E in Hb. nia. }
  exists m. split; [exact Hne|]. split; [lia|].
  assert (Hm : exists p, m = Zpos p) by (destruct m; try lia; eauto).
  destruct Hm as [p Hp']. rewrite Hp'. cbn [Zdigits2].
  assert (Hdp : Zpos (digits2_pos p) = 24).
  { apply digits2_pos_unique. rewrite <- Hp'. simpl Z.sub. lia. }
  rewrite Hdp.
  replace (fexp 24 128 (24 + (ex + n)) - (ex + n)) with 0
    by (unfold fexp, emin; lia).
  cbn [shr shr_record_of_loc shr_m].
  replace (ex + n <=? 128 - 24) with true by (symmetry; apply Z.leb_le; lia).
  reflexivity.
Qed.

Lemma new_location_loc_of (w r : Z) :
  0 <= r < w -> new_location w r = loc_of r w.
Proof.
  intros Hr. unfold new_location, new_location_even, new_location_odd, loc_of.
  destruct (Z.even w) eqn:Ew; destruct (Z.eqb_spec r 0); trivial.
  f_equal. destruct (Z.compare_spec (2 * r + 1) w) as [E | L | G].
  - symmetry. apply Z.compare_lt_iff. lia.
  - symmetry. apply Z.compare_lt_iff. lia.
  - symmetry. apply Z.compare_gt_iff.
    assert (2 * r <> w).
    { intros <-. rewrite Z.even_mul in Ew. discriminate. }
    lia.
Qed.

Lemma pos_iter_xO (p d : positive) :
  Zpos (Pos.iter xO p d) = Zpos p * 2 ^ Zpos d.
Proof.
  apply (Pos.iter_ind _ xO p (fun d a => Zpos a = Zpos p * 2 ^ Zpos d)).
  - lia.
  - intros q a Ha. rewrite Pos2Z.inj_xO, Ha, Pos2Z.inj_succ, Z.pow_succ_r by lia. lia.
Qed.

Abbreviation eps := Float32.eps.
Abbreviation f255 := (Float32.of_Z 255).

(** A binary32 value r with 2^-31 <= r <= 2^120: a full mantissa and an
    exponent for which 1e-12 is small against r and 255 * r is finite. *)
Definition ample (r : spec_float) : bool :=
  match r with
  | S754_finite false m e =>
      (2 ^ 23 <=? Zpos m) && (Zpos m <? 2 ^ 24) && (-54 <=? e)
      && ((e <=? 96) || ((e =? 97) && (Zpos m =? 2 ^ 23)))
  | _ => false
  end.

Lemma ample_spec (r : spec_float) :
  ample r = true ->
  exists (m : positive) (e : Z),
    r = S754_finite false m e /\ 2 ^ 23 <= Zpos m < 2 ^ 24 /\ -54 <= e /\
    (e <= 96 \/ (e = 97 /\ Zpos m <= 8421504)).
Proof.
  destruct r as [| | |[] m e]; try discriminate. unfold ample. intros H.
  apply andb_prop in H as [H H4]. apply andb_prop in H as [H H3].
  apply andb_prop in H as [H1 H2].
  apply Z.leb_le in H1, H3. apply Z.ltb_lt in H2.
  exists m, e. split; [reflexivity|]. split; [lia|]. split; [lia|].
  apply orb_prop in H4 as [H4 | H4].
  - apply Z.leb_le in H4. now left.
  - apply andb_prop in H4 as [H5 H6]. apply Z.eqb_eq in H5, H6. right.
    split; [exact H5|]. rewrite H6. discriminate.
Qed.

(** The sum of a normal value M * 2^e, e >= -54, and the epsilon: a value
    D * 2^e with M <= D and (D - M) * 2^(e + 63) <= 9223372 + 2^(e + 63),
    that is, at most 1e-12 and one unit in the last place above. *)
Lemma add_eps_normal (m : positive) (e : Z) :
  2 ^ 23 <= Zpos m < 2 ^ 24 -> -54 <= e <= 100 ->
  exists (md : positive) (c : Z),
    SFadd 24 128 (S754_finite false m e) eps = S754_finite false md (e + c - 1) /\
    (c = 1 \/ c = 2) /\
    2 ^ 23 <= Zpos md < 2 ^ 24 /\
    Zpos m <= Zpos md * c /\
    (Zpos md * c - Zpos m) * 2 ^ (e + 63) <= 9223372 + 2 ^ (e + 63).
Proof.
  intros Hm He.
  unfold SFadd, Float32.eps.
  replace (Z.min e (-63)) with (-63) by lia.
  change (shl_align 9223372 (-63) (-63)) with (9223372%positive, -63).
  unfold shl_align.
  destruct (-63 - e) as [|d|d] eqn:Ed; try lia.
  cbn [fst cond_Zopp]. rewrite pos_iter_xO.
  assert (Hd : Zpos d = e + 63) by lia.
  rewrite <- Hd.
  assert (Hpow : 2 ^ 9 <= 2 ^ Zpos d) by (apply Z.pow_le_mono_r; lia).
  remember (2 ^ Zpos d) as A eqn:EA.
  change (2 ^ 9) with 512 in Hpow.
  assert (Hsum : exists s, Zpos m * A + 9223372 = Zpos s).
  { destruct (Zpos m * A + 9223372) eqn:E; try lia. eauto. }
  destruct Hsum as [s Hs]. rewrite Hs.
  cbn [binary_normalize]. unfold binary_round.
  assert (Hinv : shr_inv (Zpos s) 1 (shr_record_of_loc (Zpos s) loc_Exact)).
  { replace (Zpos s) with (Zpos s * 1 + 0) at 1 by lia.
    apply (shr_inv_of_loc (Zpos s) 0 1); lia. }
  destruct (Z.lt_ge_cases (Zpos s) (2 ^ 24 * A)) as [Hlt | Hge].
  - assert (Hds : Zpos (digits2_pos s) = 24 + Zpos d).
    { apply digits2_pos_unique.
      replace (24 + Zpos d - 1) with (23 + Zpos d) by lia.
      rewrite !Z.pow_add_r, <- EA by lia. nia. }
    rewrite Hds.
    replace (fexp 24 128 (24 + Zpos d + -63)) with e by (unfold fexp, emin; lia).
    unfold shl_align. destruct (e - -63) as [|k|k] eqn:Ek; try lia.
    destruct (binary_round_aux_normal false s (-63) loc_Exact (Zpos s) 1)
      as [m' [Hne [Hr ->]]]; trivial; rewrite ?Hds; try lia.
    rewrite Hds in Hne. replace (24 + Zpos d - 24) with (Zpos d) in * by lia.
    rewrite <- EA, Z.mul_1_l in Hne.
    pose proof (nearest_even_bounds (Zpos s) A m' ltac:(lia) Hne) as Hb.
    destruct (Z.ltb_spec m' (2 ^ 24)) as [Hc | Hc].
    + destruct m' as [|md|md]; try lia.
      exists md, 1. cbn [Z.to_pos].
      split; [f_equal; lia|]. split; [now left|]. split; [lia|].
      split; nia.
    + assert (m' = 2 ^ 24) by lia. subst m'.
      exists (Z.to_pos (2 ^ 23)), 2.
      split; [f_equal; lia|]. split; [now right|].
      change (Zpos (Z.to_pos (2 ^ 23))) with (2 ^ 23).
      split; [lia|]. split; nia.
  - assert (Hds : Zpos (digits2_pos s) = 25 + Zpos d).
    { apply digits2_pos_unique.
      replace (25 + Zpos d - 1) with (24 + Zpos d) by lia.
      rewrite !Z.pow_add_r, <- EA by lia. nia. }
    rewrite Hds.
    replace (fexp 24 128 (25 + Zpos d + -63)) with (e + 1) by (unfold fexp, emin; lia).
    unfold shl_align. destruct (e + 1 - -63) as [|k|k] eqn:Ek; try lia.
    destruct (binary_round_aux_normal false s (-63) loc_Exact (Zpos s) 1)
      as [m' [Hne [Hr ->]]]; trivial; rewrite ?Hds; try lia.
    rewrite Hds in Hne. replace (25 + Zpos d - 24) with (1 + Zpos d) in * by lia.
    rewrite Z.pow_add_r, <- EA, Z.mul_1_l in Hne by lia. change (2 ^ 1) with 2 in Hne.
    pose proof (nearest_even_bounds (Zpos s) (2 * A) m' ltac:(lia) Hne) as Hb.
    assert (Hc : m' < 2 ^ 24) by nia.
    replace (m' <? 2 ^ 24) with true by (symmetry; apply Z.ltb_lt; lia).
    destruct m' as [|md|md]; try lia.
    exists md, 2. cbn [Z.to_pos].
    split; [f_equal; lia|]. split; [now right|]. split; [lia|].
    split; nia.
Qed.

(** 255 times a normal value, rounded, where the product stays finite: the
    mantissa is within half a unit of 255 M / 128 or of 255 M / 256. *)
Lemma mul_255_normal (m : positive) (e : Z) :
  2 ^ 23 <= Zpos m < 2 ^ 24 -> -54 <= e ->
  e <= 96 \/ (e = 97 /\ Zpos m <= 8421504) ->
  exists (mn : positive) (k : Z),
    SFmul 24 128 f255 (S754_finite false m e) = S754_finite false mn (e + k) /\
    2 ^ 23 <= Zpos mn < 2 ^ 24 /\
    ((k = 7 /\ Zpos m <= 8421504) \/ (k = 8 /\ 8421504 < Zpos m)) /\
    2 * Z.abs (Zpos mn * 2 ^ k - 255 * Zpos m) <= 2 ^ k.
Proof.
  intros Hm He Htop. change (Float32.of_Z 255) with (S754_finite false 16711680 (-16)).
  unfold SFmul. cbn [xorb].
  set (p := (16711680 * m)%positive).
  assert (Hp : Zpos p = 16711680 * Zpos m) by (unfold p; lia).
  assert (Hinv : shr_inv (Zpos p) 1 (shr_record_of_loc (Zpos p) loc_Exact)).
  { replace (Zpos p) with (Zpos p * 1 + 0) at 1 by lia.
    apply (shr_inv_of_loc (Zpos p) 0 1); lia. }
  destruct (Z.le_gt_cases (Zpos m) 8421504) as [Hlow | Hhigh].
  - assert (Hd : Zpos (digits2_pos p) = 47) by (apply digits2_pos_unique; lia).
    destruct (binary_round_aux_top false p (-16 + e) loc_Exact (Zpos p) 1)
      as [mn [Hne [Hr ->]]]; trivial; rewrite ?Hd; try lia.
    rewrite Hd in *. change (47 - 24) with 23 in *. rewrite Z.mul_1_l in Hne.
    assert (Hb := nearest_even_bounds (Zpos p) (2 ^ 23) mn ltac:(lia) Hne).
    destruct mn as [|mn|mn]; try lia.
    exists mn, 7. split; [cbn [Z.to_pos]; f_equal; lia|].
    split; [lia|]. split; [left; lia|]. lia.
  - assert (Hd : Zpos (digits2_pos p) = 48) by (apply digits2_pos_unique; lia).
    destruct (binary_round_aux_top false p (-16 + e) loc_Exact (Zpos p) 1)
      as [mn [Hne [Hr ->]]]; trivial; rewrite ?Hd; try lia.
    rewrite Hd in *. change (48 - 24) with 24 in *. rewrite Z.mul_1_l in Hne.
    assert (Hb := nearest_even_bounds (Zpos p) (2 ^ 24) mn ltac:(lia) Hne).
    destruct mn as [|mn|mn]; try lia.
    exists mn, 8. split; [cbn [Z.to_pos]; f_equal; lia|].
    split; [lia|]. split; [right; lia|]. lia.
Qed.

(** The quotient of two normal values, rounded: its 24-digit mantissa lies
    between any two bounds that enclose the exact quotient of the
    mantissas. *)
Lemma div_normal (m1 m2 : positive) (e1 e2 w lo hi : Z) :
  2 ^ 23 <= Zpos m1 < 2 ^ 24 -> 2 ^ 23 <= Zpos m2 < 2 ^ 24 ->
  (w = 1 /\ Zpos m1 < Zpos m2) \/ (w = 2 /\ Zpos m2 <= Zpos m1) ->
  -149 <= e1 - e2 - 24 <= 102 ->
  2 ^ 23 <= lo -> hi < 2 ^ 24 ->
  lo * (w * Zpos m2) <= Zpos m1 * 2 ^ 24 < hi * (w * Zpos m2) ->
  exists q : positive,
    SFdiv 24 128 (S754_finite false m1 e1) (S754_finite false m2 e2)
      = S754_finite false q (e1 - e2 - 24 + (w - 1)) /\
    lo <= Zpos q <= hi.
Proof.
  intros Hm1 Hm2 Hw He Hlo Hhi Hx. unfold SFdiv, SFdiv_core_binary. cbn [xorb Zdigits2].
  rewrite (digits2_pos_unique m1 24), (digits2_pos_unique m2 24) by (simpl Z.sub; lia).
  replace (Z.min (fexp 24 128 (24 + e1 - (24 + e2))) (e1 - e2)) with (e1 - e2 - 24)
    by (unfold fexp, emin; lia).
  replace (e1 - e2 - (e1 - e2 - 24)) with 24 by lia.
  rewrite Z.shiftl_mul_pow2 by lia.
  set (x := Zpos m1 * 2 ^ 24) in *.
  pose proof (Z_div_mod x (Zpos m2) ltac:(lia)) as Hdiv.
  change IntDef.Z.div_eucl with Z.div_eucl.
  destruct (Z.div_eucl x (Zpos m2)) as [q0 r0] eqn:Ediv.
  destruct Hdiv as [Ex Hr].
  assert (Hq0 : w * 2 ^ 23 <= q0 < w * 2 ^ 24).
  { unfold x in Ex. destruct Hw as [[-> Hlt] | [-> Hge]]; nia. }
  destruct q0 as [|q0|q0]; try lia.
  assert (Hd : Zpos (digits2_pos q0) = 24 + (w - 1)).
  { apply digits2_pos_unique.
    destruct Hw as [[-> _] | [-> _]]; simpl Z.sub; simpl Z.add; lia. }
  assert (Hw12 : w = 1 \/ w = 2) by (destruct Hw as [[-> _] | [-> _]]; auto).
  destruct (binary_round_aux_normal false q0 (e1 - e2 - 24)
              (new_location (Zpos m2) r0) x (Zpos m2))
    as [q [Hne [Hrange ->]]]; rewrite ?Hd; try lia.
  - rewrite new_location_loc_of by lia. rewrite Ex.
    replace (Zpos m2 * Zpos q0 + r0) with (Zpos q0 * Zpos m2 + r0) by lia.
    apply shr_inv_of_loc; lia.
  - rewrite Hd in Hne. replace (24 + (w - 1) - 24) with (w - 1) in * by lia.
    assert (Hww : Zpos m2 * 2 ^ (w - 1) = w * Zpos m2).
    { destruct Hw as [[-> _] | [-> _]]; simpl; lia. }
    rewrite Hww in Hne.
    assert (Hq : lo <= q <= hi).
    { apply (nearest_even_range x (w * Zpos m2)); [nia | exact Hx | exact Hne]. }
    replace (q <? 2 ^ 24) with true by (symmetry; apply Z.ltb_lt; lia).
    destruct q as [|q|q]; try lia.
    exists q. split; [cbn [Z.to_pos]; f_equal; lia | lia].
Qed.

(** The largest element of a map with an ample range scales to a value in
    [254, 256). *)
Lemma scale_max_ample (r : spec_float) :
  ample r = true ->
  exists q : positive,
    SFdiv 24 128 (SFmul 24 128 f255 r) (SFadd 24 128 r eps) = S754_finite false q (-16) /\
    254 * 2 ^ 16 <= Zpos q < 256 * 2 ^ 16.
Proof.
  intros Hr. destruct (ample_spec r Hr) as [m [e [-> [Hm [He Htop]]]]].
  destruct (mul_255_normal m e Hm He Htop) as [mn [k [-> [Hmn [Hk Hb]]]]].
  destruct (add_eps_normal m e Hm ltac:(lia)) as [md [c [-> [Hc [Hmd [Hle Hup]]]]]].
  assert (HA : 2 ^ 9 <= 2 ^ (e + 63)) by (apply Z.pow_le_mono_r; lia).
  remember (2 ^ (e + 63)) as A eqn:EA. change (2 ^ 9) with 512 in HA.
  change (2 ^ 23) with 8388608 in *. change (2 ^ 24) with 16777216 in *.
  assert (Hk' : (k = 7 /\ 2 ^ k = 128) \/ (k = 8 /\ 2 ^ k = 256)).
  { destruct Hk as [[-> _] | [-> _]]; [left | right]; split; reflexivity. }
  assert (F1 : 254 * (Zpos md * c) <= Zpos mn * 2 ^ k).
  { assert (H1 : 254 * (Zpos md * c) * A <= 254 * (Zpos m * A + 9223372 + A)) by lia.
    assert (H2 : (255 * Zpos m - 128) * A <= Zpos mn * 2 ^ k * A).
    { apply Z.mul_le_mono_nonneg_r; [lia|]. destruct Hk' as [[_ E] | [_ E]]; rewrite E in *; lia. }
    assert (H3 : 8388226 * 512 <= (Zpos m - 382) * A)
      by (apply Z.mul_le_mono_nonneg; lia).
    apply (Z.mul_le_mono_pos_r _ _ A); lia. }
  assert (F2 : 65536 * (Zpos mn * 2 ^ k) <= 16711681 * (Zpos md * c)).
  { destruct Hk' as [[_ E] | [_ E]]; rewrite E in *; lia. }
  assert (Hdiv : forall w,
            (w = 1 /\ Zpos mn < Zpos md) \/ (w = 2 /\ Zpos md <= Zpos mn) ->
            k - c + w = 8 ->
            16646144 * (w * Zpos md) <= Zpos mn * 16777216 < 16711682 * (w * Zpos md) ->
            exists q : positive,
              SFdiv 24 128 (S754_finite false mn (e + k)) (S754_finite false md (e + c - 1))
              = S754_finite false q (-16) /\ 254 * 2 ^ 16 <= Zpos q < 256 * 2 ^ 16).
  { intros w Hw Hkc Hx.
    destruct (div_normal mn md (e + k) (e + c - 1) w 16646144 16711682)
      as [q [E Hq]]; trivial; try lia.
    exists q. split; [|lia]. rewrite E. f_equal. lia. }
  destruct Hk' as [[-> E] | [-> E]]; rewrite E in *; destruct Hc as [-> | ->].
  - apply (Hdiv 2); lia.
  - lia.
  - apply (Hdiv 1); lia.
  - apply (Hdiv 2); lia.
Qed.

End Rounding.

(** ** Facts about [scaling] on integer-valued (uint8) maps *)

Module ScalingFacts.
Section WithPlatform.

Variable platform_cast : spec_float -> Z.

Abbreviation to_uint8 := (Scaling.to_uint8 platform_cast).
Abbreviation scaling := (Scaling.scaling platform_cast).
Abbreviation scaling_with := (Scaling.scaling_with platform_cast).

Lemma to_uint8_range (x : spec_float) : 0 <= to_uint8 x <= 255.
Proof.
unfold Scaling.to_uint8.
destruct (Float32.trunc x) as [z|].
- destruct ((0 <=? z) && (z <=? 255)) eqn:E.
  + apply andb_prop in E as [E1 E2]. lia.
  + pose proof (Z.mod_pos_bound (platform_cast x) 256). lia.
- pose proof (Z.mod_pos_bound (platform_cast x) 256). lia.
Qed.

(** The scaled value of byte [v] in a map whose minimum and maximum
  are the bytes [mn] and [mx]. *)
Definition scale_byte (mn mx v : Z) : Z :=
to_uint8 (Scaling.scale_elem 255 (Float32.of_Z mn) (Float32.of_Z mx) (Float32.of_Z v)).

Lemma scale_byte_fixed (w : Z) : 0 <= w <= 255 -> scale_byte 0 255 w = w.
Proof.
intros Hw. apply Z.eqb_eq.
apply (forall_bytes (fun w => scale_byte 0 255 w =? w)); [|exact Hw].
vm_compute. reflexivity.
Qed.

Lemma scale_byte_const (m : Z) : 0 <= m <= 255 -> scale_byte m m m = 0.
Proof.
intros Hm. apply Z.eqb_eq.
apply (forall_bytes (fun m => scale_byte m m m =? 0)); [|exact Hm].
vm_compute. reflexivity.
Qed.

Lemma scale_byte_ends (mn mx : Z) :
0 <= mn <= 255 -> 0 <= mx <= 255 -> mn < mx ->
scale_byte mn mx mn = 0 /\ scale_byte mn mx mx = 255.
Proof.
intros Hmn Hmx Hlt.
assert (H : (mn <? mx) = true -> (scale_byte mn mx mn =? 0) && (scale_byte mn mx mx =? 255) = true).
{ apply implb_true_iff.
  apply (forall_bytes2 (fun mn mx =>
    implb (mn <? mx) ((scale_byte mn mx mn =? 0) && (scale_byte mn mx mx =? 255))));
    [|exact Hmn|exact Hmx].
  vm_compute. reflexivity. }
apply andb_prop in H as [H1 H2]; [|apply Z.ltb_lt; exact Hlt].
split; apply Z.eqb_eq; assumption.
Qed.


(** *** Rows *)

Definition row_min (row : list spec_float) : spec_float :=
match row with [] => S754_nan | x :: tl => fold_left Scaling.fmin tl x end.

Definition row_max (row : list spec_float) : spec_float :=
match row with [] => S754_nan | x :: tl => fold_left Scaling.fmax tl x end.

Lemma map_result_ok {A B : Type} (f : A -> result B) (g : A -> B) (l : list A) :
Forall (fun x => f x = Ok (g x)) l -> Scaling.map_result f l = Ok (map g l).
Proof.
induction 1 as [|x l Hx _ IH]; simpl; [reflexivity|].
rewrite Hx. simpl. rewrite IH. reflexivity.
Qed.

Lemma get_min_max_ok (rows : list (list spec_float)) :
Forall (fun r => r <> []) rows ->
Scaling.get_min_max rows = Ok (map row_min rows, map row_max rows).
Proof.
intros Hne. unfold Scaling.get_min_max.
rewrite (map_result_ok _ row_min), (map_result_ok _ row_max); simpl; trivial.
- eapply Forall_impl; [|exact Hne]. intros [|x tl] H; [congruence | reflexivity].
- eapply Forall_impl; [|exact Hne]. intros [|x tl] H; [congruence | reflexivity].
Qed.

Definition scale_row (max_value : Z) (row : list spec_float) : list spec_float :=
map (Scaling.scale_elem max_value (row_min row) (row_max row)) row.

Lemma scale_rows_map (max_value : Z) (rows : list (list spec_float)) :
Scaling.scale_rows max_value rows (map row_min rows) (map row_max rows)
= map (scale_row max_value) rows.
Proof.
induction rows as [|r rows IH]; simpl; [reflexivity|].
now rewrite IH.
Qed.

Lemma rows_nonempty {A : Type} (n len : nat) (l : list A) :
List.length l = (n * len)%nat -> (0 < len)%nat ->
Forall (fun r => r <> []) (rows_of n len l).
Proof.
intros Hl Hlen.
eapply Forall_impl; [|apply rows_of_row_length; exact Hl].
intros r Hr ->. simpl in Hr. lia.
Qed.

Lemma length_astype_float32 (b : buffer) :
List.length (astype_float32 b) = buffer_length b.
Proof. destruct b; simpl; now rewrite ?length_map. Qed.

(** The values [scaling] computes before the final cast. *)
Definition scaled_values (max_value : Z) (n len : nat) (b : buffer) : list spec_float :=
List.concat (map (scale_row max_value) (rows_of n len (astype_float32 b))).

Lemma scaling_with_3d (a : ndarray) (n h w : nat) (c : bool) (max_value : Z) :
shape a = [n; h; w] ->
buffer_length (data a) = (n * (h * w))%nat -> (0 < h * w)%nat ->
scaling_with a c max_value =
  Ok (mk_ndarray [n; h; w]
        (if c then U8 (map to_uint8 (scaled_values max_value n (h * w) (data a)))
         else F32 (scaled_values max_value n (h * w) (data a)))).
Proof.
intros Hs Hl Hpos. unfold Scaling.scaling_with. rewrite Hs. simpl.
rewrite get_min_max_ok.
- simpl. rewrite scale_rows_map. destruct c; reflexivity.
- apply rows_nonempty; [|exact Hpos]. rewrite length_astype_float32. exact Hl.
Qed.

Lemma scaling_with_2d (a : ndarray) (h w : nat) (c : bool) (max_value : Z) :
shape a = [h; w] ->
buffer_length (data a) = (h * w)%nat -> (0 < h * w)%nat ->
scaling_with a c max_value =
  Ok (mk_ndarray (squeeze [1%nat; h; w])
        (if c then U8 (map to_uint8 (scaled_values max_value 1 (h * w) (data a)))
         else F32 (scaled_values max_value 1 (h * w) (data a)))).
Proof.
intros Hs Hl Hpos. unfold Scaling.scaling_with. rewrite Hs.
cbn [List.length Nat.eqb].
rewrite get_min_max_ok.
- cbn [bind]. rewrite scale_rows_map. destruct c; reflexivity.
- apply rows_nonempty; [|exact Hpos]. rewrite length_astype_float32. lia.
Qed.

Lemma length_scaled_values (max_value : Z) (n len : nat) (b : buffer) :
buffer_length b = (n * len)%nat ->
List.length (scaled_values max_value n len b) = (n * len)%nat.
Proof.
intros Hl. unfold scaled_values.
rewrite (length_concat_rows len).
- now rewrite length_map, rows_of_length.
- apply Forall_map. eapply Forall_impl; [|apply rows_of_row_length].
  + intros r Hr. unfold scale_row. now rewrite length_map.
  + now rewrite length_astype_float32.
Qed.

(** *** Rows of bytes *)

Definition byte_row (zr : list Z) : Prop := Forall (fun v => 0 <= v <= 255) zr.

Lemma fold_fmin_bytes (tl : list Z) (x : Z) :
0 <= x <= 255 -> byte_row tl ->
fold_left Scaling.fmin (map Float32.of_Z tl) (Float32.of_Z x)
= Float32.of_Z (fold_left Z.min tl x).
Proof.
revert x. induction tl as [|y tl IH]; intros x Hx Htl; simpl; [reflexivity|].
inversion Htl as [|? ? Hy Htl']; subst.
assert (E : Scaling.fmin (Float32.of_Z x) (Float32.of_Z y) = Float32.of_Z (Z.min x y)).
{ unfold Scaling.fmin.
  rewrite Float32Facts.ltb_of_Z, Float32Facts.of_Z_not_nan, orb_false_r by assumption.
  destruct (Z.ltb_spec x y).
  - now rewrite Z.min_l by lia.
  - now rewrite Z.min_r by lia. }
rewrite E. apply IH; [lia | exact Htl'].
Qed.

Lemma fold_fmax_bytes (tl : list Z) (x : Z) :
0 <= x <= 255 -> byte_row tl ->
fold_left Scaling.fmax (map Float32.of_Z tl) (Float32.of_Z x)
= Float32.of_Z (fold_left Z.max tl x).
Proof.
revert x. induction tl as [|y tl IH]; intros x Hx Htl; simpl; [reflexivity|].
inversion Htl as [|? ? Hy Htl']; subst.
assert (E : Scaling.fmax (Float32.of_Z x) (Float32.of_Z y) = Float32.of_Z (Z.max x y)).
{ unfold Scaling.fmax.
  rewrite Float32Facts.ltb_of_Z, Float32Facts.of_Z_not_nan, orb_false_r by assumption.
  destruct (Z.ltb_spec y x).
  - now rewrite Z.max_l by lia.
  - now rewrite Z.max_r by lia. }
rewrite E. apply IH; [lia | exact Htl'].
Qed.

Lemma row_min_bytes (zr : list Z) :
zr <> [] -> byte_row zr -> row_min (map Float32.of_Z zr) = Float32.of_Z (zmin zr).
Proof.
destruct zr as [|x tl]; [congruence|]. intros _ H.
inversion H; subst. now apply fold_fmin_bytes.
Qed.

Lemma row_max_bytes (zr : list Z) :
zr <> [] -> byte_row zr -> row_max (map Float32.of_Z zr) = Float32.of_Z (zmax zr).
Proof.
destruct zr as [|x tl]; [congruence|]. intros _ H.
inversion H; subst. now apply fold_fmax_bytes.
Qed.

(** What [scaling] does to one map of bytes. *)
Definition scale_zrow (zr : list Z) : list Z :=
map (scale_byte (zmin zr) (zmax zr)) zr.

Lemma scale_row_bytes (zr : list Z) :
zr <> [] -> byte_row zr ->
map to_uint8 (scale_row 255 (map Float32.of_Z zr)) = scale_zrow zr.
Proof.
intros Hne Hb. unfold scale_row, scale_zrow, scale_byte.
rewrite row_min_bytes, row_max_bytes by assumption.
now rewrite !map_map.
Qed.

Lemma scale_zrow_bytes (zr : list Z) : byte_row (scale_zrow zr).
Proof. apply Forall_map, Forall_forall. intros v _. apply to_uint8_range. Qed.

Lemma length_scale_zrow (zr : list Z) : List.length (scale_zrow zr) = List.length zr.
Proof. apply length_map. Qed.

(** A map of bytes that holds both 0 and 255, or only zeros, is a fixed
  point of scaling. *)
Lemma scale_zrow_stretched (y : list Z) :
byte_row y -> In 0 y -> In 255 y -> scale_zrow y = y.
Proof.
intros Hb H0 H255. unfold scale_zrow.
rewrite (zmin_unique y 0), (zmax_unique y 255); trivial.
- rewrite <- (map_id y) at 2. apply map_ext_in. intros v Hv.
  apply scale_byte_fixed. unfold byte_row in Hb.
  rewrite Forall_forall in Hb. now apply Hb.
- eapply Forall_impl; [|exact Hb]. simpl. lia.
- eapply Forall_impl; [|exact Hb]. simpl. lia.
Qed.

Lemma scale_zrow_zeros (y : list Z) :
Forall (fun v => v = 0) y -> scale_zrow y = y.
Proof.
intros Hz. destruct y as [|x tl]; [reflexivity|].
assert (Hin : In 0 (x :: tl)) by (inversion Hz; subst; now left).
unfold scale_zrow.
rewrite (zmin_unique _ 0), (zmax_unique _ 0); trivial.
- rewrite <- (map_id (x :: tl)) at 2. apply map_ext_in. intros v Hv.
  rewrite Forall_forall in Hz. rewrite (Hz v Hv). now apply scale_byte_const.
- eapply Forall_impl; [|exact Hz]. simpl. lia.
- eapply Forall_impl; [|exact Hz]. simpl. lia.
Qed.

Lemma scale_zrow_shape (zr : list Z) :
zr <> [] -> byte_row zr ->
(zmin zr = zmax zr /\ Forall (fun v => v = 0) (scale_zrow zr)) \/
(zmin zr < zmax zr /\ In 0 (scale_zrow zr) /\ In 255 (scale_zrow zr)).
Proof.
intros Hne Hb.
destruct (zmin_spec zr Hne) as [Hmin_in Hmin_le].
destruct (zmax_spec zr Hne) as [Hmax_in Hmax_le].
unfold byte_row in Hb.
rewrite Forall_forall in Hb, Hmin_le, Hmax_le.
pose proof (Hb _ Hmin_in) as Bmin. pose proof (Hb _ Hmax_in) as Bmax.
pose proof (Hmax_le _ Hmin_in) as Hle.
destruct (Z.eq_dec (zmin zr) (zmax zr)) as [E | NE].
- left. split; [exact E|]. apply Forall_map, Forall_forall. intros v Hv.
  assert (v = zmin zr) by (pose proof (Hmin_le v Hv); pose proof (Hmax_le v Hv); lia).
  subst v. rewrite <- E. now apply scale_byte_const.
- right. split; [lia|].
  destruct (scale_byte_ends (zmin zr) (zmax zr)) as [E0 E255]; [lia..|].
  split.
  + rewrite <- E0. now apply in_map.
  + rewrite <- E255. now apply in_map.
Qed.

(** Scaling one map of bytes is idempotent. *)
Lemma scale_zrow_idempotent (zr : list Z) :
byte_row zr -> scale_zrow (scale_zrow zr) = scale_zrow zr.
Proof.
intros Hb. destruct zr as [|x tl]; [reflexivity|].
destruct (scale_zrow_shape (x :: tl)) as [[_ Hz] | [_ [H0 H255]]];
  [discriminate | exact Hb | |].
- now apply scale_zrow_zeros.
- apply scale_zrow_stretched; trivial. apply scale_zrow_bytes.
Qed.


(** *** Arrays of bytes *)

Definition scaled_bytes (n len : nat) (d : list Z) : list Z :=
List.concat (map scale_zrow (rows_of n len d)).

Lemma rows_of_Forall {A : Type} (P : A -> Prop) (n len : nat) (l : list A) :
Forall P l -> Forall (Forall P) (rows_of n len l).
Proof.
revert l. induction n as [|n IH]; intros l Hl; simpl; constructor.
- rewrite <- (firstn_skipn len l) in Hl. now apply Forall_app in Hl.
- apply IH. rewrite <- (firstn_skipn len l) in Hl. now apply Forall_app in Hl.
Qed.

Lemma scaled_values_bytes (n len : nat) (d : list Z) :
List.length d = (n * len)%nat -> (0 < len)%nat -> byte_row d ->
map to_uint8 (scaled_values 255 n len (U8 d)) = scaled_bytes n len d.
Proof.
intros Hl Hlen Hb. unfold scaled_values, scaled_bytes. simpl.
rewrite rows_of_map, concat_map, !map_map. f_equal.
apply map_ext_in. intros r Hr. apply scale_row_bytes.
- pose proof (rows_nonempty n len d Hl Hlen) as Hne.
  rewrite Forall_forall in Hne. now apply Hne.
- pose proof (rows_of_Forall _ n len d Hb) as Hrows.
  rewrite Forall_forall in Hrows. now apply Hrows.
Qed.

Lemma scaled_bytes_length (n len : nat) (d : list Z) :
List.length d = (n * len)%nat ->
List.length (scaled_bytes n len d) = (n * len)%nat.
Proof.
intros Hl. unfold scaled_bytes. rewrite (length_concat_rows len).
- now rewrite length_map, rows_of_length.
- apply Forall_map. eapply Forall_impl; [|apply rows_of_row_length; exact Hl].
  intros r Hr. now rewrite length_scale_zrow.
Qed.

Lemma scaled_bytes_range (n len : nat) (d : list Z) : byte_row (scaled_bytes n len d).
Proof.
unfold scaled_bytes, byte_row. apply Forall_concat, Forall_map, Forall_forall.
intros r _. apply scale_zrow_bytes.
Qed.

Lemma scaled_bytes_idempotent (n len : nat) (d : list Z) :
List.length d = (n * len)%nat -> byte_row d ->
scaled_bytes n len (scaled_bytes n len d) = scaled_bytes n len d.
Proof.
intros Hl Hb. unfold scaled_bytes at 1. unfold scaled_bytes at 1.
rewrite rows_of_concat.
- unfold scaled_bytes. f_equal. rewrite map_map. apply map_ext_in.
  intros r Hr. apply scale_zrow_idempotent.
  pose proof (rows_of_Forall _ n len d Hb) as Hrows.
  rewrite Forall_forall in Hrows. now apply Hrows.
- now rewrite length_map, rows_of_length.
- apply Forall_map. eapply Forall_impl; [|apply rows_of_row_length; exact Hl].
  intros r Hr. now rewrite length_scale_zrow.
Qed.

(** Shapes on which [scaling] keeps the shape: three axes with non-empty
  maps, or two axes none of which has length one. *)
Definition regular_shape (s : list nat) : bool :=
match s with
| [_; h; w] => (0 <? h * w)%nat
| [h; w] => (2 <=? h)%nat && (2 <=? w)%nat
| _ => false
end.

Definition num_maps (s : list nat) : nat :=
match s with [n; _; _] => n | _ => 1%nat end.

Definition map_len (s : list nat) : nat :=
match s with [_; h; w] => (h * w)%nat | [h; w] => (h * w)%nat | _ => 0%nat end.

Lemma regular_shape_numel (s : list nat) :
regular_shape s = true ->
numel s = (num_maps s * map_len s)%nat /\ (0 < map_len s)%nat.
Proof.
intros H. destruct s as [|d1 [|d2 [|d3 [|d4 s]]]]; try discriminate;
  unfold regular_shape in H; cbn [numel fold_right num_maps map_len].
- apply andb_prop in H as [H1 H2]. apply Nat.leb_le in H1, H2. nia.
- apply Nat.ltb_lt in H. lia.
Qed.

Lemma scaling_with_regular (a : ndarray) (c : bool) (max_value : Z) :
buffer_length (data a) = numel (shape a) -> regular_shape (shape a) = true ->
scaling_with a c max_value =
  Ok (mk_ndarray (shape a)
        (if c
         then U8 (map to_uint8
                    (scaled_values max_value (num_maps (shape a)) (map_len (shape a)) (data a)))
         else F32 (scaled_values max_value (num_maps (shape a)) (map_len (shape a)) (data a)))).
Proof.
intros Hl Hs. destruct a as [s b]. cbn [shape data] in *.
destruct s as [|d1 [|d2 [|d3 [|d4 s]]]]; try discriminate;
  unfold regular_shape in Hs; cbn [numel fold_right] in Hl;
  cbn [num_maps map_len].
- (* two axes *)
  apply andb_prop in Hs as [H1 H2].
  apply Nat.leb_le in H1, H2.
  rewrite (scaling_with_2d _ d1 d2); cbn [shape data]; [|reflexivity|lia|nia].
  unfold squeeze. cbn [filter Nat.eqb negb].
  replace (d1 =? 1)%nat with false by (symmetry; apply Nat.eqb_neq; lia).
  replace (d2 =? 1)%nat with false by (symmetry; apply Nat.eqb_neq; lia).
  reflexivity.
- (* three axes *)
  apply Nat.ltb_lt in Hs.
  rewrite (scaling_with_3d _ d1 d2 d3); cbn [shape data];
    [reflexivity|reflexivity|lia|lia].
Qed.

(** *** Maps with an ample range *)

Lemma sub_self (x : spec_float) :
  Float32.is_finite x = true -> Float32.sub x x = S754_zero false.
Proof.
  destruct x as [[]|[]| |sx m e]; try discriminate; try reflexivity.
  intros _. unfold Float32.sub, SFsub. now rewrite Z.sub_diag.
Qed.

Lemma ample_sub_finite (mx mn : spec_float) :
  Rounding.ample (Float32.sub mx mn) = true -> Float32.is_finite mn = true.
Proof.
  destruct mx as [[]|[]| |sx m e], mn as [[]|[]| |sy m' e']; simpl; trivial; discriminate.
Qed.

Lemma scale_elem_min (mn mx : spec_float) :
  Rounding.ample (Float32.sub mx mn) = true ->
  to_uint8 (Scaling.scale_elem 255 mn mx mn) = 0.
Proof.
  intros Hw. unfold Scaling.scale_elem.
  rewrite sub_self by (eapply ample_sub_finite; exact Hw).
  destruct (Rounding.ample_spec _ Hw) as [m [e [-> [Hm [He Htop]]]]].
  destruct (Rounding.add_eps_normal m e Hm ltac:(lia)) as [md [c [E _]]].
  change (Float32.add (S754_finite false m e) Float32.eps)
    with (SFadd 24 128 (S754_finite false m e) Float32.eps).
  rewrite E. reflexivity.
Qed.

Lemma to_uint8_top (q : positive) :
  254 * 2 ^ 16 <= Zpos q < 256 * 2 ^ 16 ->
  to_uint8 (S754_finite false q (-16)) = 254 \/
  to_uint8 (S754_finite false q (-16)) = 255.
Proof.
  intros Hq. unfold Scaling.to_uint8, Float32.trunc.
  rewrite Z.shiftr_div_pow2 by lia.
  assert (Hz : 254 <= Zpos q / 2 ^ 16 < 256).
  { split; [apply Z.div_le_lower_bound | apply Z.div_lt_upper_bound]; lia. }
  replace ((0 <=? Zpos q / 2 ^ 16) && (Zpos q / 2 ^ 16 <=? 255)) with true.
  - lia.
  - symmetry. apply andb_true_intro. split; apply Z.leb_le; lia.
Qed.

Lemma scale_elem_max (mn mx : spec_float) :
  Rounding.ample (Float32.sub mx mn) = true ->
  to_uint8 (Scaling.scale_elem 255 mn mx mx) = 254 \/
  to_uint8 (Scaling.scale_elem 255 mn mx mx) = 255.
Proof.
  intros Hw.
  change (Scaling.scale_elem 255 mn mx mx) with
    (SFdiv 24 128 (SFmul 24 128 (Float32.of_Z 255) (Float32.sub mx mn))
       (SFadd 24 128 (Float32.sub mx mn) Float32.eps)).
  destruct (Rounding.scale_max_ample _ Hw) as [q [-> Hq]].
  now apply to_uint8_top.
Qed.

Lemma fold_fmin_In (tl : list spec_float) (x : spec_float) :
  In (fold_left Scaling.fmin tl x) (x :: tl).
Proof.
  revert x. induction tl as [|y tl IH]; intros x; simpl; [now left|].
  destruct (IH (Scaling.fmin x y)) as [E | Hin]; [|now right; right].
  rewrite <- E. unfold Scaling.fmin.
  destruct (Float32.ltb x y || Float32.is_nan x); auto.
Qed.

Lemma fold_fmax_In (tl : list spec_float) (x : spec_float) :
  In (fold_left Scaling.fmax tl x) (x :: tl).
Proof.
  revert x. induction tl as [|y tl IH]; intros x; simpl; [now left|].
  destruct (IH (Scaling.fmax x y)) as [E | Hin]; [|now right; right].
  rewrite <- E. unfold Scaling.fmax.
  destruct (Float32.ltb y x || Float32.is_nan x); auto.
Qed.

Lemma row_min_In (row : list spec_float) : row <> [] -> In (row_min row) row.
Proof. destruct row; [congruence | intros _; apply fold_fmin_In]. Qed.

Lemma row_max_In (row : list spec_float) : row <> [] -> In (row_max row) row.
Proof. destruct row; [congruence | intros _; apply fold_fmax_In]. Qed.

(** The bytes [scaling] returns for one map. *)
Definition scaled_row (row : list spec_float) : list Z :=
  map to_uint8 (scale_row 255 row).

Lemma scaled_row_ample (row : list spec_float) :
  row <> [] -> Rounding.ample (Float32.sub (row_max row) (row_min row)) = true ->
  zmin (scaled_row row) = 0 /\
  (zmax (scaled_row row) = 254 \/ zmax (scaled_row row) = 255).
Proof.
  intros Hne Hw. unfold scaled_row, scale_row. rewrite map_map.
  set (f := fun x => to_uint8 (Scaling.scale_elem 255 (row_min row) (row_max row) x)).
  assert (Hb : Forall (fun v => 0 <= v <= 255) (map f row)).
  { apply Forall_map, Forall_forall. intros x _. apply to_uint8_range. }
  assert (H0 : In 0 (map f row)).
  { rewrite <- (scale_elem_min _ _ Hw). apply (in_map f), row_min_In, Hne. }
  assert (Hmax : In (f (row_max row)) (map f row)) by (apply in_map, row_max_In, Hne).
  split.
  - apply zmin_unique; [exact H0|]. eapply Forall_impl; [|exact Hb]. simpl. lia.
  - assert (Hlist : map f row <> []) by (intros E; rewrite E in H0; contradiction).
    destruct (zmax_spec (map f row) Hlist) as [Hin Hle].
    rewrite Forall_forall in Hb, Hle.
    pose proof (Hb _ Hin). pose proof (Hle _ Hmax).
    destruct (scale_elem_max _ _ Hw) as [E | E]; fold (f (row_max row)) in E; lia.
Qed.

Lemma rows_of_scaled (n len : nat) (b : buffer) :
  buffer_length b = (n * len)%nat ->
  rows_of n len (map to_uint8 (scaled_values 255 n len b))
  = map scaled_row (rows_of n len (astype_float32 b)).
Proof.
  intros Hl. unfold scaled_values. rewrite concat_map, map_map.
  rewrite rows_of_concat; [reflexivity | |].
  - now rewrite length_map, rows_of_length.
  - apply Forall_map. eapply Forall_impl; [|apply rows_of_row_length].
    + intros r Hr. unfold scale_row. now rewrite !length_map.
    + now rewrite length_astype_float32.
Qed.

End WithPlatform.
End ScalingFacts.

(** ** Facts about target resolution *)

Module TargetsFacts.
Import Targets.

Lemma contains_In (targets : list string) (label : string) :
  contains targets label = true <-> In label targets.
Proof.
  unfold contains. rewrite existsb_exists. split.
  - intros [x [Hin Heq]]. apply String.eqb_eq in Heq. now subst.
  - intros Hin. exists label. split; [exact Hin | apply String.eqb_refl].
Qed.

Lemma collect_indices_ext (names t1 t2 : list string) (k : Z) :
  (forall label, In label names -> contains t1 label = contains t2 label) ->
  collect_indices names t1 k = collect_indices names t2 k.
Proof.
  revert k. induction names as [|label rest IH]; intros k H; simpl; [reflexivity|].
  rewrite (H label) by now left.
  rewrite (IH (k + 1)) by (intros; apply H; now right).
  reflexivity.
Qed.

Lemma collect_indices_length (names targets : list string) (k : Z) :
  List.length (collect_indices names targets k)
  = List.length (filter (contains targets) names).
Proof.
  revert k. induction names as [|label rest IH]; intros k; simpl; [reflexivity|].
  destruct (contains targets label); simpl; now rewrite IH.
Qed.

Lemma collect_indices_In (names targets : list string) (k i : Z) :
  In i (collect_indices names targets k) <->
  k <= i < k + Z.of_nat (List.length names) /\
  In (nth (Z.to_nat (i - k)) names EmptyString) targets.
Proof.
  revert k. induction names as [|label rest IH]; intros k.
  - simpl. split; [contradiction | lia].
  - cbn [collect_indices List.length].
    assert (Hstep : In i (collect_indices rest targets (k + 1)) <->
                    k + 1 <= i < k + Z.of_nat (S (List.length rest)) /\
                    In (nth (Z.to_nat (i - k)) (label :: rest) EmptyString) targets).
    { rewrite IH. split; intros [Hr Hin]; (split; [lia|]).
      - replace (Z.to_nat (i - k)) with (S (Z.to_nat (i - (k + 1)))) by lia. exact Hin.
      - replace (Z.to_nat (i - k)) with (S (Z.to_nat (i - (k + 1)))) in Hin by lia. exact Hin. }
    destruct (contains targets label) eqn:E.
    + simpl In. rewrite Hstep. split.
      * intros [<- | [Hr Hin]].
        -- split; [lia|]. rewrite Z.sub_diag. simpl. now apply contains_In.
        -- split; [lia | exact Hin].
      * intros [Hr Hin]. destruct (Z.eq_dec k i) as [-> | Hne]; [now left | right].
        split; [lia | exact Hin].
    + rewrite Hstep. split.
      * intros [Hr Hin]. split; [lia | exact Hin].
      * intros [Hr Hin]. split; [|exact Hin].
        destruct (Z.eq_dec k i) as [-> | Hne]; [|lia].
        rewrite Z.sub_diag in Hin. simpl in Hin.
        apply contains_In in Hin. congruence.
Qed.

Lemma collect_indices_sorted (names targets : list string) (k : Z) :
  StronglySorted Z.lt (collect_indices names targets k).
Proof.
  revert k. induction names as [|label rest IH]; intros k; simpl; [constructor|].
  destruct (contains targets label); [|apply IH].
  constructor; [apply IH|].
  apply Forall_forall. intros i Hi. apply collect_indices_In in Hi. lia.
Qed.

Lemma matched_length (names targets : list string) :
  NoDup names -> NoDup targets -> incl targets names ->
  List.length (filter (contains targets) names) = List.length targets.
Proof.
  intros Hn Ht Hincl. apply Permutation_length, NoDup_Permutation.
  - now apply NoDup_filter.
  - exact Ht.
  - intros x. rewrite filter_In, contains_In. split; [tauto|].
    intros Hx. split; [now apply Hincl | exact Hx].
Qed.

Lemma unmatched_length (names targets : list string) (s : string) :
  NoDup names -> In s targets -> ~ In s names ->
  (List.length (filter (contains targets) names) < List.length targets)%nat.
Proof.
  intros Hn Hs Hns.
  apply Nat.le_lt_trans with (List.length (remove string_dec s targets)).
  - apply NoDup_incl_length; [now apply NoDup_filter|].
    intros x Hx. apply filter_In in Hx as [Hxn Hxt]. apply contains_In in Hxt.
    apply in_in_remove; [|exact Hxt]. intros ->. contradiction.
  - now apply remove_length_lt.
Qed.

Lemma asarray_strings (targets : list string) :
  targets <> [] -> asarray (map TStr targets) = StrArray targets.
Proof.
  destruct targets as [|s tl]; [congruence|]. intros _.
  unfold asarray. simpl. now rewrite map_map, map_id.
Qed.

Lemma asarray_ints (idxs : list Z) : asarray (map TInt idxs) = IntArray idxs.
Proof.
  unfold asarray.
  replace (forallb is_int (map TInt idxs)) with true.
  - now rewrite map_map, map_id.
  - symmetry. apply forallb_forall. intros t Ht.
    apply in_map_iff in Ht as [z [<- _]]. reflexivity.
Qed.

Lemma get_target_indices_strings (targets names : list string) :
  targets <> [] -> names <> [] ->
  get_target_indices (Seq (map TStr targets)) (Some names) =
    if Nat.eqb (List.length targets) (List.length (collect_indices names targets 0))
    then Ok (collect_indices names targets 0)
    else Raise (ValueError "No all label names found in label_names. Check spelling.").
Proof.
  intros Ht Hn. unfold get_target_indices. simpl.
  rewrite asarray_strings by exact Ht.
  destruct targets as [|t tl]; [congruence|].
  destruct names as [|n nl]; [congruence|]. reflexivity.
Qed.

(** Names listed in table order resolve to their own positions. *)
Lemma collect_indices_in_order (names : list string) (idxs : list Z) (k : Z) :
  NoDup names -> StronglySorted Z.lt idxs ->
  Forall (fun i => k <= i < k + Z.of_nat (List.length names)) idxs ->
  collect_indices names
    (map (fun i => nth (Z.to_nat (i - k)) names EmptyString) idxs) k = idxs.
Proof.
  intros Hn Hs Hr.
  assert (Hsorted := collect_indices_sorted names
    (map (fun i => nth (Z.to_nat (i - k)) names EmptyString) idxs) k).
  revert Hsorted.
  generalize (collect_indices_In names
    (map (fun i => nth (Z.to_nat (i - k)) names EmptyString) idxs) k).
  generalize (collect_indices names
    (map (fun i => nth (Z.to_nat (i - k)) names EmptyString) idxs) k) as out.
  intros out Hin Hout.
  assert (Hsame : forall i, In i out <-> In i idxs).
  { intros i. rewrite Hin. rewrite Forall_forall in Hr. split.
    - intros [Hi Hnth]. apply in_map_iff in Hnth as [j [Hj Hjin]].
      pose proof (Hr j Hjin) as Hjr.
      apply (proj1 (NoDup_nth names EmptyString) Hn) in Hj; [|lia|lia].
      replace i with j by lia. exact Hjin.
    - intros Hi. split; [now apply Hr|].
      apply in_map_iff. now exists i. }
  clear Hin Hr. revert out Hout Hsame.
  induction Hs as [|a l Hl IH Ha]; intros out Hout Hsame.
  - destruct out as [|b out]; [reflexivity|].
    exfalso. apply (Hsame b). now left.
  - destruct out as [|b out].
    + exfalso. apply (Hsame a). now left.
    + inversion Hout as [|? ? Hout' Hb]; subst.
      rewrite Forall_forall in Ha, Hb.
      assert (a = b).
      { destruct (proj2 (Hsame a) (or_introl eq_refl)) as [<- | Hab]; [reflexivity|].
        destruct (proj1 (Hsame b) (or_introl eq_refl)) as [-> | Hba]; [reflexivity|].
        pose proof (Ha _ Hba). pose proof (Hb _ Hab). lia. }
      subst b. f_equal. apply IH; [exact Hout'|].
      intros i. split; intros Hi.
      * destruct (proj1 (Hsame i) (or_intror Hi)) as [<- | H]; [|exact H].
        pose proof (Hb _ Hi). lia.
      * destruct (proj2 (Hsame i) (or_intror Hi)) as [<- | H]; [|exact H].
        pose proof (Ha _ Hi). lia.
Qed.

End TargetsFacts.

(** ** Facts about the target-node search *)

Module ParseModelFacts.
Import ParseModel.

(** With a condition that cannot fail, the search returns the k-th match
    for a positive k and nothing otherwise. *)
Lemma get_node_by_condition_pure (p : Node -> bool) (ops : list Node) (k : Z) :
  get_node_by_condition ops (fun x => Ok (p x)) k =
    Ok (if 0 <? k then nth_error (filter p ops) (Z.to_nat (k - 1)) else None).
Proof.
  revert k. induction ops as [|op rest IH]; intros k; simpl.
  - destruct (0 <? k); [now destruct (Z.to_nat (k - 1)) | reflexivity].
  - destruct (p op) eqn:E; simpl.
    + destruct (Z.eqb_spec (k - 1) 0) as [E0 | NE].
      * replace (0 <? k) with true by (symmetry; apply Z.ltb_lt; lia).
        now replace (Z.to_nat (k - 1)) with 0%nat by lia.
      * rewrite IH. destruct (Z.ltb_spec 0 k) as [Hk | Hk].
        -- replace (0 <? k - 1) with true by (symmetry; apply Z.ltb_lt; lia).
           now replace (Z.to_nat (k - 1)) with (S (Z.to_nat (k - 1 - 1))) by lia.
        -- now replace (0 <? k - 1) with false by (symmetry; apply Z.ltb_ge; lia).
    + apply IH.
Qed.

Lemma get_node_by_condition_ext (c1 c2 : Node -> result bool) (ops : list Node) (k : Z) :
  Forall (fun op => c1 op = c2 op) ops ->
  get_node_by_condition ops c1 k = get_node_by_condition ops c2 k.
Proof.
  intros H. revert k. induction H as [|op rest Hop _ IH]; intros k; simpl; [reflexivity|].
  rewrite Hop. destruct (c2 op) as [[|]|e]; simpl; trivial.
  now rewrite IH.
Qed.

Lemma get_node_by_condition_first (p : Node -> bool) (ops : list Node) :
  get_node_by_condition ops (fun x => Ok (p x)) 1 = Ok (find p ops).
Proof.
  rewrite get_node_by_condition_pure. simpl. f_equal.
  induction ops as [|op rest IH]; simpl; [reflexivity|].
  destruct (p op); [reflexivity | exact IH].
Qed.

Lemma truthy_nonempty (name : string) :
  name <> EmptyString -> truthy (Some name) = Some name.
Proof. destruct name; [congruence | reflexivity]. Qed.

Lemma get_target_node_named_find (model : Model) (name : string) :
  get_target_node_named model name =
    match find (fun x => String.eqb (friendly_name x) name) (rev model) with
    | Some n => Ok n
    | None => Raise (ValueError ("Cannot find " ++ name ++ " node.")%string)
    end.
Proof.
  unfold get_target_node_named. now rewrite get_node_by_condition_first.
Qed.

(** The first match in the reversed order is the last match of the
    topological order. *)
Lemma find_rev_last {A : Type} (p : A -> bool) (l : list A) (x : A) :
  find p (rev l) = Some x <->
  exists l1 l2, l = l1 ++ x :: l2 /\ p x = true /\ Forall (fun y => p y = false) l2.
Proof.
  induction l as [|a l IH] using rev_ind.
  - simpl. split; [discriminate|].
    intros [l1 [l2 [H _]]]. destruct l1; discriminate.
  - rewrite rev_app_distr. simpl. destruct (p a) eqn:E.
    + split.
      * intros [= <-]. exists l, []. repeat split; [exact E | constructor].
      * intros [l1 [l2 [Hl [Hx Hall]]]].
        destruct l2 as [|b l2] using rev_ind.
        -- apply app_inj_tail in Hl as [_ ->]. reflexivity.
        -- clear IHl2. rewrite app_comm_cons, app_assoc in Hl.
           apply app_inj_tail in Hl as [_ ->].
           apply Forall_app in Hall as [_ Hb]. inversion Hb; subst. congruence.
    + rewrite IH. split.
      * intros [l1 [l2 [-> [Hx Hall]]]]. exists l1, (l2 ++ [a]).
        rewrite <- app_assoc. repeat split; trivial.
        apply Forall_app. split; [exact Hall | now constructor].
      * intros [l1 [l2 [Hl [Hx Hall]]]].
        destruct l2 as [|b l2] using rev_ind.
        -- apply app_inj_tail in Hl as [_ ->]. congruence.
        -- clear IHl2. rewrite app_comm_cons, app_assoc in Hl.
           apply app_inj_tail in Hl as [-> ->].
           apply Forall_app in Hall as [Hall _]. now exists l1, l2.
Qed.

Lemma find_rev_none {A : Type} (p : A -> bool) (l : list A) :
  find p (rev l) = None <-> Forall (fun y => p y = false) l.
Proof.
  split.
  - intros H. apply Forall_forall. intros y Hy.
    apply (find_none _ _ H). now apply -> in_rev.
  - intros H. destruct (find p (rev l)) as [x|] eqn:E; [|reflexivity].
    apply find_some in E as [Hin Hp]. apply in_rev in Hin.
    rewrite Forall_forall in H. rewrite (H x Hin) in Hp. discriminate.
Qed.

(** In automatic mode the convolutional fallback cannot succeed:
    [get_post_target_node] is called without the model type. *)
Lemma get_post_target_node_defaults (model : Model) :
  get_post_target_node model None None 0 =
    Raise (RuntimeError
      "Cannot find first head node in auto mode, please explicitly provide input parameters.").
Proof. reflexivity. Qed.

End ParseModelFacts.

(** ** Stacking and unstacking along the first axis *)

Definition Float64_of_Z (z : Z) : spec_float :=
  binary_normalize Float64.prec Float64.emax z 0 false.

Definition buffer_rows (n len : nat) (b : buffer) : list buffer :=
  match b with
  | U8 d => map U8 (rows_of n len d)
  | F32 d => map F32 (rows_of n len d)
  | F64 d => map F64 (rows_of n len d)
  end.

(** Iterating over an array yields its sub-arrays along the first axis. *)
Definition unstack (a : ndarray) : result (list ndarray) :=
  match shape a with
  | [] => Raise (TypeError "iteration over a 0-d array")
  | n :: rest => Ok (map (mk_ndarray rest) (buffer_rows n (numel rest) (data a)))
  end.

(** [a[0]] *)
Definition index0 (a : ndarray) : result ndarray :=
  let* subs := unstack a in
  match subs with
  | [] => Raise (IndexError "index 0 is out of bounds for axis 0 with size 0")
  | x :: _ => Ok x
  end.

Definition buffer_rank (b : buffer) : nat :=
  match b with U8 _ => 0%nat | F32 _ => 1%nat | F64 _ => 2%nat end.

(** Conversion of a buffer to the common dtype of rank [r]. *)
Definition promote (r : nat) (b : buffer) : buffer :=
  match r, b with
  | 1%nat, U8 d => F32 (map Float32.of_Z d)
  | 2%nat, U8 d => F64 (map Float64_of_Z d)
  | 2%nat, F32 d => F64 d
  | _, _ => b
  end.

Definition buffer_app (b1 b2 : buffer) : buffer :=
  match b1, b2 with
  | U8 d1, U8 d2 => U8 (d1 ++ d2)
  | F32 d1, F32 d2 => F32 (d1 ++ d2)
  | F64 d1, F64 d2 => F64 (d1 ++ d2)
  | _, _ => b1
  end.

Definition empty_buffer (r : nat) : buffer :=
  match r with 0%nat => U8 [] | 1%nat => F32 [] | _ => F64 [] end.

Definition shape_eqb (s1 s2 : list nat) : bool :=
  Nat.eqb (List.length s1) (List.length s2)
  && forallb (fun p => Nat.eqb (fst p) (snd p)) (combine s1 s2).

(** [np.array(list_of_arrays)]: arrays of one shape are stacked along a
    new first axis, in their common dtype. *)
Definition stack (l : list ndarray) : result ndarray :=
  match l with
  | [] => Ok (mk_ndarray [0%nat] (F64 []))
  | a :: _ =>
      if forallb (fun x => shape_eqb (shape a) (shape x)) l then
        let r := fold_right Nat.max 0%nat (map (fun x => buffer_rank (data x)) l) in
        Ok (mk_ndarray (List.length l :: shape a)
              (fold_right (fun x acc => buffer_app (promote r (data x)) acc)
                 (empty_buffer r) l))
      else Raise (ValueError
        "setting an array element with a sequence. The requested array has an inhomogeneous shape")
  end.

(** ** The visualizer ([openvino_xai/explainer/visualizer.py]) *)

Module Visualizer.

(** Modelled from the spec: the [Layout] enum and the four layout sets of
    [explainer/explanation.py], which is not among the sources; the spec
    gives the layout as one of single-map-per-image and
    multiple-maps-per-image, each grayscale or color-mapped, and
    [visualizer.py] uses these names. *)
Inductive Layout : Type :=
| ONE_MAP_PER_IMAGE_GRAY
| ONE_MAP_PER_IMAGE_COLOR
| MULTIPLE_MAPS_PER_IMAGE_GRAY
| MULTIPLE_MAPS_PER_IMAGE_COLOR.

Definition Layout_eqb (a b : Layout) : bool :=
  match a, b with
  | ONE_MAP_PER_IMAGE_GRAY, ONE_MAP_PER_IMAGE_GRAY
  | ONE_MAP_PER_IMAGE_COLOR, ONE_MAP_PER_IMAGE_COLOR
  | MULTIPLE_MAPS_PER_IMAGE_GRAY, MULTIPLE_MAPS_PER_IMAGE_GRAY
  | MULTIPLE_MAPS_PER_IMAGE_COLOR, MULTIPLE_MAPS_PER_IMAGE_COLOR => true
  | _, _ => false
  end.

Definition GRAY_LAYOUTS (l : Layout) : bool :=
  match l with
  | ONE_MAP_PER_IMAGE_GRAY | MULTIPLE_MAPS_PER_IMAGE_GRAY => true
  | _ => false
  end.

Definition COLOR_MAPPED_LAYOUTS (l : Layout) : bool :=
  match l with
  | ONE_MAP_PER_IMAGE_COLOR | MULTIPLE_MAPS_PER_IMAGE_COLOR => true
  | _ => false
  end.

Definition ONE_MAP_LAYOUTS (l : Layout) : bool :=
  match l with
  | ONE_MAP_PER_IMAGE_GRAY | ONE_MAP_PER_IMAGE_COLOR => true
  | _ => false
  end.

Definition MULTIPLE_MAP_LAYOUTS (l : Layout) : bool :=
  match l with
  | MULTIPLE_MAPS_PER_IMAGE_GRAY | MULTIPLE_MAPS_PER_IMAGE_COLOR => true
  | _ => false
  end.

(** A key of the saliency-map dictionary: a class index or a name. *)
Inductive key : Type :=
| KInt (z : Z)
| KStr (s : string).

(** The colour variant of a layout. *)
Definition to_color (l : Layout) : Layout :=
  match l with
  | ONE_MAP_PER_IMAGE_GRAY => ONE_MAP_PER_IMAGE_COLOR
  | MULTIPLE_MAPS_PER_IMAGE_GRAY => MULTIPLE_MAPS_PER_IMAGE_COLOR
  | l => l
  end.

(** A layout either stays or moves from grayscale to its colour variant. *)
Definition layout_step (l l' : Layout) : Prop :=
  l' = l \/ (GRAY_LAYOUTS l = true /\ l' = to_color l).

Lemma layout_step_refl (l : Layout) : layout_step l l.
Proof. now left. Qed.

Lemma layout_step_trans (l1 l2 l3 : Layout) :
  layout_step l1 l2 -> layout_step l2 l3 -> layout_step l1 l3.
Proof.
  intros [-> | [G1 ->]] [-> | [G2 ->]]; unfold layout_step; auto.
  destruct l1; discriminate.
Qed.

Lemma layout_step_color (l l' : Layout) :
  COLOR_MAPPED_LAYOUTS l = true -> layout_step l l' -> l' = l.
Proof. intros C [-> | [G _]]; [reflexivity | destruct l; discriminate]. Qed.

Section WithOpenCV.

Variable platform_cast : spec_float -> Z.

(** The [metadata] dictionary of an explanation and the drawing of
    detection boxes on the maps ([cv2.rectangle], [cv2.putText]). *)
Variable metadata_t : Type.
Variable draw_metadata : metadata_t -> ndarray -> list key -> result ndarray.

(** OpenCV's interpolation, colour tables and colour conversion, and the
    blending arithmetic of [overlay]; [transpose_to_bhwc] moves the data of
    a BCHW image. *)
Variable resize : ndarray -> nat * nat -> result ndarray.
Variable cv2_resize : ndarray -> nat * nat -> result ndarray.
Variable applyColorMap : ndarray -> result ndarray.
Variable cvtColor_BGR2RGB : ndarray -> result ndarray.
Variable weight : Type.
Variable overlay : ndarray -> ndarray -> weight -> result ndarray.
Variable transpose_to_bhwc : buffer -> list nat -> buffer.

(** Modelled from the spec: the [Explanation] of
    [explainer/explanation.py], a mapping from target to saliency map with
    a layout tag and optional metadata. *)
Record Explanation : Type := mk_explanation {
  layout : Layout;
  saliency_map : list (key * ndarray);
  metadata : option metadata_t
}.

(** Computations that read and update the explanation they are given and
    may raise; the update made before an exception stays. *)
Definition M (A : Type) : Type := Explanation -> result A * Explanation.

Definition ret {A : Type} (a : A) : M A := fun e => (Ok a, e).

Definition raise {A : Type} (x : exn) : M A := fun e => (Raise x, e).

Definition bindM {A B : Type} (m : M A) (k : A -> M B) : M B :=
  fun e =>
    match m e with
    | (Ok a, e') => k a e'
    | (Raise x, e') => (Raise x, e')
    end.

Definition lift {A : Type} (r : result A) : M A := fun e => (r, e).

Definition get_layout : M Layout := fun e => (Ok (layout e), e).

Definition set_layout (l : Layout) : M unit :=
  fun e => (Ok tt, mk_explanation l (saliency_map e) (metadata e)).

Definition set_saliency_map (d : list (key * ndarray)) : M unit :=
  fun e => (Ok tt, mk_explanation (layout e) d (metadata e)).

Notation "x <- m ;; k" := (bindM m (fun x => k))
  (at level 61, m at next level, right associativity).
Notation "m ;;; k" := (bindM m (fun _ => k))
  (at level 61, right associativity).

(** [is_bhwc_layout] and [format_to_bhwc] of [common/utils.py]. *)
Definition is_bhwc_layout (image : ndarray) : result bool :=
  match shape image with
  | [_; dim0; dim1; dim2] => Ok ((dim2 <? dim0)%nat && (dim2 <? dim1)%nat)
  | _ => Raise (unpack_error 4 (List.length (shape image)))
  end.

Definition format_to_bhwc (image : ndarray) : result ndarray :=
  let image :=
    if Nat.eqb (List.length (shape image)) 3
    then mk_ndarray (1%nat :: shape image) (data image) else image in
  let* bhwc := is_bhwc_layout image in
  if negb bhwc then
    match shape image with
    | [b; c; h; w] =>
        Ok (mk_ndarray [b; h; w; c] (transpose_to_bhwc (data image) (shape image)))
    | _ => Raise (ValueError "axes don't match array")
    end
  else Ok image.

(** [infer_size_from_image] of [common/utils.py]. *)
Definition infer_size_from_image (image : ndarray) : result (nat * nat) :=
  match shape image with
  | [h; w] => Ok (h, w)
  | [dim0; dim1; dim2] | [_; dim0; dim1; dim2] =>
      if (dim2 <? dim0)%nat && (dim2 <? dim1)%nat then Ok (dim0, dim1) else Ok (dim1, dim2)
  | _ => Raise (ValueError "Supports only two, three, and four dimensional image")
  end.

(** [colormap]: every class map is colour-mapped and converted to RGB. *)
Definition colormap (saliency_map : ndarray) : result ndarray :=
  let* class_maps := unstack saliency_map in
  let* color_mapped_saliency_map :=
    Scaling.map_result (fun class_map =>
      let* colormapped := applyColorMap class_map in
      cvtColor_BGR2RGB colormapped) class_maps in
  stack color_mapped_saliency_map.

Definition _apply_scaling (saliency_map_np : ndarray) : M ndarray :=
  l <- get_layout ;;
  if negb (GRAY_LAYOUTS l) then
    raise (ValueError "Saliency map to scale has to be grayscale.")
  else lift (Scaling.scaling platform_cast saliency_map_np).

Definition _apply_resize (saliency_map_np : ndarray)
    (original_input_image : option ndarray) (output_size : option (nat * nat))
    : M ndarray :=
  l <- get_layout ;;
  if negb (GRAY_LAYOUTS l) then
    raise (ValueError "Saliency map to resize has to be grayscale.")
  else
    output_size <-
      match output_size, original_input_image with
      | Some s, _ => ret s
      | None, Some image => lift (infer_size_from_image image)
      | None, None => raise (AttributeError "'NoneType' object has no attribute 'ndim'")
      end ;;
    saliency_map_np <- lift (resize saliency_map_np output_size) ;;
    _apply_scaling saliency_map_np.

Definition _apply_colormap (saliency_map_np : ndarray) : M ndarray :=
  if negb (is_uint8 saliency_map_np) then
    raise (ValueError
      "Colormap requires saliency map to has uint8 dtype. Enable 'scaling' flag for Visualizer.")
  else
    l <- get_layout ;;
    if negb (GRAY_LAYOUTS l) then
      raise (ValueError "Saliency map to colormap has to be grayscale.")
    else
      saliency_map_np <- lift (colormap saliency_map_np) ;;
      l <- get_layout ;;
      (if Layout_eqb l ONE_MAP_PER_IMAGE_GRAY
       then set_layout ONE_MAP_PER_IMAGE_COLOR else ret tt) ;;;
      l <- get_layout ;;
      (if Layout_eqb l MULTIPLE_MAPS_PER_IMAGE_GRAY
       then set_layout MULTIPLE_MAPS_PER_IMAGE_COLOR else ret tt) ;;;
      ret saliency_map_np.

Definition _apply_overlay (saliency_map_np : ndarray)
    (original_input_image : ndarray) (output_size : option (nat * nat))
    (overlay_weight : weight) : M ndarray :=
  l <- get_layout ;;
  if negb (COLOR_MAPPED_LAYOUTS l) then
    raise (RuntimeError "Color mapped saliency map are expected for overlay.")
  else
    original_input_image <-
      match output_size with
      | Some (h, w) =>
          first <- lift (index0 original_input_image) ;;
          resized <- lift (cv2_resize first (w, h)) ;;
          ret (mk_ndarray (1%nat :: shape resized) (data resized))
      | None => ret original_input_image
      end ;;
    lift (overlay saliency_map_np original_input_image overlay_weight).

Definition _apply_metadata (saliency_map_np : ndarray) (indices : list key) : M ndarray :=
  fun e =>
    match metadata e with
    | Some md => lift (draw_metadata md saliency_map_np indices) e
    | None => ret saliency_map_np e
    end.

Definition _update_explanation_with_processed_sal_map (saliency_map_np : ndarray)
    (target_indices : list key) : M unit :=
  l <- get_layout ;;
  if ONE_MAP_LAYOUTS l then
    first <- lift (index0 saliency_map_np) ;;
    set_saliency_map [(KStr "per_image_map", first)]
  else if MULTIPLE_MAP_LAYOUTS l then
    maps <- lift (unstack saliency_map_np) ;;
    set_saliency_map (combine target_indices maps)
  else raise (ValueError "").

(** [Visualizer.visualize]; the explanation is the state. *)
Definition visualize (original_input_image : option ndarray)
    (output_size : option (nat * nat))
    (scaling resize_flag colormap_flag overlay_flag : bool) (overlay_weight : weight)
    : M unit :=
  original_input_image <-
    match original_input_image with
    | Some image => image <- lift (format_to_bhwc image) ;; ret (Some image)
    | None => ret None
    end ;;
  fun e =>
  let saliency_map_dict := saliency_map e in
  let indices_to_return := map fst saliency_map_dict in
  (saliency_map_np <- lift (stack (map snd saliency_map_dict)) ;;
   saliency_map_np <-
     (if scaling && negb resize_flag && negb overlay_flag
      then _apply_scaling saliency_map_np else ret saliency_map_np) ;;
   saliency_map_np <-
     (if overlay_flag then
        match original_input_image with
        | None => raise (ValueError "Input data has to be provided for overlay.")
        | Some image =>
            m <- _apply_resize saliency_map_np original_input_image output_size ;;
            m <- _apply_colormap m ;;
            m <- _apply_overlay m image output_size overlay_weight ;;
            _apply_metadata m indices_to_return
        end
      else
        m <- (if resize_flag then
                match original_input_image, output_size with
                | None, None =>
                    raise (ValueError
                      "Input data or output_size has to be provided for resize (for target size estimation).")
                | _, _ => _apply_resize saliency_map_np original_input_image output_size
                end
              else ret saliency_map_np) ;;
        if colormap_flag then _apply_colormap m else ret m) ;;
   _update_explanation_with_processed_sal_map saliency_map_np indices_to_return) e.


(** *** Layout monotonicity *)


(** A computation keeps the layout monotone when, from every explanation,
    the layout it leaves is a step from the one it found. *)
Definition monotone {A : Type} (m : M A) : Prop :=
  forall e : Explanation, layout_step (layout e) (layout (snd (m e))).

Lemma monotone_ret {A : Type} (a : A) : monotone (ret a).
Proof. intros e. apply layout_step_refl. Qed.

Lemma monotone_raise {A : Type} (x : exn) : monotone (@raise A x).
Proof. intros e. apply layout_step_refl. Qed.

Lemma monotone_lift {A : Type} (r : result A) : monotone (lift r).
Proof. intros e. apply layout_step_refl. Qed.

Lemma monotone_bind {A B : Type} (m : M A) (k : A -> M B) :
  monotone m -> (forall a, monotone (k a)) -> monotone (bindM m k).
Proof.
  intros Hm Hk e. unfold bindM. specialize (Hm e).
  destruct (m e) as [[a | x] e']; simpl in *; [|exact Hm].
  eapply layout_step_trans; [exact Hm | apply Hk].
Qed.

Lemma monotone_get : monotone get_layout.
Proof. intros e. apply layout_step_refl. Qed.

Lemma monotone_set_saliency_map (d : list (key * ndarray)) :
  monotone (set_saliency_map d).
Proof. intros e. apply layout_step_refl. Qed.

Create HintDb monotone.
#[local] Hint Resolve monotone_ret monotone_raise monotone_lift monotone_get
  monotone_set_saliency_map : monotone.

Lemma _apply_colormap_spec (m : ndarray) (e : Explanation) :
  _apply_colormap m e =
    if negb (is_uint8 m) then
      (Raise (ValueError
         "Colormap requires saliency map to has uint8 dtype. Enable 'scaling' flag for Visualizer."), e)
    else if negb (GRAY_LAYOUTS (layout e)) then
      (Raise (ValueError "Saliency map to colormap has to be grayscale."), e)
    else
      match colormap m with
      | Ok m' => (Ok m', mk_explanation (to_color (layout e)) (saliency_map e) (metadata e))
      | Raise x => (Raise x, e)
      end.
Proof.
  unfold _apply_colormap. destruct (is_uint8 m); [|reflexivity]. simpl.
  unfold bindM, get_layout, lift, raise, set_layout, ret.
  destruct e as [l d md]. simpl.
  destruct l; simpl; try reflexivity;
    destruct (colormap m); reflexivity.
Qed.

Lemma monotone_apply_colormap (m : ndarray) :
  monotone (_apply_colormap m).
Proof.
  intros e. rewrite _apply_colormap_spec.
  destruct (negb (is_uint8 m)); [apply layout_step_refl|].
  destruct (GRAY_LAYOUTS (layout e)) eqn:G; simpl; [|apply layout_step_refl].
  destruct (colormap m); simpl;
    [right; auto | apply layout_step_refl].
Qed.

Lemma monotone_apply_scaling (m : ndarray) :
  monotone (_apply_scaling m).
Proof.
  unfold _apply_scaling. apply monotone_bind; auto with monotone.
  intros l. destruct (negb (GRAY_LAYOUTS l)); auto with monotone.
Qed.

Lemma monotone_apply_resize (m : ndarray) (image : option ndarray)
    (output_size : option (nat * nat)) :
  monotone (_apply_resize m image output_size).
Proof.
  unfold _apply_resize. apply monotone_bind; auto with monotone.
  intros l. destruct (negb (GRAY_LAYOUTS l)); auto with monotone.
  apply monotone_bind.
  - destruct output_size, image; auto with monotone.
  - intros s. apply monotone_bind; auto with monotone.
    intros m'. apply monotone_apply_scaling.
Qed.

Lemma monotone_apply_overlay (m image : ndarray) (output_size : option (nat * nat))
    (w : weight) :
  monotone (_apply_overlay m image output_size w).
Proof.
  unfold _apply_overlay. apply monotone_bind; auto with monotone.
  intros l. destruct (negb (COLOR_MAPPED_LAYOUTS l)); auto with monotone.
  apply monotone_bind; auto with monotone.
  destruct output_size as [[h w']|]; auto with monotone.
  repeat (apply monotone_bind; auto with monotone; intros).
Qed.

Lemma monotone_apply_metadata (m : ndarray) (indices : list key) :
  monotone (_apply_metadata m indices).
Proof.
  intros e. unfold _apply_metadata. destruct (metadata e); apply layout_step_refl.
Qed.

Lemma monotone_update (m : ndarray) (indices : list key) :
  monotone (_update_explanation_with_processed_sal_map m indices).
Proof.
  unfold _update_explanation_with_processed_sal_map.
  apply monotone_bind; auto with monotone. intros l.
  destruct (ONE_MAP_LAYOUTS l); [|destruct (MULTIPLE_MAP_LAYOUTS l)];
    repeat (apply monotone_bind; auto with monotone; intros); auto with monotone.
Qed.

#[local] Hint Resolve monotone_apply_colormap monotone_apply_scaling monotone_apply_resize
  monotone_apply_overlay monotone_apply_metadata monotone_update : monotone.

Lemma monotone_visualize (image : option ndarray) (output_size : option (nat * nat))
    (scaling resize_flag colormap_flag overlay_flag : bool) (w : weight) :
  monotone (visualize image output_size scaling resize_flag colormap_flag overlay_flag w).
Proof.
  unfold visualize. apply monotone_bind.
  - destruct image; auto with monotone.
    apply monotone_bind; auto with monotone.
  - intros image' e.
    match goal with |- layout_step _ (layout (snd (?m e))) => assert (H : monotone m) end;
      [|apply H].
    apply monotone_bind; auto with monotone. intros m0.
    apply monotone_bind.
    { destruct (scaling && negb resize_flag && negb overlay_flag); auto with monotone. }
    intros m1. apply monotone_bind; auto with monotone.
    destruct overlay_flag.
    + destruct image'; auto with monotone.
      repeat (apply monotone_bind; auto with monotone; intros).
    + apply monotone_bind.
      * destruct resize_flag; auto with monotone.
        destruct image', output_size; auto with monotone.
      * intros m2. destruct colormap_flag; auto with monotone.
Qed.


(** *** Colormap on a colour layout *)

Lemma format_to_bhwc_raises (image : ndarray) (x : exn) :
  format_to_bhwc image = Raise x -> exists msg, x = ValueError msg.
Proof.
  unfold format_to_bhwc, is_bhwc_layout.
  destruct (Nat.eqb (List.length (shape image)) 3); simpl.
  - destruct (shape image) as [|d1 [|d2 [|d3 [|d4 s]]]]; simpl;
      try (intros [= <-]; eexists; reflexivity).
    destruct ((d3 <? d1)%nat && (d3 <? d2)%nat); simpl; discriminate.
  - destruct (shape image) as [|d1 [|d2 [|d3 [|d4 [|d5 s]]]]]; simpl;
      try (intros [= <-]; eexists; reflexivity).
    destruct ((d4 <? d2)%nat && (d4 <? d3)%nat); simpl; discriminate.
Qed.

Lemma stack_raises (l : list ndarray) (x : exn) :
  stack l = Raise x -> exists msg, x = ValueError msg.
Proof.
  unfold stack. destruct l as [|a l]; [discriminate|].
  destruct (forallb _ _); [discriminate|].
  intros [= <-]. eexists. reflexivity.
Qed.

Lemma _apply_scaling_color (m : ndarray) (e : Explanation) :
  COLOR_MAPPED_LAYOUTS (layout e) = true ->
  exists msg, _apply_scaling m e = (Raise (ValueError msg), e).
Proof.
  intros C. unfold _apply_scaling, bindM, get_layout. simpl.
  destruct (layout e); try discriminate; eexists; reflexivity.
Qed.

Lemma _apply_resize_color (m : ndarray) (image : option ndarray)
    (output_size : option (nat * nat)) (e : Explanation) :
  COLOR_MAPPED_LAYOUTS (layout e) = true ->
  exists msg, _apply_resize m image output_size e = (Raise (ValueError msg), e).
Proof.
  intros C. unfold _apply_resize, bindM, get_layout. simpl.
  destruct (layout e); try discriminate; eexists; reflexivity.
Qed.

Lemma _apply_colormap_color (m : ndarray) (e : Explanation) :
  COLOR_MAPPED_LAYOUTS (layout e) = true ->
  exists msg, _apply_colormap m e = (Raise (ValueError msg), e).
Proof.
  intros C. rewrite _apply_colormap_spec.
  destruct (negb (is_uint8 m)); [eexists; reflexivity|].
  destruct (layout e); try discriminate; eexists; reflexivity.
Qed.

(** Within [visualize], asking for the colormap (or for the overlay, which
    applies it) on an explanation whose layout is already colour raises
    [ValueError]. *)
Lemma visualize_color_raises (image : option ndarray) (output_size : option (nat * nat))
    (scaling resize_flag colormap_flag overlay_flag : bool) (w : weight)
    (e : Explanation) :
  COLOR_MAPPED_LAYOUTS (layout e) = true ->
  colormap_flag || overlay_flag = true ->
  exists msg,
    fst (visualize image output_size scaling resize_flag colormap_flag overlay_flag w e)
    = Raise (ValueError msg).
Proof.
  intros C F. unfold visualize.
  assert (Hpre : forall (image' : option ndarray),
    exists msg,
      fst ((saliency_map_np <- lift (stack (map snd (saliency_map e))) ;;
            saliency_map_np <-
              (if scaling && negb resize_flag && negb overlay_flag
               then _apply_scaling saliency_map_np else ret saliency_map_np) ;;
            saliency_map_np <-
              (if overlay_flag then
                 match image' with
                 | None => raise (ValueError "Input data has to be provided for overlay.")
                 | Some image0 =>
                     m <- _apply_resize saliency_map_np image' output_size ;;
                     m <- _apply_colormap m ;;
                     m <- _apply_overlay m image0 output_size w ;;
                     _apply_metadata m (map fst (saliency_map e))
                 end
               else
                 m <- (if resize_flag then
                         match image', output_size with
                         | None, None =>
                             raise (ValueError
                               "Input data or output_size has to be provided for resize (for target size estimation).")
                         | _, _ => _apply_resize saliency_map_np image' output_size
                         end
                       else ret saliency_map_np) ;;
                 if colormap_flag then _apply_colormap m else ret m) ;;
            _update_explanation_with_processed_sal_map saliency_map_np
              (map fst (saliency_map e))) e)
      = Raise (ValueError msg)).
  { intros image'. unfold bindM at 1. unfold lift at 1.
    destruct (stack (map snd (saliency_map e))) as [m0 | x] eqn:Es.
    2:{ apply stack_raises in Es as [msg ->]. exists msg. reflexivity. }
    unfold bindM at 1.
    destruct (scaling && negb resize_flag && negb overlay_flag).
    { destruct (_apply_scaling_color m0 e C) as [msg ->]. exists msg. reflexivity. }
    unfold ret at 1. unfold bindM at 1.
    destruct overlay_flag.
    - destruct image' as [image0|]; [|eexists; reflexivity].
      unfold bindM at 1.
      destruct (_apply_resize_color m0 (Some image0) output_size e C) as [msg ->].
      exists msg. reflexivity.
    - unfold bindM at 1. destruct resize_flag.
      + destruct image' as [image0|].
        * destruct (_apply_resize_color m0 (Some image0) output_size e C) as [msg ->].
          exists msg. reflexivity.
        * destruct output_size as [sz|]; [|eexists; reflexivity].
          destruct (_apply_resize_color m0 None (Some sz) e C) as [msg ->].
          exists msg. reflexivity.
      + unfold ret at 1. rewrite orb_false_r in F. subst colormap_flag.
        destruct (_apply_colormap_color m0 e C) as [msg ->].
        exists msg. reflexivity. }
  unfold bindM at 1. destruct image as [image0|].
  - unfold bindM at 1. unfold lift at 1.
    destruct (format_to_bhwc image0) as [image1 | x] eqn:Ef.
    + unfold ret at 1. apply (Hpre (Some image1)).
    + apply format_to_bhwc_raises in Ef as [msg ->]. exists msg. reflexivity.
  - unfold ret at 1. apply (Hpre None).
Qed.

(** *** The claim on the colormap *)

(** C8: [_apply_colormap] raises [ValueError] unless the map is uint8 and
    the layout grayscale; when the colour mapping succeeds it moves the
    layout to the colour variant; and within one call of [visualize] the
    layout only ever stays or moves from grayscale to its colour variant,
    a colormap (or an overlay) asked on a colour layout raising
    [ValueError]. *)
Theorem colormap_layout_transition
    (m : ndarray) (e : Explanation)
    (image : option ndarray) (output_size : option (nat * nat))
    (scaling resize_flag colormap_flag overlay_flag : bool) (w : weight) :
  _apply_colormap m e =
    (if negb (is_uint8 m) then
       (Raise (ValueError
          "Colormap requires saliency map to has uint8 dtype. Enable 'scaling' flag for Visualizer."), e)
     else if negb (GRAY_LAYOUTS (layout e)) then
       (Raise (ValueError "Saliency map to colormap has to be grayscale."), e)
     else
       match colormap m with
       | Ok m' => (Ok m', mk_explanation (to_color (layout e)) (saliency_map e) (metadata e))
       | Raise x => (Raise x, e)
       end) /\
  (GRAY_LAYOUTS (layout e) = true ->
   COLOR_MAPPED_LAYOUTS (to_color (layout e)) = true /\
   ONE_MAP_LAYOUTS (to_color (layout e)) = ONE_MAP_LAYOUTS (layout e)) /\
  layout_step (layout e)
    (layout (snd (visualize image output_size scaling resize_flag colormap_flag
                    overlay_flag w e))) /\
  (COLOR_MAPPED_LAYOUTS (layout e) = true ->
   layout (snd (visualize image output_size scaling resize_flag colormap_flag
                  overlay_flag w e)) = layout e /\
   (colormap_flag || overlay_flag = true ->
    exists msg,
      fst (visualize image output_size scaling resize_flag colormap_flag overlay_flag w e)
      = Raise (ValueError msg))).
Proof.
  split; [apply _apply_colormap_spec|]. split; [|split].
  - intros G. destruct (layout e); try discriminate; split; reflexivity.
  - apply monotone_visualize.
  - intros C. split.
    + apply layout_step_color; [exact C | apply monotone_visualize].
    + intros F. now apply visualize_color_raises.
Qed.

End WithOpenCV.
End Visualizer.

(** ** RISE ([openvino_xai/methods/black_box/rise.py]) *)

Module Rise.
Section WithNumpy.

(** Arrays and numpy scalars of the black-box method, the outputs of a
    forward pass, and the operations of numpy and OpenCV the method calls;
    an operation that can raise returns a [result]. *)
Variable tensor : Type.
Variable scalar : Type.
Variable forward_output : Type.
Variable prob_t : Type.

Variable shape_of : tensor -> list nat.
Variable np_ceil_div : nat -> Z -> scalar.
Variable np_uint32_times : Z -> scalar -> Z.
Variable np_less : tensor -> prob_t -> tensor.
Variable astype_float32 : tensor -> tensor.
Variable cv2_resize_cubic : tensor -> Z * Z -> result tensor.
Variable slice2 : tensor -> Z * Z -> Z * Z -> tensor.
Variable np_clip01 : tensor -> tensor.
Variable np_expand_dims2 : tensor -> tensor.
Variable np_mul : tensor -> tensor -> result tensor.
Variable np_take : tensor -> list Z -> result tensor.
Variable reshape_m11 : tensor -> tensor.
Variable np_zeros : nat * nat * nat -> tensor.
Variable np_iadd : tensor -> tensor -> result tensor.
Variable iter_first_axis : tensor -> list tensor.

(** [np.random.Generator]: the generator is a state, every draw returns
    the value drawn and the next state. *)
Variable generator : Type.
Variable default_rng : Z -> generator.
Variable rng_random : Z * Z -> generator -> result (tensor * generator).
Variable rng_integers : Z -> scalar -> generator -> result (Z * generator).

(** The model: a forward pass, the caller's post-processing, the check of
    the scores, and the number of classes ([BlackBoxXAIMethod], whose
    source is not given, runs a forward pass for it). *)
Record model : Type := mk_model {
  model_forward : tensor -> result forward_output;
  postprocess_fn : forward_output -> result tensor;
  check_classification_output : tensor -> result unit;
  get_num_classes : tensor -> result nat
}.

(** Computations that draw from the generator and may raise. *)
Definition G (A : Type) : Type := generator -> result (A * generator).

Definition retG {A : Type} (a : A) : G A := fun g => Ok (a, g).

Definition bindG {A B : Type} (m : G A) (k : A -> G B) : G B :=
  fun g =>
    match m g with
    | Ok (a, g') => k a g'
    | Raise e => Raise e
    end.

Definition liftG {A : Type} (r : result A) : G A :=
  fun g => match r with Ok a => Ok (a, g) | Raise e => Raise e end.

Notation "x <~ m ;; k" := (bindG m (fun x => k))
  (at level 61, m at next level, right associativity).

(** [is_bhwc_layout] of [common/utils.py]. *)
Definition is_bhwc_layout (image : tensor) : result bool :=
  match shape_of image with
  | [_; dim0; dim1; dim2] => Ok ((dim2 <? dim0)%nat && (dim2 <? dim1)%nat)
  | _ => Raise (unpack_error 4 (List.length (shape_of image)))
  end.

(** [RISE._generate_mask] *)
Definition _generate_mask (input_size : nat * nat) (num_cells : Z) (prob : prob_t)
    : G tensor :=
  let cell_size :=
    (np_ceil_div (fst input_size) num_cells, np_ceil_div (snd input_size) num_cells) in
  let up_size :=
    (np_uint32_times (num_cells + 1) (fst cell_size),
     np_uint32_times (num_cells + 1) (snd cell_size)) in
  let grid_size := (num_cells, num_cells) in
  grid <~ rng_random grid_size ;;
  let grid := np_less grid prob in
  let grid := astype_float32 grid in
  x <~ rng_integers 0 (fst cell_size) ;;
  y <~ rng_integers 0 (snd cell_size) ;;
  upsampled_mask <~ liftG (cv2_resize_cubic grid up_size) ;;
  let mask :=
    slice2 upsampled_mask (x, x + Z.of_nat (fst input_size))
      (y, y + Z.of_nat (snd input_size)) in
  let mask := np_clip01 mask in
  retG mask.

(** [RISE._get_scored_mask] *)
Definition _get_scored_mask (raw_scores mask : tensor) (target_classes : option (list Z))
    : result tensor :=
  match target_classes with
  | Some classes =>
      let* taken := np_take raw_scores classes in
      np_mul (reshape_m11 taken) mask
  | None => np_mul (reshape_m11 raw_scores) mask
  end.

(** A dictionary built by a comprehension: a later value replaces an
    earlier one under the same key. *)
Fixpoint dict_set (d : list (Z * tensor)) (k : Z) (v : tensor) : list (Z * tensor) :=
  match d with
  | [] => [(k, v)]
  | (k', v') :: rest => if k' =? k then (k', v) :: rest else (k', v') :: dict_set rest k v
  end.

(** [RISE._reformat_as_dict] *)
Definition _reformat_as_dict (saliency_maps : tensor) (target_classes : list Z)
    : list (Z * tensor) :=
  fold_left (fun d kv => dict_set d (fst kv) (snd kv))
    (combine target_classes (iter_first_axis saliency_maps)) [].

(** What [_run_synchronous_explanation] returns: an array when no target
    class is given, a dictionary otherwise. *)
Inductive saliency : Type :=
| SalArray (a : tensor)
| SalDict (d : list (Z * tensor)).

(** One pass of the loop over the masks. *)
Definition explain_step (m : model) (data_preprocessed : tensor) (bhwc : bool)
    (input_size : nat * nat) (target_classes : option (list Z))
    (num_cells : Z) (prob : prob_t) (saliency_maps : tensor) : G tensor :=
  mask <~ _generate_mask input_size num_cells prob ;;
  masked <~ liftG (if bhwc then np_mul (np_expand_dims2 mask) data_preprocessed
                   else np_mul mask data_preprocessed) ;;
  forward_output <~ liftG (model_forward m masked) ;;
  raw_scores <~ liftG (postprocess_fn m forward_output) ;;
  _ <~ liftG (check_classification_output m raw_scores) ;;
  sal <~ liftG (_get_scored_mask raw_scores mask target_classes) ;;
  liftG (np_iadd saliency_maps sal).

Fixpoint explain_loop (n : nat) (m : model) (data_preprocessed : tensor) (bhwc : bool)
    (input_size : nat * nat) (target_classes : option (list Z))
    (num_cells : Z) (prob : prob_t) (saliency_maps : tensor) : G tensor :=
  match n with
  | O => retG saliency_maps
  | S n' =>
      saliency_maps <~ explain_step m data_preprocessed bhwc input_size target_classes
                         num_cells prob saliency_maps ;;
      explain_loop n' m data_preprocessed bhwc input_size target_classes
        num_cells prob saliency_maps
  end.

(** [RISE._run_synchronous_explanation] *)
Definition _run_synchronous_explanation (m : model) (data_preprocessed : tensor)
    (target_classes : option (list Z)) (num_masks num_cells : Z) (prob : prob_t)
    (seed : Z) : result saliency :=
  let* bhwc := is_bhwc_layout data_preprocessed in
  let* input_size :=
    match shape_of data_preprocessed with
    | [_; d1; d2; d3] => Ok (if bhwc then (d1, d2) else (d2, d3))
    | _ => Raise (IndexError "tuple index out of range")
    end in
  let* num_classes := get_num_classes m data_preprocessed in
  let num_targets :=
    match target_classes with
    | None => num_classes
    | Some classes => List.length classes
    end in
  let rand_generator := default_rng seed in
  let saliency_maps := np_zeros (num_targets, fst input_size, snd input_size) in
  let* (saliency_maps, _) :=
    explain_loop (Z.to_nat num_masks) m data_preprocessed bhwc input_size
      target_classes num_cells prob saliency_maps rand_generator in
  match target_classes with
  | Some classes => Ok (SalDict (_reformat_as_dict saliency_maps classes))
  | None => Ok (SalArray saliency_maps)
  end.

(** *** The masks of a run *)

(** The masks drawn by [n] successive calls of [_generate_mask]. *)
Fixpoint mask_sequence (n : nat) (input_size : nat * nat) (num_cells : Z) (prob : prob_t)
    : G (list tensor) :=
  match n with
  | O => retG []
  | S n' =>
      mask <~ _generate_mask input_size num_cells prob ;;
      masks <~ mask_sequence n' input_size num_cells prob ;;
      retG (mask :: masks)
  end.

(** The scores the model gives to a masked input, and the aggregation of
    the scored masks, without the generator. *)
Definition score_mask (m : model) (data_preprocessed : tensor) (bhwc : bool)
    (target_classes : option (list Z)) (saliency_maps mask : tensor) : result tensor :=
  let* masked := (if bhwc then np_mul (np_expand_dims2 mask) data_preprocessed
                  else np_mul mask data_preprocessed) in
  let* forward_output := model_forward m masked in
  let* raw_scores := postprocess_fn m forward_output in
  let* _ := check_classification_output m raw_scores in
  let* sal := _get_scored_mask raw_scores mask target_classes in
  np_iadd saliency_maps sal.

Fixpoint aggregate (m : model) (data_preprocessed : tensor) (bhwc : bool)
    (target_classes : option (list Z)) (masks : list tensor) (saliency_maps : tensor)
    : result tensor :=
  match masks with
  | [] => Ok saliency_maps
  | mask :: rest =>
      let* saliency_maps :=
        score_mask m data_preprocessed bhwc target_classes saliency_maps mask in
      aggregate m data_preprocessed bhwc target_classes rest saliency_maps
  end.


Definition wrap_saliency (target_classes : option (list Z)) (saliency_maps : tensor)
    : saliency :=
  match target_classes with
  | Some classes => SalDict (_reformat_as_dict saliency_maps classes)
  | None => SalArray saliency_maps
  end.

Definition input_size_of (bhwc : bool) (d1 d2 d3 : nat) : nat * nat :=
  if bhwc then (d1, d2) else (d2, d3).

Definition num_targets_of (target_classes : option (list Z)) (num_classes : nat) : nat :=
  match target_classes with
  | None => num_classes
  | Some classes => List.length classes
  end.

Lemma explain_step_score (m : model) (data_preprocessed : tensor) (bhwc : bool)
    (input_size : nat * nat) (target_classes : option (list Z))
    (num_cells : Z) (prob : prob_t) (saliency_maps : tensor) (g : generator) :
  explain_step m data_preprocessed bhwc input_size target_classes num_cells prob
    saliency_maps g =
  match _generate_mask input_size num_cells prob g with
  | Ok (mask, g') =>
      match score_mask m data_preprocessed bhwc target_classes saliency_maps mask with
      | Ok s => Ok (s, g')
      | Raise e => Raise e
      end
  | Raise e => Raise e
  end.
Proof.
  unfold explain_step, score_mask, bindG at 1.
  destruct (_generate_mask input_size num_cells prob g) as [[mask g'] | e]; [|reflexivity].
  unfold bindG, liftG, bind.
  destruct (if bhwc then _ else _) as [masked | e]; [|reflexivity].
  destruct (model_forward m masked) as [out | e]; [|reflexivity].
  destruct (postprocess_fn m out) as [scores | e]; [|reflexivity].
  destruct (check_classification_output m scores) as [[] | e]; [|reflexivity].
  destruct (_get_scored_mask scores mask target_classes) as [sal | e]; [|reflexivity].
  destruct (np_iadd saliency_maps sal); reflexivity.
Qed.

(** The loop consumes exactly the masks of [mask_sequence], whatever the
    model answers. *)
Lemma explain_loop_aggregate (n : nat) (m : model) (data_preprocessed : tensor)
    (bhwc : bool) (input_size : nat * nat) (target_classes : option (list Z))
    (num_cells : Z) (prob : prob_t) :
  forall (saliency_maps : tensor) (g g' : generator) (masks : list tensor),
  mask_sequence n input_size num_cells prob g = Ok (masks, g') ->
  explain_loop n m data_preprocessed bhwc input_size target_classes num_cells prob
    saliency_maps g =
  match aggregate m data_preprocessed bhwc target_classes masks saliency_maps with
  | Ok s => Ok (s, g')
  | Raise e => Raise e
  end.
Proof.
  induction n as [|n IH]; intros saliency_maps g g' masks Hseq.
  - simpl in Hseq. unfold retG in Hseq. injection Hseq as <- <-. reflexivity.
  - cbn [mask_sequence] in Hseq. unfold bindG in Hseq.
    cbn [explain_loop]. unfold bindG at 1. rewrite explain_step_score.
    destruct (_generate_mask input_size num_cells prob g) as [[mask g1] | e];
      [|discriminate].
    destruct (mask_sequence n input_size num_cells prob g1) as [[rest g2] | e] eqn:Erest;
      [|discriminate].
    unfold retG in Hseq. injection Hseq as <- <-.
    cbn [aggregate]. unfold bind.
    destruct (score_mask m data_preprocessed bhwc target_classes saliency_maps mask)
      as [s | e]; [|reflexivity].
    now apply IH.
Qed.

Lemma aggregate_ext (m1 m2 : model) (data_preprocessed : tensor) (bhwc : bool)
    (target_classes : option (list Z)) (masks : list tensor) :
  (forall mask saliency_maps, In mask masks ->
     score_mask m1 data_preprocessed bhwc target_classes saliency_maps mask =
     score_mask m2 data_preprocessed bhwc target_classes saliency_maps mask) ->
  forall saliency_maps,
    aggregate m1 data_preprocessed bhwc target_classes masks saliency_maps =
    aggregate m2 data_preprocessed bhwc target_classes masks saliency_maps.
Proof.
  induction masks as [|mask rest IH]; intros H saliency_maps; [reflexivity|].
  cbn [aggregate]. rewrite (H mask saliency_maps) by now left.
  destruct (score_mask m2 data_preprocessed bhwc target_classes saliency_maps mask);
    [|reflexivity].
  simpl. apply IH. intros. apply H. now right.
Qed.

(** A run is the aggregation, by the model, of the masks of its seed. *)
Lemma run_as_aggregate (m : model) (data_preprocessed : tensor)
    (target_classes : option (list Z)) (num_masks num_cells : Z) (prob : prob_t)
    (seed : Z) (b d1 d2 d3 : nat) (masks : list tensor) (g' : generator) :
  shape_of data_preprocessed = [b; d1; d2; d3] ->
  let bhwc := ((d3 <? d1)%nat && (d3 <? d2)%nat) in
  mask_sequence (Z.to_nat num_masks) (input_size_of bhwc d1 d2 d3) num_cells prob
    (default_rng seed) = Ok (masks, g') ->
  _run_synchronous_explanation m data_preprocessed target_classes num_masks num_cells
    prob seed =
  let* num_classes := get_num_classes m data_preprocessed in
  let* saliency_maps :=
    aggregate m data_preprocessed bhwc target_classes masks
      (np_zeros (num_targets_of target_classes num_classes,
                 fst (input_size_of bhwc d1 d2 d3), snd (input_size_of bhwc d1 d2 d3))) in
  Ok (wrap_saliency target_classes saliency_maps).
Proof.
  intros Hshape bhwc Hseq.
  unfold _run_synchronous_explanation, is_bhwc_layout. rewrite Hshape.
  cbn [bind]. fold bhwc. fold (input_size_of bhwc d1 d2 d3).
  destruct (get_num_classes m data_preprocessed) as [nc | e]; [|reflexivity].
  cbn [bind]. fold (num_targets_of target_classes nc).
  rewrite (explain_loop_aggregate _ _ _ _ _ _ _ _ _ _ _ _ Hseq).
  destruct (aggregate _ _ _ _ _ _) as [s | e]; [|reflexivity].
  cbn [bind]. destruct target_classes; reflexivity.
Qed.

(** *** The claim on determinism *)

(** C5: the masks of a run are those of [mask_sequence], which are drawn
    from the seed, the number of masks, the number of cells, the
    probability and the input size alone; two runs with these equal, on
    the same image and with models that give the same scores on the
    masked inputs, return the same saliency maps. *)
Theorem rise_same_seed_same_saliency
    (m1 m2 : model) (data_preprocessed : tensor) (target_classes : option (list Z))
    (num_masks num_cells : Z) (prob : prob_t) (seed : Z)
    (b d1 d2 d3 : nat) (masks : list tensor) (g' : generator) :
  shape_of data_preprocessed = [b; d1; d2; d3] ->
  mask_sequence (Z.to_nat num_masks)
    (input_size_of ((d3 <? d1)%nat && (d3 <? d2)%nat) d1 d2 d3) num_cells prob
    (default_rng seed) = Ok (masks, g') ->
  get_num_classes m1 data_preprocessed = get_num_classes m2 data_preprocessed ->
  (forall mask saliency_maps, In mask masks ->
     score_mask m1 data_preprocessed ((d3 <? d1)%nat && (d3 <? d2)%nat) target_classes
       saliency_maps mask =
     score_mask m2 data_preprocessed ((d3 <? d1)%nat && (d3 <? d2)%nat) target_classes
       saliency_maps mask) ->
  _run_synchronous_explanation m1 data_preprocessed target_classes num_masks num_cells
    prob seed =
  _run_synchronous_explanation m2 data_preprocessed target_classes num_masks num_cells
    prob seed /\
  forall m,
    _run_synchronous_explanation m data_preprocessed target_classes num_masks num_cells
      prob seed =
    let* num_classes := get_num_classes m data_preprocessed in
    let* saliency_maps :=
      aggregate m data_preprocessed ((d3 <? d1)%nat && (d3 <? d2)%nat) target_classes masks
        (np_zeros (num_targets_of target_classes num_classes,
                   fst (input_size_of ((d3 <? d1)%nat && (d3 <? d2)%nat) d1 d2 d3),
                   snd (input_size_of ((d3 <? d1)%nat && (d3 <? d2)%nat) d1 d2 d3))) in
    Ok (wrap_saliency target_classes saliency_maps).
Proof.
  intros Hshape Hseq Hnc Hscore. split.
  - rewrite !(run_as_aggregate _ _ _ _ _ _ _ _ _ _ _ _ _ Hshape Hseq).
    rewrite Hnc. destruct (get_num_classes m2 data_preprocessed) as [nc | e]; [|reflexivity].
    cbn [bind]. now rewrite (aggregate_ext m1 m2 _ _ _ _ Hscore).
  - intros m. exact (run_as_aggregate m _ _ _ _ _ _ _ _ _ _ _ _ Hshape Hseq).
Qed.

End WithNumpy.
End Rise.

(** * The claims *)

(** ** Scaling *)

Section ScalingClaims.
Import ScalingFacts.

Lemma scaling_bytes (platform_cast : spec_float -> Z) (s : list nat) (d : list Z) :
  List.length d = numel s -> regular_shape s = true -> byte_row d ->
  Scaling.scaling platform_cast (mk_ndarray s (U8 d)) =
    Ok (mk_ndarray s (U8 (scaled_bytes platform_cast (num_maps s) (map_len s) d))).
Proof.
  intros Hl Hs Hb. unfold Scaling.scaling.
  rewrite scaling_with_regular by assumption. cbn [shape data].
  destruct (regular_shape_numel s Hs) as [Hn Hpos].
  rewrite scaled_values_bytes; [reflexivity | exact (eq_trans Hl Hn) | exact Hpos | exact Hb].
Qed.

Definition f32_zero : spec_float := S754_zero false.

(** 8421505 * 2^-23, a little above 256/255. *)
Definition f32_r : spec_float := S754_finite false 8421505 (-23).

(** 2^-60. *)
Definition f32_tiny : spec_float := S754_finite false 8388608 (-83).

(** C1, as stated, fails: on the float32 map [[0, r], [0, r]] with
    r = 8421505 * 2^-23 the quotient 255 * r / r rounds to 255 - 2^-16, so
    the first scaling gives a maximum of 254 and the second 255. *)
Lemma scaling_not_idempotent_counterexample :
  Scaling.scaling x86_cast (mk_ndarray [2%nat; 2%nat] (F32 [f32_zero; f32_r; f32_zero; f32_r]))
    = Ok (mk_ndarray [2%nat; 2%nat] (U8 [0; 254; 0; 254])) /\
  Scaling.scaling x86_cast (mk_ndarray [2%nat; 2%nat] (U8 [0; 254; 0; 254]))
    = Ok (mk_ndarray [2%nat; 2%nat] (U8 [0; 255; 0; 255])).
Proof. split; vm_compute; reflexivity. Qed.

(** C1 (amended): for every map of a regular shape (2D with no axis of
    length one, or 3D with non-empty maps), whatever its dtype, scaling
    with [cast_to_uint8=True] returns a uint8 array of the same shape with
    all values in [0, 255]; scaling is idempotent on uint8 maps, so from
    its second application on it returns its argument, and on a uint8
    input already the first result is a fixed point. *)
Theorem scaling_uint8_range_and_idempotence
    (platform_cast : spec_float -> Z) (a : ndarray) :
  buffer_length (data a) = numel (shape a) ->
  regular_shape (shape a) = true ->
  exists y y',
    Scaling.scaling platform_cast a = Ok y /\
    shape y = shape a /\
    (exists d, data y = U8 d /\ Forall (fun v => 0 <= v <= 255) d) /\
    Scaling.scaling platform_cast y = Ok y' /\
    Scaling.scaling platform_cast y' = Ok y' /\
    (is_uint8 a = true -> buffer_wf (data a) -> y' = y).
Proof.
  intros Hl Hs.
  destruct (regular_shape_numel (shape a) Hs) as [Hn Hpos].
  set (n := num_maps (shape a)) in *. set (len := map_len (shape a)) in *.
  set (dy := map (Scaling.to_uint8 platform_cast) (scaled_values 255 n len (data a))).
  assert (Hdy_len : List.length dy = numel (shape a)).
  { unfold dy. rewrite length_map, length_scaled_values;
      [symmetry; exact Hn | exact (eq_trans Hl Hn)]. }
  assert (Hdy_b : byte_row dy).
  { unfold dy. apply Forall_map, Forall_forall. intros x _. apply to_uint8_range. }
  exists (mk_ndarray (shape a) (U8 dy)),
         (mk_ndarray (shape a) (U8 (scaled_bytes platform_cast n len dy))).
  split; [|split; [|split; [|split; [|split]]]].
  - unfold Scaling.scaling. now rewrite scaling_with_regular.
  - reflexivity.
  - exists dy. split; [reflexivity | exact Hdy_b].
  - now apply scaling_bytes.
  - rewrite scaling_bytes; trivial.
    + fold n len. rewrite scaled_bytes_idempotent; trivial.
      exact (eq_trans Hdy_len Hn).
    + rewrite scaled_bytes_length; [symmetry; exact Hn | exact (eq_trans Hdy_len Hn)].
    + apply scaled_bytes_range.
  - intros Hu Hwf. destruct a as [s [d | d | d]]; try discriminate.
    cbn [shape data] in *. f_equal. f_equal.
    assert (E : dy = scaled_bytes platform_cast n len d).
    { unfold dy. apply scaled_values_bytes;
        [exact (eq_trans Hl Hn) | exact Hpos | exact Hwf]. }
    rewrite E. apply scaled_bytes_idempotent; [exact (eq_trans Hl Hn) | exact Hwf].
Qed.

Lemma scaling_uint8_range_and_idempotence_witness :
  exists y y',
    Scaling.scaling x86_cast
      (mk_ndarray [2%nat; 2%nat] (F32 [f32_zero; f32_r; f32_zero; f32_r])) = Ok y /\
    shape y = [2%nat; 2%nat] /\
    (exists d, data y = U8 d /\ Forall (fun v => 0 <= v <= 255) d) /\
    Scaling.scaling x86_cast y = Ok y' /\
    Scaling.scaling x86_cast y' = Ok y' /\
    (is_uint8 (mk_ndarray [2%nat; 2%nat] (F32 [f32_zero; f32_r; f32_zero; f32_r])) = true ->
     buffer_wf (F32 [f32_zero; f32_r; f32_zero; f32_r]) -> y' = y).
Proof.
  apply (scaling_uint8_range_and_idempotence x86_cast
           (mk_ndarray [2%nat; 2%nat] (F32 [f32_zero; f32_r; f32_zero; f32_r])));
    reflexivity.
Defined.

(** C2, as stated, fails: the map [[0, 2^-60], [0, 2^-60]] is not constant,
    yet its range is so far below the epsilon 1e-12 of the denominator
    that every value scales to 0. *)
Lemma scaling_tiny_range_counterexample :
  Scaling.scaling x86_cast
    (mk_ndarray [2%nat; 2%nat] (F32 [f32_zero; f32_tiny; f32_zero; f32_tiny]))
    = Ok (mk_ndarray [2%nat; 2%nat] (U8 [0; 0; 0; 0])) /\
  Float32.ltb f32_zero f32_tiny = true /\
  zmax [0; 0; 0; 0] <> 254 /\ zmax [0; 0; 0; 0] <> 255.
Proof. repeat split; vm_compute; try reflexivity; discriminate. Qed.

(** C10: [np.squeeze] removes every axis of length one, so a 2D map with
    a single row comes back with one axis. *)
Theorem scaling_single_row_loses_an_axis :
  Scaling.scaling x86_cast (mk_ndarray [1%nat; 2%nat] (U8 [0; 255]))
    = Ok (mk_ndarray [2%nat] (U8 [0; 255])) /\
  Scaling.scaling x86_cast (mk_ndarray [2%nat] (U8 [0; 255]))
    = Raise (ValueError "not enough values to unpack (expected 3, got 1)").
Proof. split; vm_compute; reflexivity. Qed.

End ScalingClaims.

(** ** Target resolution *)

Section TargetClaims.
Import Targets TargetsFacts.

(** C6, as stated, fails: names given out of table order resolve to the
    ascending indices, not to the indices in the order of the names. *)
Lemma get_target_indices_order_counterexample :
  get_target_indices (Seq [TStr "person"; TStr "dog"]) (Some ["dog"; "person"]%string)
  <> get_target_indices (Seq [TInt 1; TInt 0]) (Some ["dog"; "person"]%string).
Proof. vm_compute. discriminate. Qed.

(** C6 (amended): over a table without repeated labels, names listed in
    table order resolve to the same index list as the corresponding
    integer targets, and a list holding a name that is not in the table
    raises [ValueError]. *)
Theorem get_target_indices_names_as_indices
    (names : list string) (idxs : list Z) (targets : list string) (s : string) :
  NoDup names ->
  idxs <> [] -> StronglySorted Z.lt idxs ->
  Forall (fun i => 0 <= i < Z.of_nat (List.length names)) idxs ->
  In s targets -> ~ In s names ->
  get_target_indices
    (Seq (map (fun i => TStr (nth (Z.to_nat i) names EmptyString)) idxs)) (Some names)
  = get_target_indices (Seq (map TInt idxs)) (Some names)
  /\ get_target_indices (Seq (map TInt idxs)) (Some names) = Ok idxs
  /\ exists msg,
       get_target_indices (Seq (map TStr targets)) (Some names) = Raise (ValueError msg).
Proof.
  intros Hn Hne Hs Hr Hin Hnin.
  assert (Hint : get_target_indices (Seq (map TInt idxs)) (Some names) = Ok idxs).
  { unfold get_target_indices. simpl. rewrite asarray_ints.
    destruct idxs; [congruence | reflexivity]. }
  split; [|split; [exact Hint|]].
  - rewrite Hint.
    assert (Hnames : names <> []).
    { destruct names; [|discriminate]. destruct idxs as [|i tl]; [congruence|].
      inversion Hr; subst. simpl in *. lia. }
    rewrite <- (map_map (fun i => nth (Z.to_nat i) names EmptyString) TStr).
    rewrite get_target_indices_strings; [|now destruct idxs|exact Hnames].
    pose proof (collect_indices_in_order names idxs 0 Hn Hs) as E.
    rewrite (map_ext _ (fun i => nth (Z.to_nat i) names EmptyString)) in E
      by (intros; now rewrite Z.sub_0_r).
    rewrite E by exact Hr.
    now rewrite length_map, Nat.eqb_refl.
  - destruct names as [|n nl].
    + eexists. unfold get_target_indices. simpl.
      rewrite asarray_strings by (destruct targets; [contradiction | discriminate]).
      destruct targets; [contradiction | reflexivity].
    + eexists. rewrite get_target_indices_strings;
        [|destruct targets; [contradiction | discriminate] | discriminate].
      rewrite collect_indices_length.
      pose proof (unmatched_length (n :: nl) targets s Hn Hin Hnin) as Hlt.
      destruct (Nat.eqb_spec (List.length targets)
                  (List.length (filter (contains targets) (n :: nl)))); [lia | reflexivity].
Qed.

Lemma get_target_indices_names_as_indices_witness :
  get_target_indices
    (Seq (map (fun i => TStr (nth (Z.to_nat i) ["cat"; "dog"; "person"]%string EmptyString))
              [1; 2]))
    (Some ["cat"; "dog"; "person"]%string)
  = get_target_indices (Seq (map TInt [1; 2])) (Some ["cat"; "dog"; "person"]%string)
  /\ get_target_indices (Seq (map TInt [1; 2])) (Some ["cat"; "dog"; "person"]%string)
     = Ok [1; 2]
  /\ exists msg,
       get_target_indices (Seq (map TStr ["dog"; "bicycle_"]%string))
         (Some ["cat"; "dog"; "person"]%string) = Raise (ValueError msg).
Proof.
  apply (get_target_indices_names_as_indices
           ["cat"; "dog"; "person"]%string [1; 2] ["dog"; "bicycle_"]%string "bicycle_"%string).
  - repeat constructor; simpl; intuition discriminate.
  - discriminate.
  - repeat constructor.
  - repeat constructor; simpl; lia.
  - simpl. auto.
  - simpl. intuition discriminate.
Defined.

(** The five values on which the sentinel test succeeds. *)
Definition selects_all (targets : py_targets) : Prop :=
  targets = PyInt (-1) \/ targets = PyList [TInt (-1)] \/
  targets = NdArray (IntArray [-1]) \/ targets = PyStr "-1" \/
  targets = NdArray2 [(-1, [])].

(** A two-dimensional array of one row with two entries or more. *)
Definition one_long_row (targets : py_targets) : Prop :=
  exists z1 z2 row, targets = NdArray2 [(z1, z2 :: row)].

Lemma explains_all_cases (targets : py_targets) :
  (explains_all targets = Ok true /\ selects_all targets) \/
  (explains_all targets = Ok false /\ ~ selects_all targets /\ ~ one_long_row targets) \/
  ((exists msg, explains_all targets = Raise (ValueError msg)) /\ one_long_row targets).
Proof.
  unfold selects_all, one_long_row.
  assert (Hno : forall t : py_targets,
            (forall z, t <> PyInt z) -> (forall s, t <> PyStr s) ->
            (forall z, t <> PyList [TInt z]) -> (forall z, t <> NdArray (IntArray [z])) ->
            (forall r, t <> NdArray2 [r]) ->
            ~ (t = PyInt (-1) \/ t = PyList [TInt (-1)] \/ t = NdArray (IntArray [-1]) \/
               t = PyStr "-1" \/ t = NdArray2 [(-1, [])]) /\
            ~ (exists z1 z2 row, t = NdArray2 [(z1, z2 :: row)])).
  { intros t H1 H2 H3 H4 H5. split.
    - intros [E | [E | [E | [E | E]]]];
        [apply (H1 _ E) | apply (H3 _ E) | apply (H4 _ E) | apply (H2 _ E) | apply (H5 _ E)].
    - intros [z1 [z2 [row E]]]. apply (H5 _ E). }
  destruct targets as [z | s | z | [|[z | s] [|t l]] | [|r [|r' rows]]
                      | [[|z [|z' l]] | [|s [|s' l]]]
                      | [|[z [|z' r]] [|r' rows]]];
    try (right; left; split; [reflexivity | apply Hno; intros; discriminate]).
  - cbv [explains_all isinstance_int andb].
    destruct (Z.eqb_spec z (-1)) as [-> | NE].
    + left. split; [reflexivity | now left].
    + right. left. split; [reflexivity|]. split.
      * intros [E | [E | [E | [E | E]]]]; try discriminate E. congruence.
      * intros [z1 [z2 [row E]]]. discriminate E.
  - cbv [explains_all isinstance_int isinstance_str isinstance_ndarray_or_list andb bind].
    destruct (String.eqb_spec s "-1") as [-> | NE].
    + left. split; [reflexivity | auto 6].
    + right. left. split; [reflexivity|]. split.
      * intros [E | [E | [E | [E | E]]]]; try discriminate E. congruence.
      * intros [z1 [z2 [row E]]]. discriminate E.
  - cbv [explains_all isinstance_int isinstance_str isinstance_ndarray_or_list len
         first_is_minus_one bind andb Nat.eqb List.length].
    destruct (Z.eqb_spec z (-1)) as [-> | NE].
    + left. split; [reflexivity | auto].
    + right. left. split; [reflexivity|]. split.
      * intros [E | [E | [E | [E | E]]]]; try discriminate E. congruence.
      * intros [z1 [z2 [row E]]]. discriminate E.
  - cbv [explains_all isinstance_int isinstance_str isinstance_ndarray_or_list len
         first_is_minus_one bind andb Nat.eqb List.length].
    destruct (Z.eqb_spec z (-1)) as [-> | NE].
    + left. split; [reflexivity | auto 6].
    + right. left. split; [reflexivity|]. split.
      * intros [E | [E | [E | [E | E]]]]; try discriminate E. congruence.
      * intros [z1 [z2 [row E]]]. discriminate E.
  - cbv [explains_all isinstance_int isinstance_str isinstance_ndarray_or_list len
         first_is_minus_one bind andb Nat.eqb List.length].
    destruct (Z.eqb_spec z (-1)) as [-> | NE].
    + left. split; [reflexivity | auto 6].
    + right. left. split; [reflexivity|]. split.
      * intros [E | [E | [E | [E | E]]]]; try discriminate E. congruence.
      * intros [z1 [z2 [row E]]]. discriminate E.
  - right. right. split; [eexists; reflexivity | eauto].
Qed.

(** C7, as stated, fails: a two-dimensional array whose only entry is -1
    is none of the three spellings, and [explains_all] returns [True] on
    it. *)
Lemma explains_all_2d_array_counterexample :
  explains_all (NdArray2 [(-1, [])]) = Ok true /\
  NdArray2 [(-1, [])] <> PyInt (-1) /\
  NdArray2 [(-1, [])] <> PyList [TInt (-1)] /\
  NdArray2 [(-1, [])] <> NdArray (IntArray [-1]) /\
  NdArray2 [(-1, [])] <> PyStr "-1".
Proof. repeat split; (reflexivity || discriminate). Qed.

(** C7 (amended): among Python integers and strings, NumPy integer
    scalars, lists of [int | str] or of such lists, one-dimensional arrays
    of integers or strings and two-dimensional integer arrays,
    [explains_all] returns [True] exactly for the Python integer -1, a
    list or one-dimensional array whose only element is the integer -1,
    the string "-1", and a two-dimensional array whose only entry is -1;
    it raises [ValueError] exactly for a two-dimensional array of one row
    with two entries or more; on every other value it returns [False]. *)
Theorem explains_all_spellings (targets : py_targets) :
  (explains_all targets = Ok true <-> selects_all targets) /\
  ((exists msg, explains_all targets = Raise (ValueError msg)) <-> one_long_row targets) /\
  (explains_all targets = Ok false <-> ~ selects_all targets /\ ~ one_long_row targets).
Proof.
  destruct (explains_all_cases targets)
    as [[E Hs] | [[E [Hs Hr]] | [[msg E] Hr]]]; rewrite E.
  - split; [tauto|]. split; [split; [intros [m H]; discriminate H | intros H]|].
    + exfalso. destruct H as [z1 [z2 [row ->]]].
      destruct Hs as [H | [H | [H | [H | H]]]]; discriminate H.
    + split; [intros H; discriminate H | tauto].
  - split; [split; [intros H; discriminate H | tauto]|].
    split; [split; [intros [m H]; discriminate H | tauto]|]. tauto.
  - assert (Hs : ~ selects_all targets).
    { destruct Hr as [z1 [z2 [row ->]]].
      intros [H | [H | [H | [H | H]]]]; discriminate H. }
    split; [split; [intros H; discriminate H | tauto]|].
    split; [split; [intros _; exact Hr | intros _; eauto]|].
    split; [intros H; discriminate H | tauto].
Qed.

(** C9, as stated, fails: a label that occurs twice in [label_names] is
    matched at both positions, and the length test then raises. *)
Lemma get_target_indices_repeated_label_counterexample :
  ~ exists idx,
      get_target_indices (Seq [TStr "crane"]) (Some ["crane"; "crane"]%string) = Ok idx.
Proof. intros [idx H]. vm_compute in H. discriminate. Qed.

(** C9 (amended): over a table without repeated labels, distinct string
    targets that all occur in the table resolve to the positions of the
    matched labels in ascending order, whatever the order in which the
    targets are given. *)
Theorem get_target_indices_ascending_any_order
    (names targets targets' : list string) :
  NoDup names -> NoDup targets -> targets <> [] -> incl targets names ->
  Permutation targets targets' ->
  exists idx,
    get_target_indices (Seq (map TStr targets)) (Some names) = Ok idx /\
    get_target_indices (Seq (map TStr targets')) (Some names) = Ok idx /\
    StronglySorted Z.lt idx /\
    List.length idx = List.length targets /\
    forall i, In i idx <->
      0 <= i < Z.of_nat (List.length names) /\
      In (nth (Z.to_nat i) names EmptyString) targets.
Proof.
  intros Hn Ht Hne Hincl Hperm.
  assert (Hnames : names <> []).
  { destruct names; [|discriminate]. destruct targets as [|t tl]; [congruence|].
    exfalso. apply (Hincl t). now left. }
  assert (Hlen : List.length (collect_indices names targets 0) = List.length targets).
  { rewrite collect_indices_length. now apply matched_length. }
  assert (Hext : collect_indices names targets' 0 = collect_indices names targets 0).
  { apply collect_indices_ext. intros label _.
    apply eq_true_iff_eq. rewrite !contains_In. split; intros H.
    - eapply Permutation_in; [apply Permutation_sym; exact Hperm | exact H].
    - eapply Permutation_in; [exact Hperm | exact H]. }
  exists (collect_indices names targets 0).
  split; [|split; [|split; [|split]]].
  - rewrite get_target_indices_strings by assumption.
    now rewrite Hlen, Nat.eqb_refl.
  - rewrite get_target_indices_strings; [|
      intros ->; apply Permutation_sym, Permutation_nil in Hperm; congruence | exact Hnames].
    rewrite Hext, Hlen, <- (Permutation_length Hperm). now rewrite Nat.eqb_refl.
  - apply collect_indices_sorted.
  - exact Hlen.
  - intros i. rewrite collect_indices_In, Z.sub_0_r. simpl. reflexivity.
Qed.

Lemma get_target_indices_ascending_any_order_witness :
  exists idx,
    get_target_indices (Seq (map TStr ["person"; "dog"]%string))
      (Some ["cat"; "dog"; "person"]%string) = Ok idx /\
    get_target_indices (Seq (map TStr ["dog"; "person"]%string))
      (Some ["cat"; "dog"; "person"]%string) = Ok idx /\
    StronglySorted Z.lt idx /\
    List.length idx = List.length ["person"; "dog"]%string /\
    forall i, In i idx <->
      0 <= i < Z.of_nat (List.length ["cat"; "dog"; "person"]%string) /\
      In (nth (Z.to_nat i) ["cat"; "dog"; "person"]%string EmptyString)
         ["person"; "dog"]%string.
Proof.
  apply (get_target_indices_ascending_any_order
           ["cat"; "dog"; "person"]%string ["person"; "dog"]%string ["dog"; "person"]%string).
  - repeat constructor; simpl; intuition discriminate.
  - repeat constructor; simpl; intuition discriminate.
  - discriminate.
  - intros x [<- | [<- | []]]; simpl; auto.
  - apply perm_swap.
Defined.

End TargetClaims.

(** ** Target-node search *)

Section ParseModelClaims.
Import ParseModel ParseModelFacts.

(** The spec's error taxonomy: [ResolutionError] is the failure of the
    automatic search ("cannot find target node automatically; provide an
    explicit name"), which the code raises as a [RuntimeError], and it is
    kept apart from [ValueError], the violation of an input contract. *)
Definition spec_ResolutionError (e : exn) : bool :=
  match e with
  | RuntimeError _ => true
  | _ => false
  end.

(** A feature map of 7x7 with 4 channels, followed by a global pooling
    that reads it. *)
Definition backbone_relu : Node :=
  mk_node 0 "backbone/relu" "Relu" [[Some 1; Some 4; Some 7; Some 7]] [].

Definition global_pool : Node :=
  mk_node 1 "GlobalAveragePool" "ReduceMean" [[Some 1; Some 4; Some 1; Some 1]]
    [mk_input [Some 1; Some 4; Some 7; Some 7] 0 0].

(** C3: on a convolutional model in which no node has 1 < H, W < C, the
    last pooling node without spatial extent reads a node with spatial
    extent, which the claim says is returned; the code raises instead,
    because [get_post_target_node] is called without the model type. *)
Theorem get_target_node_cnn_fallback_raises :
  get_node_by_condition (rev [backbone_relu; global_pool])
    _is_op_w_single_spacial_output 1 = Ok None /\
  get_node_by_condition (rev [backbone_relu; global_pool])
    _is_pooling_node_wo_spacial_size 1 = Ok (Some global_pool) /\
  (let* port := input global_pool 0 in
   get_source_node [backbone_relu; global_pool] port) = Ok backbone_relu /\
  _has_spacial_size backbone_relu = Ok true /\
  get_target_node [backbone_relu; global_pool] (Some CNN) None 1 =
    Raise (RuntimeError
      "Cannot find first head node in auto mode, please explicitly provide input parameters.").
Proof. repeat split; vm_compute; reflexivity. Qed.

(** C4, as stated, fails: when no node has the given name the code raises
    [ValueError], not the error of the automatic search. *)
Lemma get_target_node_missing_name_counterexample :
  get_target_node [backbone_relu; global_pool] (Some CNN) (Some "conv5"%string) 1
    = Raise (ValueError "Cannot find conv5 node.") /\
  spec_ResolutionError (ValueError "Cannot find conv5 node.") = false.
Proof. split; vm_compute; reflexivity. Qed.

(** C4 (amended): with a non-empty target node name, [get_target_node]
    returns the node of that exact name that comes first in reverse
    topological order (the last one of the model), whatever the model type
    and the rank k, and raises [ValueError] ("Cannot find <name> node.")
    exactly when no node has that name. *)
Theorem get_target_node_explicit_name
    (model : Model) (model_type : option ModelType) (name : string) (k : Z) :
  name <> EmptyString ->
  (forall n,
     get_target_node model model_type (Some name) k = Ok n <->
     exists l1 l2,
       model = l1 ++ n :: l2 /\ friendly_name n = name /\
       Forall (fun x => friendly_name x <> name) l2) /\
  (get_target_node model model_type (Some name) k =
     Raise (ValueError ("Cannot find " ++ name ++ " node.")%string) <->
   Forall (fun x => friendly_name x <> name) model) /\
  ((exists n, get_target_node model model_type (Some name) k = Ok n) \/
   get_target_node model model_type (Some name) k =
     Raise (ValueError ("Cannot find " ++ name ++ " node.")%string)).
Proof.
  intros Hname. unfold get_target_node. rewrite truthy_nonempty by exact Hname.
  rewrite get_target_node_named_find.
  set (p := fun x => String.eqb (friendly_name x) name).
  assert (Hp : forall l, Forall (fun y => p y = false) l <->
                         Forall (fun x => friendly_name x <> name) l).
  { intros l. split; intros H; (eapply Forall_impl; [|exact H]); intros x Hx; unfold p in *.
    - now apply String.eqb_neq.
    - now apply String.eqb_neq. }
  split; [|split].
  - intros n. destruct (find p (rev model)) as [x|] eqn:E.
    + split.
      * intros [= <-]. apply find_rev_last in E as [l1 [l2 [Hm [Hx Hl2]]]].
        exists l1, l2. repeat split; trivial.
        -- now apply String.eqb_eq.
        -- now apply Hp.
      * intros [l1 [l2 [Hm [Hn Hl2]]]]. f_equal.
        assert (E' : find p (rev model) = Some n).
        { apply find_rev_last. exists l1, l2. repeat split; trivial.
          - unfold p. now apply String.eqb_eq.
          - now apply Hp. }
        congruence.
    + split; [discriminate|].
      intros [l1 [l2 [Hm [Hn Hl2]]]]. exfalso.
      apply find_rev_none in E. rewrite Forall_forall in E.
      assert (Hin : In n model) by (rewrite Hm; apply in_elt).
      specialize (E n Hin). unfold p in E. apply String.eqb_neq in E. contradiction.
  - destruct (find p (rev model)) as [x|] eqn:E.
    + split; [discriminate|]. intros H. apply Hp, find_rev_none in H. congruence.
    + split; [|reflexivity]. intros _. now apply Hp, find_rev_none.
  - destruct (find p (rev model)); [left; eexists; reflexivity | now right].
Qed.

Lemma get_target_node_explicit_name_witness :
  (forall n,
     get_target_node [backbone_relu; global_pool] (Some CNN) (Some "backbone/relu"%string) 3
       = Ok n <->
     exists l1 l2,
       [backbone_relu; global_pool] = l1 ++ n :: l2 /\
       friendly_name n = "backbone/relu"%string /\
       Forall (fun x => friendly_name x <> "backbone/relu"%string) l2) /\
  (get_target_node [backbone_relu; global_pool] (Some CNN) (Some "backbone/relu"%string) 3 =
     Raise (ValueError ("Cannot find " ++ "backbone/relu" ++ " node.")%string) <->
   Forall (fun x => friendly_name x <> "backbone/relu"%string) [backbone_relu; global_pool]) /\
  ((exists n,
      get_target_node [backbone_relu; global_pool] (Some CNN) (Some "backbone/relu"%string) 3
        = Ok n) \/
   get_target_node [backbone_relu; global_pool] (Some CNN) (Some "backbone/relu"%string) 3 =
     Raise (ValueError ("Cannot find " ++ "backbone/relu" ++ " node.")%string)).
Proof.
  apply (get_target_node_explicit_name [backbone_relu; global_pool] (Some CNN)
           "backbone/relu"%string 3).
  discriminate.
Defined.

End ParseModelClaims.

(** ** RISE determinism on a small interpretation *)

Module RiseExample.

(** A toy interpretation: a tensor is summarised by one integer, the
    generator is a linear congruential one. *)
Definition next (g : Z) : Z := (1103515245 * g + 12345) mod 2 ^ 31.

Definition toy_random (_ : Z * Z) (g : Z) : result (Z * Z) := Ok (g mod 100, next g).

Definition toy_integers (low high g : Z) : result (Z * Z) :=
  if high <=? low then Raise (ValueError "high <= low") else Ok (low + g mod (high - low), next g).

Definition toy_ceil_div (h : nat) (n : Z) : Z := (Z.of_nat h + n - 1) / n.

Definition toy_slice (t : Z) (rows cols : Z * Z) : Z := t + 10 * fst rows + 100 * fst cols.

Definition toy_generate_mask : nat * nat -> Z -> Z -> Rise.G Z Z :=
  Rise._generate_mask Z Z Z toy_ceil_div Z.mul (fun t p => if t <? p then 1 else 0)
    (fun t => t) (fun t _ => Ok t) toy_slice (fun t => t) Z toy_random toy_integers.

Definition toy_mask_sequence : nat -> nat * nat -> Z -> Z -> Rise.G Z (list Z) :=
  Rise.mask_sequence Z Z Z toy_ceil_div Z.mul (fun t p => if t <? p then 1 else 0)
    (fun t => t) (fun t _ => Ok t) toy_slice (fun t => t) Z toy_random toy_integers.

Definition toy_run : Rise.model Z Z -> Z -> option (list Z) -> Z -> Z -> Z -> Z ->
    result (Rise.saliency Z) :=
  Rise._run_synchronous_explanation Z Z Z Z (fun _ => [1; 3; 4; 4]%nat)
    toy_ceil_div Z.mul (fun t p => if t <? p then 1 else 0)
    (fun t => t) (fun t _ => Ok t) toy_slice (fun t => t) (fun t => t)
    (fun a b => Ok (a * b)) (fun t _ => Ok t) (fun t => t) (fun _ => 0)
    (fun a b => Ok (a + b)) (fun t => [t]) Z (fun seed => seed) toy_random toy_integers.

(** Two models that give the same scores except on an input no mask of
    the run produces. *)
Definition toy_model1 : Rise.model Z Z :=
  Rise.mk_model Z Z (fun x => Ok (2 * x)) (fun o => Ok (o + 1)) (fun _ => Ok tt)
    (fun _ => Ok 3%nat).

Definition toy_model2 : Rise.model Z Z :=
  Rise.mk_model Z Z (fun x => Ok (if x =? 123456789 then 0 else 2 * x))
    (fun o => Ok (o + 1)) (fun _ => Ok tt) (fun _ => Ok 3%nat).

Definition toy_score_mask : Rise.model Z Z -> Z -> bool -> option (list Z) -> Z -> Z -> result Z :=
  Rise.score_mask Z Z (fun t => t) (fun a b => Ok (a * b)) (fun t _ => Ok t) (fun t => t)
    (fun a b => Ok (a + b)).

Definition toy_aggregate : Rise.model Z Z -> Z -> bool -> option (list Z) -> list Z -> Z ->
    result Z :=
  Rise.aggregate Z Z (fun t => t) (fun a b => Ok (a * b)) (fun t _ => Ok t) (fun t => t)
    (fun a b => Ok (a + b)).

Lemma rise_same_seed_same_saliency_witness :
  toy_run toy_model1 5 None 2 2 50 7 = toy_run toy_model2 5 None 2 2 50 7 /\
  forall m,
    toy_run m 5 None 2 2 50 7 =
    let* num_classes := Rise.get_num_classes Z Z m 5 in
    let* saliency_maps :=
      toy_aggregate m 5 false None [101; 11] 0 in
    Ok (Rise.wrap_saliency Z (fun t => [t]) None saliency_maps).
Proof.
  apply (Rise.rise_same_seed_same_saliency Z Z Z Z (fun _ => [1; 3; 4; 4]%nat)
           toy_ceil_div Z.mul (fun t p => if t <? p then 1 else 0)
           (fun t => t) (fun t _ => Ok t) toy_slice (fun t => t) (fun t => t)
           (fun a b => Ok (a * b)) (fun t _ => Ok t) (fun t => t) (fun _ => 0)
           (fun a b => Ok (a + b)) (fun t => [t]) Z (fun seed => seed)
           toy_random toy_integers
           toy_model1 toy_model2 5 None 2 2 50 7 1%nat 3%nat 4%nat 4%nat
           [101; 11] 220562521).
  - reflexivity.
  - vm_compute. reflexivity.
  - reflexivity.
  - intros mask saliency_maps [<- | [<- | []]]; reflexivity.
Defined.

End RiseExample.

(** ** Scaling fills the range *)

Section ScalingRangeClaims.
Import ScalingFacts.

(** C2 (amended): in a map, of any dtype, whose range max - min as float32
    computes it is a number r with 2^-31 <= r <= 2^120 (the epsilon 1e-12
    is then below r / 254, and 255 * r does not overflow), the scaled map
    has minimum 0 and maximum 254 or 255. *)
Theorem scaling_wide_range_fills
    (platform_cast : spec_float -> Z) (a : ndarray) (i : nat) :
  buffer_length (data a) = numel (shape a) ->
  regular_shape (shape a) = true ->
  (i < num_maps (shape a))%nat ->
  Rounding.ample
    (Float32.sub
       (row_max (nth i (rows_of (num_maps (shape a)) (map_len (shape a))
                          (astype_float32 (data a))) []))
       (row_min (nth i (rows_of (num_maps (shape a)) (map_len (shape a))
                          (astype_float32 (data a))) []))) = true ->
  exists d',
    Scaling.scaling platform_cast a = Ok (mk_ndarray (shape a) (U8 d')) /\
    zmin (nth i (rows_of (num_maps (shape a)) (map_len (shape a)) d') []) = 0 /\
    (zmax (nth i (rows_of (num_maps (shape a)) (map_len (shape a)) d') []) = 254 \/
     zmax (nth i (rows_of (num_maps (shape a)) (map_len (shape a)) d') []) = 255).
Proof.
  intros Hl Hs Hi Hw.
  destruct (regular_shape_numel (shape a) Hs) as [Hn Hpos].
  remember (num_maps (shape a)) as n eqn:En.
  remember (map_len (shape a)) as len eqn:Elen.
  exists (map (Scaling.to_uint8 platform_cast) (scaled_values 255 n len (data a))).
  split.
  - unfold Scaling.scaling. rewrite scaling_with_regular by assumption.
    now rewrite <- En, <- Elen.
  - rewrite rows_of_scaled by exact (eq_trans Hl Hn).
    assert (Hlen : (i < List.length (rows_of n len (astype_float32 (data a))))%nat)
      by now rewrite rows_of_length.
    rewrite (nth_indep _ [] (scaled_row platform_cast [])) by now rewrite length_map.
    rewrite map_nth. apply scaled_row_ample; [|exact Hw].
    assert (Hne : Forall (fun r => r <> [])
                    (rows_of n len (astype_float32 (data a)))).
    { apply rows_nonempty; [|exact Hpos].
      rewrite length_astype_float32. exact (eq_trans Hl Hn). }
    rewrite Forall_forall in Hne. now apply Hne, nth_In.
Qed.

(** 2^-31, the smallest range of the amended claim. *)
Definition f32_low : spec_float := S754_finite false 8388608 (-54).

Lemma scaling_wide_range_fills_witness :
  exists d',
    Scaling.scaling x86_cast
      (mk_ndarray [2%nat; 2%nat] (F32 [f32_zero; f32_low; f32_zero; f32_low]))
      = Ok (mk_ndarray [2%nat; 2%nat] (U8 d')) /\
    zmin (nth 0 (rows_of 1 4 d') []) = 0 /\
    (zmax (nth 0 (rows_of 1 4 d') []) = 254 \/ zmax (nth 0 (rows_of 1 4 d') []) = 255).
Proof.
  apply (scaling_wide_range_fills x86_cast
           (mk_ndarray [2%nat; 2%nat] (F32 [f32_zero; f32_low; f32_zero; f32_low])) 0%nat).
  - reflexivity.
  - reflexivity.
  - simpl. lia.
  - vm_compute. reflexivity.
Defined.

(** The two bounds cannot be moved to the next power of two: a range of
    2^-32 scales to a maximum of 253, and 255 times a range of 2^121 is
    infinite in float32. *)
Example scaling_range_bounds_are_tight :
  Scaling.scaling x86_cast
    (mk_ndarray [2%nat; 2%nat]
       (F32 [f32_zero; S754_finite false 8388608 (-55);
             f32_zero; S754_finite false 8388608 (-55)]))
    = Ok (mk_ndarray [2%nat; 2%nat] (U8 [0; 253; 0; 253])) /\
  Scaling.scaling_with x86_cast
    (mk_ndarray [2%nat; 2%nat]
       (F32 [f32_zero; S754_finite false 8388608 98;
             f32_zero; S754_finite false 8388608 98])) false 255
    = Ok (mk_ndarray [2%nat; 2%nat]
            (F32 [f32_zero; S754_infinity false; f32_zero; S754_infinity false])).
Proof. split; vm_compute; reflexivity. Qed.

(** X1: In a uint8 map whose values are not all equal, the scaled map has
    minimum 0 and maximum exactly 255. *)
Theorem scaling_bytes_fill_range
    (platform_cast : spec_float -> Z) (s : list nat) (d : list Z) (i : nat) :
  List.length d = numel s -> regular_shape s = true ->
  Forall (fun v => 0 <= v <= 255) d ->
  (i < num_maps s)%nat ->
  zmin (nth i (rows_of (num_maps s) (map_len s) d) []) <>
  zmax (nth i (rows_of (num_maps s) (map_len s) d) []) ->
  exists d',
    Scaling.scaling platform_cast (mk_ndarray s (U8 d)) = Ok (mk_ndarray s (U8 d')) /\
    zmin (nth i (rows_of (num_maps s) (map_len s) d') []) = 0 /\
    zmax (nth i (rows_of (num_maps s) (map_len s) d') []) = 255.
Proof.
  intros Hl Hs Hb Hi Hne.
  destruct (regular_shape_numel s Hs) as [Hn Hpos].
  set (n := num_maps s) in *. set (len := map_len s) in *.
  exists (scaled_bytes platform_cast n len d).
  split; [now apply scaling_bytes|].
  unfold scaled_bytes. rewrite rows_of_concat.
  - assert (Hlen : (i < List.length (rows_of n len d))%nat) by now rewrite rows_of_length.
    rewrite (nth_indep _ [] (scale_zrow platform_cast []))
      by now rewrite length_map.
    rewrite map_nth.
    set (row := nth i (rows_of n len d) []) in *.
    assert (Hrow_in : In row (rows_of n len d)) by now apply nth_In.
    assert (Hrow_b : byte_row row).
    { pose proof (rows_of_Forall _ n len d Hb) as H.
      rewrite Forall_forall in H. now apply H. }
    assert (Hrow_ne : row <> []).
    { pose proof (rows_nonempty n len d (eq_trans Hl Hn) Hpos) as H.
      rewrite Forall_forall in H. now apply H. }
    destruct (scale_zrow_shape platform_cast row Hrow_ne Hrow_b)
      as [[E _] | [_ [H0 H255]]]; [contradiction|].
    pose proof (scale_zrow_bytes platform_cast row) as Hb'.
    split; [apply zmin_unique | apply zmax_unique]; trivial;
      (eapply Forall_impl; [|exact Hb']); simpl; lia.
  - now rewrite length_map, rows_of_length.
  - apply Forall_map. eapply Forall_impl;
      [|apply rows_of_row_length; exact (eq_trans Hl Hn)].
    intros r Hr. now rewrite length_scale_zrow.
Qed.

Lemma scaling_bytes_fill_range_witness :
  exists d',
    Scaling.scaling x86_cast (mk_ndarray [2%nat; 2%nat] (U8 [10; 20; 30; 40]))
      = Ok (mk_ndarray [2%nat; 2%nat] (U8 d')) /\
    zmin (nth 0 (rows_of 1 4 d') []) = 0 /\
    zmax (nth 0 (rows_of 1 4 d') []) = 255.
Proof.
  apply (scaling_bytes_fill_range x86_cast [2%nat; 2%nat] [10; 20; 30; 40] 0%nat).
  - reflexivity.
  - reflexivity.
  - repeat constructor; lia.
  - simpl. lia.
  - vm_compute. discriminate.
Defined.



Definition f32_s : spec_float := S754_finite false 8421732 (-23).

(** Without the cast to uint8 the scaled maximum can lie above 255: the
    map [[0, s], [0, s]] with s = 8421732 * 2^-23 scales to a maximum of
    16711681 * 2^-16 = 255 + 2^-16. *)
Example scaling_float_output_exceeds_255 :
  Scaling.scaling_with x86_cast
    (mk_ndarray [2%nat; 2%nat] (F32 [f32_zero; f32_s; f32_zero; f32_s])) false 255
    = Ok (mk_ndarray [2%nat; 2%nat]
            (F32 [f32_zero; S754_finite false 16711681 (-16);
                  f32_zero; S754_finite false 16711681 (-16)])) /\
  Float32.ltb (Float32.of_Z 255) (S754_finite false 16711681 (-16)) = true.
Proof. split; vm_compute; reflexivity. Qed.

End ScalingRangeClaims.

(** ** The automatic search on a convolutional model *)

Section CnnSearch.
Import ParseModel ParseModelFacts.

(** What the claim calls a node whose single output is a genuine spatial
    feature map: not a constant, one output of four dimensions with
    1 < H < C and 1 < W < C. *)
Definition spatial_feature_map (op : Node) : bool :=
  negb (String.eqb (type_name op) "Constant") &&
  match outputs op with
  | [[_; Some c; Some h; Some w]] => (1 <? h) && (h <? c) && ((1 <? w) && (w <? c))
  | _ => false
  end.

(** A node with exactly one output whose channel and spatial dimensions,
    when it has four dimensions, are static. *)
Definition static_single_output (op : Node) : Prop :=
  match outputs op with
  | [[_; d1; d2; d3]] => d1 <> None /\ d2 <> None /\ d3 <> None
  | [_] => True
  | _ => False
  end.

Lemma _is_op_w_single_spacial_output_static (op : Node) :
  static_single_output op ->
  _is_op_w_single_spacial_output op = Ok (spatial_feature_map op).
Proof.
  unfold static_single_output, _is_op_w_single_spacial_output,
    spatial_feature_map, output_shape.
  intros H.
  destruct (String.eqb (type_name op) "Constant"); [reflexivity|].
  destruct (outputs op) as [|s [|s' l]]; [contradiction| |].
  - destruct s as [|d0 [|[c|] [|[h|] [|[w|] [|d4 s]]]]]; try reflexivity;
      destruct H as [H1 [H2 H3]]; congruence.
  - destruct s as [|d0 [|d1 [|d2 [|d3 [|d4 s]]]]]; contradiction.
Qed.

(** X2: On a convolutional model and without a target node name,
    [get_target_node] returns the k-th spatial feature map from the end
    of the model, and raises the error of [get_post_target_node] when
    there are fewer than k of them: the pooling fallback never returns a
    node. *)
Theorem get_target_node_cnn_automatic (model : Model) (k : Z) :
  Forall static_single_output model ->
  get_target_node model (Some CNN) None k =
    match (if 0 <? k
           then nth_error (filter spatial_feature_map (rev model)) (Z.to_nat (k - 1))
           else None) with
    | Some n => Ok n
    | None =>
        Raise (RuntimeError
          "Cannot find first head node in auto mode, please explicitly provide input parameters.")
    end.
Proof.
  intros Hstatic. unfold get_target_node. cbn [truthy].
  rewrite (get_node_by_condition_ext _ (fun x => Ok (spatial_feature_map x))).
  - rewrite get_node_by_condition_pure. cbn [bind].
    destruct (if 0 <? k then _ else None); reflexivity.
  - apply Forall_rev. eapply Forall_impl; [|exact Hstatic].
    intros op. apply _is_op_w_single_spacial_output_static.
Qed.

Lemma get_target_node_cnn_automatic_witness :
  get_target_node [backbone_relu; global_pool] (Some CNN) None 1 =
    match (if 0 <? 1
           then nth_error (filter spatial_feature_map (rev [backbone_relu; global_pool]))
                  (Z.to_nat (1 - 1))
           else None) with
    | Some n => Ok n
    | None =>
        Raise (RuntimeError
          "Cannot find first head node in auto mode, please explicitly provide input parameters.")
    end.
Proof.
  apply (get_target_node_cnn_automatic [backbone_relu; global_pool] 1).
  repeat constructor; discriminate.
Defined.

End CnnSearch.

(** ** Image layout helpers ([openvino_xai/common/utils.py]) *)

Module LayoutFacts.
Section WithTranspose.

Variable transpose_to_bhwc : buffer -> list nat -> buffer.

Abbreviation format_to_bhwc := (Visualizer.format_to_bhwc transpose_to_bhwc).
Abbreviation infer_size_from_image := Visualizer.infer_size_from_image.

Lemma format_to_bhwc_4d (b d0 d1 d2 : nat) (d : buffer) :
  format_to_bhwc (mk_ndarray [b; d0; d1; d2] d) =
    if (d2 <? d0)%nat && (d2 <? d1)%nat
    then Ok (mk_ndarray [b; d0; d1; d2] d)
    else Ok (mk_ndarray [b; d1; d2; d0] (transpose_to_bhwc d [b; d0; d1; d2])).
Proof.
  unfold Visualizer.format_to_bhwc, Visualizer.is_bhwc_layout. cbn [shape List.length Nat.eqb bind data].
  destruct ((d2 <? d0)%nat && (d2 <? d1)%nat); reflexivity.
Qed.

Lemma format_to_bhwc_3d (d0 d1 d2 : nat) (d : buffer) :
  format_to_bhwc (mk_ndarray [d0; d1; d2] d) =
  format_to_bhwc (mk_ndarray [1%nat; d0; d1; d2] d).
Proof. reflexivity. Qed.

(** X5: For an image of three or four axes, [infer_size_from_image] returns
    the height and width that [format_to_bhwc] puts on the second and
    third axis: both functions make the same choice of layout. *)
Theorem infer_size_is_size_of_bhwc_form (image : ndarray) :
  (List.length (shape image) = 3 \/ List.length (shape image) = 4)%nat ->
  exists b h w c d,
    format_to_bhwc image = Ok (mk_ndarray [b; h; w; c] d) /\
    infer_size_from_image image = Ok (h, w).
Proof.
  destruct image as [s d]. cbn [shape].
  intros [H | H];
    destruct s as [|x0 [|x1 [|x2 [|x3 [|x4 s]]]]]; try discriminate H.
  - rewrite format_to_bhwc_3d, format_to_bhwc_4d.
    unfold Visualizer.infer_size_from_image. cbn [shape].
    destruct ((x2 <? x0)%nat && (x2 <? x1)%nat); repeat eexists.
  - rewrite format_to_bhwc_4d.
    unfold Visualizer.infer_size_from_image. cbn [shape].
    destruct ((x3 <? x1)%nat && (x3 <? x2)%nat); repeat eexists.
Qed.

(** X6: An image with fewer channels than rows and columns, given as BCHW or
    as BHWC, comes out of [format_to_bhwc] with shape (B, H, W, C); it is
    then left alone by a second call, and [infer_size_from_image] gives
    (H, W) before and after. *)
Theorem format_to_bhwc_few_channels (image : ndarray) (b c h w : nat) :
  (c < h)%nat -> (c < w)%nat ->
  shape image = [b; c; h; w] \/ shape image = [b; h; w; c] ->
  exists d,
    format_to_bhwc image = Ok (mk_ndarray [b; h; w; c] d) /\
    format_to_bhwc (mk_ndarray [b; h; w; c] d) = Ok (mk_ndarray [b; h; w; c] d) /\
    infer_size_from_image image = Ok (h, w) /\
    infer_size_from_image (mk_ndarray [b; h; w; c] d) = Ok (h, w).
Proof.
  intros Hh Hw Hs. destruct image as [s d]. cbn [shape] in Hs.
  assert (Eh : (c <? h)%nat = true) by now apply Nat.ltb_lt.
  assert (Ew : (c <? w)%nat = true) by now apply Nat.ltb_lt.
  assert (Ewc : (w <? c)%nat = false) by (apply Nat.ltb_ge; lia).
  destruct Hs as [-> | ->]; eexists; rewrite !format_to_bhwc_4d;
    unfold Visualizer.infer_size_from_image; cbn [shape];
    rewrite ?Eh, ?Ew, ?Ewc; cbn [andb]; rewrite ?Eh, ?Ew; cbn [andb];
    repeat split; reflexivity.
Qed.

(** X7: A four-axis image that is not recognised as BHWC and whose second
    axis is not shorter than both the third and the fourth is moved to
    (B, d1, d2, d0); [infer_size_from_image] then reads (d2, d0) from it,
    not the (d1, d2) it reads from the image as given. *)
Theorem infer_size_after_format_many_channels (b d0 d1 d2 : nat) (d : buffer) :
  ((d2 <? d0)%nat && (d2 <? d1)%nat) = false ->
  ((d0 <? d1)%nat && (d0 <? d2)%nat) = false ->
  exists image',
    format_to_bhwc (mk_ndarray [b; d0; d1; d2] d) = Ok image' /\
    shape image' = [b; d1; d2; d0] /\
    infer_size_from_image image' = Ok (d2, d0) /\
    infer_size_from_image (mk_ndarray [b; d0; d1; d2] d) = Ok (d1, d2).
Proof.
  intros H1 H2. eexists. rewrite format_to_bhwc_4d, H1.
  split; [reflexivity|]. split; [reflexivity|].
  unfold Visualizer.infer_size_from_image. cbn [shape]. rewrite H1, H2.
  split; reflexivity.
Qed.

End WithTranspose.

Lemma infer_size_is_size_of_bhwc_form_witness :
  exists b h w c d,
    Visualizer.format_to_bhwc (fun d _ => d)
      (mk_ndarray [3; 2; 2]%nat (U8 [0; 1; 2; 3; 4; 5; 6; 7; 8; 9; 10; 11]))
      = Ok (mk_ndarray [b; h; w; c] d) /\
    Visualizer.infer_size_from_image
      (mk_ndarray [3; 2; 2]%nat (U8 [0; 1; 2; 3; 4; 5; 6; 7; 8; 9; 10; 11]))
      = Ok (h, w).
Proof.
  apply (infer_size_is_size_of_bhwc_form (fun d _ => d)
           (mk_ndarray [3; 2; 2]%nat (U8 [0; 1; 2; 3; 4; 5; 6; 7; 8; 9; 10; 11]))).
  left. reflexivity.
Defined.

Lemma format_to_bhwc_few_channels_witness :
  exists d,
    Visualizer.format_to_bhwc (fun d _ => d) (mk_ndarray [1; 1; 2; 2]%nat (U8 [0; 1; 2; 3]))
      = Ok (mk_ndarray [1; 2; 2; 1]%nat d) /\
    Visualizer.format_to_bhwc (fun d _ => d) (mk_ndarray [1; 2; 2; 1]%nat d)
      = Ok (mk_ndarray [1; 2; 2; 1]%nat d) /\
    Visualizer.infer_size_from_image (mk_ndarray [1; 1; 2; 2]%nat (U8 [0; 1; 2; 3]))
      = Ok (2, 2)%nat /\
    Visualizer.infer_size_from_image (mk_ndarray [1; 2; 2; 1]%nat d) = Ok (2, 2)%nat.
Proof.
  apply (format_to_bhwc_few_channels (fun d _ => d)
           (mk_ndarray [1; 1; 2; 2]%nat (U8 [0; 1; 2; 3])) 1 1 2 2);
    [lia | lia | left; reflexivity].
Defined.

Lemma infer_size_after_format_many_channels_witness :
  exists image',
    Visualizer.format_to_bhwc (fun d _ => d) (mk_ndarray [1; 8; 2; 2]%nat (U8 (repeat 0 32)))
      = Ok image' /\
    shape image' = [1; 2; 2; 8]%nat /\
    Visualizer.infer_size_from_image image' = Ok (2, 8)%nat /\
    Visualizer.infer_size_from_image (mk_ndarray [1; 8; 2; 2]%nat (U8 (repeat 0 32)))
      = Ok (2, 2)%nat.
Proof.
  apply (infer_size_after_format_many_channels (fun d _ => d) 1 8 2 2 (U8 (repeat 0 32)));
    reflexivity.
Defined.

End LayoutFacts.

(** ** More on target resolution *)

Module TargetsEdgeCases.
Import Targets TargetsFacts.

Lemma filter_contains_length_le (names targets : list string) :
  NoDup names ->
  (List.length (filter (contains targets) names) <= List.length (nodup string_dec targets))%nat.
Proof.
  intros Hn. apply NoDup_incl_length; [now apply NoDup_filter|].
  intros x Hx. apply filter_In in Hx as [_ Hx]. apply contains_In in Hx.
  now apply nodup_In.
Qed.

Lemma nodup_length_le {A : Type} (dec : forall x y : A, {x = y} + {x <> y}) (l : list A) :
  (List.length (nodup dec l) <= List.length l)%nat.
Proof.
  induction l as [|a l IH]; simpl; [lia|].
  destruct (in_dec dec a l); simpl; lia.
Qed.

Lemma nodup_length_eq {A : Type} (dec : forall x y : A, {x = y} + {x <> y}) (l : list A) :
  List.length (nodup dec l) = List.length l -> NoDup l.
Proof.
  induction l as [|a l IH]; simpl; [constructor|].
  destruct (in_dec dec a l) as [Hin | Hnin]; simpl; intros H.
  - pose proof (nodup_length_le dec l). lia.
  - constructor; [exact Hnin | apply IH; lia].
Qed.

(** X8: Over a table without repeated labels, a non-empty list of names is
    resolved exactly when the names are pairwise distinct and all occur in
    the table; otherwise (a misspelt name, a name given twice, an empty
    table) the call raises [ValueError]. *)
Theorem get_target_indices_names_succeed_iff (targets names : list string) :
  targets <> [] -> NoDup names ->
  ((exists idx, get_target_indices (Seq (map TStr targets)) (Some names) = Ok idx) <->
   (NoDup targets /\ incl targets names)) /\
  (~ (NoDup targets /\ incl targets names) ->
   get_target_indices (Seq (map TStr targets)) (Some names) =
   Raise (ValueError
            match names with
            | [] => "Label names should be provided when targets contain string names."
            | _ => "No all label names found in label_names. Check spelling."
            end)).
Proof.
  intros Ht Hn. destruct names as [|n nl].
  - assert (E : get_target_indices (Seq (map TStr targets)) (Some []) =
                Raise (ValueError
                  "Label names should be provided when targets contain string names.")).
    { unfold get_target_indices. simpl. rewrite asarray_strings by exact Ht.
      destruct targets; [congruence | reflexivity]. }
    rewrite E. split; [split|reflexivity].
    + intros [idx H]. discriminate H.
    + intros [_ Hincl]. destruct targets as [|t tl]; [congruence|].
      destruct (Hincl t (or_introl eq_refl)).
  - rewrite get_target_indices_strings by (trivial; discriminate).
    rewrite collect_indices_length.
    destruct (Nat.eqb_spec (List.length targets)
                (List.length (filter (contains targets) (n :: nl)))) as [E | NE].
    + assert (Hok : NoDup targets /\ incl targets (n :: nl)).
      { pose proof (filter_contains_length_le (n :: nl) targets Hn) as H1.
        pose proof (nodup_length_le string_dec targets) as H2.
        assert (Hnd : NoDup targets) by (apply (nodup_length_eq string_dec); lia).
        split; [exact Hnd|].
        intros s Hs. destruct (in_dec string_dec s (n :: nl)) as [Hin | Hnin]; [exact Hin|].
        pose proof (unmatched_length (n :: nl) targets s Hn Hs Hnin). lia. }
      split; [split; [intros _; exact Hok | intros _; eexists; reflexivity]|].
      intros Hno. contradiction.
    + split; [split|reflexivity].
      * intros [idx H]. discriminate H.
      * intros [Hnd Hincl]. exfalso. apply NE. symmetry. now apply matched_length.
Qed.

Lemma get_target_indices_names_succeed_iff_witness :
  ((exists idx,
      get_target_indices (Seq (map TStr ["dog"; "dog"]%string))
        (Some ["cat"; "dog"]%string) = Ok idx) <->
   (NoDup ["dog"; "dog"]%string /\ incl ["dog"; "dog"]%string ["cat"; "dog"]%string)) /\
  (~ (NoDup ["dog"; "dog"]%string /\ incl ["dog"; "dog"]%string ["cat"; "dog"]%string) ->
   get_target_indices (Seq (map TStr ["dog"; "dog"]%string)) (Some ["cat"; "dog"]%string) =
   Raise (ValueError "No all label names found in label_names. Check spelling.")).
Proof.
  apply (get_target_indices_names_succeed_iff ["dog"; "dog"]%string ["cat"; "dog"]%string).
  - discriminate.
  - repeat constructor; simpl; intuition discriminate.
Defined.

(** X10: Integer targets within the range of [int64] are returned as
    given, in their order and without any check against [label_names]; an
    empty list raises [IndexError], and names without a label table raise
    [ValueError]. *)
Theorem get_target_indices_edge_cases
    (idxs : list Z) (z : Z) (targets : list string)
    (label_names : option (list string)) :
  Forall int64 idxs -> int64 z ->
  (idxs <> [] -> get_target_indices (Seq (map TInt idxs)) label_names = Ok idxs) /\
  get_target_indices (Scalar (TInt z)) label_names = Ok [z] /\
  get_target_indices (Seq []) label_names
    = Raise (IndexError "index 0 is out of bounds for axis 0 with size 0") /\
  (targets <> [] ->
   get_target_indices (Seq (map TStr targets)) None
     = Raise (ValueError "Label names should be provided when targets contain string names.") /\
   get_target_indices (Seq (map TStr targets)) (Some [])
     = Raise (ValueError "Label names should be provided when targets contain string names.")).
Proof.
  intros _ _. split; [|split; [|split]].
  - intros H. unfold get_target_indices. simpl. rewrite asarray_ints.
    destruct idxs; [congruence | reflexivity].
  - reflexivity.
  - reflexivity.
  - intros H. unfold get_target_indices. simpl. rewrite asarray_strings by exact H.
    destruct targets; [congruence|]. split; reflexivity.
Qed.

Lemma get_target_indices_edge_cases_witness :
  ([7; 3] <> [] -> get_target_indices (Seq (map TInt [7; 3])) (Some ["cat"]%string)
                   = Ok [7; 3]) /\
  get_target_indices (Scalar (TInt 5)) (Some ["cat"]%string) = Ok [5] /\
  get_target_indices (Seq []) (Some ["cat"]%string)
    = Raise (IndexError "index 0 is out of bounds for axis 0 with size 0") /\
  (["dog"]%string <> [] ->
   get_target_indices (Seq (map TStr ["dog"]%string)) None
     = Raise (ValueError "Label names should be provided when targets contain string names.") /\
   get_target_indices (Seq (map TStr ["dog"]%string)) (Some [])
     = Raise (ValueError "Label names should be provided when targets contain string names.")).
Proof.
  apply (get_target_indices_edge_cases [7; 3] 5 ["dog"]%string (Some ["cat"]%string)).
  - repeat constructor; unfold int64; lia.
  - unfold int64. lia.
Defined.

End TargetsEdgeCases.

(** ** More on the node search ([openvino_xai/insertion/parse_model.py]) *)

Module ParseModelSearch.
Import ParseModel ParseModelFacts.

(** The loop over [op.inputs()] of
    [IRParser._is_concat_node_w_non_constant_inputs]. *)
Fixpoint no_constant_input (model : Model) (input_nodes : list InputPort)
    : result bool :=
  match input_nodes with
  | [] => Ok true
  | input_node :: rest =>
      let* src := get_source_node model input_node in
      if String.eqb (type_name src) "Constant" then Ok false
      else no_constant_input model rest
  end.

Definition _is_concat_node_w_non_constant_inputs (model : Model) (op : Node)
    : result bool :=
  if negb (String.eqb (type_name op) "Concat") then Ok false
  else no_constant_input model (inputs op).

(** [IRParserCls.get_first_concat_node]; its message names a convolution. *)
Definition get_first_concat_node (model : Model) : result Node :=
  let* first_concat_node :=
    get_node_by_condition model (_is_concat_node_w_non_constant_inputs model) 1 in
  match first_concat_node with
  | Some n => Ok n
  | None => Raise (RuntimeError "Cannot find first convolution node in auto mode.")
  end.

(** *** What the search returns *)

(** X11: A node found by [get_node_by_condition] is one of the nodes searched
    and satisfies the condition, the rank is positive, and the nodes that
    follow the searched ones are not looked at. *)
Theorem get_node_by_condition_found
    (ops : list Node) (condition : Node -> result bool) (k : Z) (n : Node) :
  get_node_by_condition ops condition k = Ok (Some n) ->
  In n ops /\ condition n = Ok true /\ 0 < k /\
  forall more, get_node_by_condition (ops ++ more) condition k = Ok (Some n).
Proof.
  revert k. induction ops as [|op rest IH]; intros k H; [discriminate H|].
  cbn [get_node_by_condition] in H. cbn [app get_node_by_condition].
  destruct (condition op) as [[|]|e] eqn:E; cbn [bind] in *; [| |discriminate H].
  - destruct (Z.eqb_spec (k - 1) 0) as [E0 | NE].
    + injection H as <-. repeat split; [now left | exact E | lia].
    + destruct (IH _ H) as [Hin [Hc [Hk Hmore]]].
      repeat split; [now right | exact Hc | lia | exact Hmore].
  - destruct (IH _ H) as [Hin [Hc [Hk Hmore]]].
    repeat split; [now right | exact Hc | exact Hk | exact Hmore].
Qed.

Lemma get_node_by_condition_found_witness :
  In (mk_node 1 "conv" "Convolution" [] []) [mk_node 1 "conv" "Convolution" [] []] /\
  (fun x => Ok (String.eqb (type_name x) "Convolution"))
    (mk_node 1 "conv" "Convolution" [] []) = Ok true /\
  0 < 1 /\
  forall more,
    get_node_by_condition ([mk_node 1 "conv" "Convolution" [] []] ++ more)
      (fun x => Ok (String.eqb (type_name x) "Convolution")) 1
    = Ok (Some (mk_node 1 "conv" "Convolution" [] [])).
Proof.
  apply (get_node_by_condition_found [mk_node 1 "conv" "Convolution" [] []]
           (fun x => Ok (String.eqb (type_name x) "Convolution")) 1
           (mk_node 1 "conv" "Convolution" [] [])).
  reflexivity.
Defined.

(** *** Spatial size *)

Lemma _has_spacial_size_dims
    (node : Node) (n : Dimension) (c h w : Z) (tail : PartialShape)
    (others : list PartialShape) :
  outputs node = (n :: Some c :: Some h :: Some w :: tail) :: others ->
  _has_spacial_size node =
    Ok ((negb (h =? 1) && negb (w =? 1)) || (negb (c =? 1) && negb (h =? 1))).
Proof.
  intros H. unfold _has_spacial_size, output_shape. rewrite H. reflexivity.
Qed.

(** X12: On an output of at least four dimensions (N, C, H, W, ...) with
    static C, H and W, [_has_spacial_size] answers no exactly when H is 1,
    or C and W are both 1. *)
Theorem _has_spacial_size_static
    (node : Node) (n : Dimension) (c h w : Z) (tail : PartialShape)
    (others : list PartialShape) :
  outputs node = (n :: Some c :: Some h :: Some w :: tail) :: others ->
  _has_spacial_size node = Ok (negb ((h =? 1) || ((c =? 1) && (w =? 1)))).
Proof.
  intros H. unfold _has_spacial_size, output_shape. rewrite H. cbn.
  f_equal. destruct (h =? 1), (w =? 1), (c =? 1); reflexivity.
Qed.

Lemma _has_spacial_size_static_witness :
  _has_spacial_size (mk_node 0 "row" "Relu" [[Some 1; Some 8; Some 1; Some 7]] [])
  = Ok (negb ((1 =? 1) || ((8 =? 1) && (7 =? 1)))).
Proof.
  apply (_has_spacial_size_static
           (mk_node 0 "row" "Relu" [[Some 1; Some 8; Some 1; Some 7]] [])
           (Some 1) 8 1 7 [] []).
  reflexivity.
Defined.

(** *** The first convolution *)

Definition conv_w_spacial_size (op : Node) : bool :=
  String.eqb (type_name op) "Convolution" &&
  match outputs op with
  | (_ :: Some c :: Some h :: Some w :: _) :: _ =>
      negb ((h =? 1) || ((c =? 1) && (w =? 1)))
  | _ => false
  end.

(** A convolution whose first output has at least four dimensions, the
    second to fourth of them static. *)
Definition static_convolution (op : Node) : Prop :=
  type_name op = "Convolution"%string ->
  exists n c h w tail others,
    outputs op = (n :: Some c :: Some h :: Some w :: tail) :: others.

Lemma _is_conv_node_w_spacial_size_static (op : Node) :
  static_convolution op ->
  _is_conv_node_w_spacial_size op = Ok (conv_w_spacial_size op).
Proof.
  intros H. unfold _is_conv_node_w_spacial_size, conv_w_spacial_size.
  destruct (String.eqb_spec (type_name op) "Convolution") as [E | NE]; [|reflexivity].
  destruct (H E) as [n [c [h [w [tail [others Ho]]]]]].
  rewrite (_has_spacial_size_dims op n c h w tail others Ho), Ho.
  cbn [bind andb].
  now destruct (h =? 1), (w =? 1), (c =? 1).
Qed.

(** X13: [get_first_conv_node] returns the first node, in topological order,
    that is a convolution with spatial size, and raises [RuntimeError]
    when the model has none. *)
Theorem get_first_conv_node_first (model : Model) :
  Forall static_convolution model ->
  get_first_conv_node model =
    match find conv_w_spacial_size model with
    | Some n => Ok n
    | None => Raise (RuntimeError "Cannot find first convolution node in auto mode.")
    end.
Proof.
  intros H. unfold get_first_conv_node.
  rewrite (get_node_by_condition_ext _ (fun x => Ok (conv_w_spacial_size x))).
  - now rewrite get_node_by_condition_first.
  - eapply Forall_impl; [|exact H].
    intros op. apply _is_conv_node_w_spacial_size_static.
Qed.

Definition stem_conv : Node :=
  mk_node 1 "stem" "Convolution" [[Some 1; Some 16; Some 112; Some 112]] [].

Lemma get_first_conv_node_first_witness :
  get_first_conv_node [mk_node 0 "data" "Parameter" [[Some 1; Some 3; Some 224; Some 224]] [];
                       stem_conv] =
    match find conv_w_spacial_size
            [mk_node 0 "data" "Parameter" [[Some 1; Some 3; Some 224; Some 224]] [];
             stem_conv] with
    | Some n => Ok n
    | None => Raise (RuntimeError "Cannot find first convolution node in auto mode.")
    end.
Proof.
  apply (get_first_conv_node_first
           [mk_node 0 "data" "Parameter" [[Some 1; Some 3; Some 224; Some 224]] [];
            stem_conv]).
  repeat constructor.
  - intros H. discriminate H.
  - intros _. now exists (Some 1), 16, 112, 112, [], [].
Defined.

(** X14: A convolution whose output has fewer than four dimensions, such as a
    one-dimensional convolution, stops [get_first_conv_node] with an
    exception when no convolution precedes it, even if a convolution with
    spatial size follows. *)
Theorem get_first_conv_node_short_output
    (before after : list Node) (conv : Node) (s : PartialShape)
    (others : list PartialShape) :
  Forall (fun op => type_name op <> "Convolution"%string) before ->
  type_name conv = "Convolution"%string ->
  outputs conv = s :: others -> (List.length s < 4)%nat ->
  exists e, get_first_conv_node (before ++ conv :: after) = Raise e.
Proof.
  intros Hb Hc Ho Hs. unfold get_first_conv_node.
  induction Hb as [|op rest Hop _ IH].
  - cbn [app get_node_by_condition]. unfold _is_conv_node_w_spacial_size at 1.
    rewrite Hc, String.eqb_refl. cbn [negb].
    unfold _has_spacial_size, output_shape. rewrite Ho. cbn [nth_error bind].
    destruct s as [|d0 [|d1 [|d2 [|d3 s]]]]; cbn in Hs; try lia; cbn;
      try (eexists; reflexivity).
    destruct d2; cbn; eexists; reflexivity.
  - cbn [app get_node_by_condition]. unfold _is_conv_node_w_spacial_size at 1.
    apply String.eqb_neq in Hop. rewrite Hop. cbn [negb bind]. exact IH.
Qed.

Lemma get_first_conv_node_short_output_witness :
  exists e,
    get_first_conv_node
      ([mk_node 0 "data" "Parameter" [[Some 1; Some 3; Some 224]] []]
       ++ mk_node 1 "conv1d" "Convolution" [[Some 1; Some 16; Some 112]] []
       :: [stem_conv]) = Raise e.
Proof.
  apply (get_first_conv_node_short_output
           [mk_node 0 "data" "Parameter" [[Some 1; Some 3; Some 224]] []]
           [stem_conv]
           (mk_node 1 "conv1d" "Convolution" [[Some 1; Some 16; Some 112]] [])
           [Some 1; Some 16; Some 112] []).
  - repeat constructor. discriminate.
  - reflexivity.
  - reflexivity.
  - simpl. lia.
Defined.


(** *** Models whose input ports are fed by their own nodes *)

Definition source_type (model : Model) (p : InputPort) : option string :=
  option_map type_name (find (fun n => Nat.eqb (node_id n) (source_node p)) model).

(** Every input port of every node is fed by a node of the model. *)
Definition closed (model : Model) : Prop :=
  Forall (fun op => Forall (fun p => source_type model p <> None) (inputs op)) model.

Lemma get_source_node_closed (model : Model) (p : InputPort) :
  source_type model p <> None ->
  exists src, get_source_node model p = Ok src /\
              source_type model p = Some (type_name src).
Proof.
  unfold source_type, get_source_node.
  destruct (find _ model) as [src|]; cbn [option_map]; [|congruence].
  intros _. now exists src.
Qed.

(** *** The first concatenation *)

Definition concat_w_non_constant_inputs (model : Model) (op : Node) : bool :=
  String.eqb (type_name op) "Concat" &&
  forallb (fun p => match source_type model p with
                    | Some t => negb (String.eqb t "Constant")
                    | None => false
                    end) (inputs op).

Lemma no_constant_input_closed (model : Model) (ports : list InputPort) :
  Forall (fun p => source_type model p <> None) ports ->
  no_constant_input model ports =
    Ok (forallb (fun p => match source_type model p with
                          | Some t => negb (String.eqb t "Constant")
                          | None => false
                          end) ports).
Proof.
  induction 1 as [|p rest Hp _ IH]; [reflexivity|].
  cbn [no_constant_input forallb].
  destruct (get_source_node_closed model p Hp) as [src [-> ->]]. cbn [bind].
  destruct (String.eqb (type_name src) "Constant"); [reflexivity | exact IH].
Qed.

(** X15: In a model whose ports are all fed by its own nodes,
    [get_first_concat_node] returns the first node, in topological order,
    of type Concat none of whose inputs comes from a Constant; when there
    is none it raises the [RuntimeError] of [get_first_conv_node], message
    included. *)
Theorem get_first_concat_node_first (model : Model) :
  closed model ->
  get_first_concat_node model =
    match find (concat_w_non_constant_inputs model) model with
    | Some n => Ok n
    | None => Raise (RuntimeError "Cannot find first convolution node in auto mode.")
    end.
Proof.
  intros H. unfold get_first_concat_node.
  rewrite (get_node_by_condition_ext _
             (fun x => Ok (concat_w_non_constant_inputs model x))).
  - now rewrite get_node_by_condition_first.
  - eapply Forall_impl; [|exact H].
    intros op Hop. unfold _is_concat_node_w_non_constant_inputs,
      concat_w_non_constant_inputs.
    destruct (String.eqb (type_name op) "Concat"); [|reflexivity].
    cbn [negb andb]. now apply no_constant_input_closed.
Qed.

Definition two_branches : Model :=
  [mk_node 0 "a" "Relu" [[Some 1; Some 4]] [];
   mk_node 1 "b" "Relu" [[Some 1; Some 4]] [];
   mk_node 2 "cat" "Concat" [[Some 1; Some 8]]
     [mk_input [Some 1; Some 4] 0 0; mk_input [Some 1; Some 4] 1 0]].

Lemma get_first_concat_node_first_witness :
  get_first_concat_node two_branches =
    match find (concat_w_non_constant_inputs two_branches) two_branches with
    | Some n => Ok n
    | None => Raise (RuntimeError "Cannot find first convolution node in auto mode.")
    end.
Proof.
  apply (get_first_concat_node_first two_branches).
  repeat constructor; discriminate.
Defined.

(** *** The transformer family *)

Definition add_w_non_constant_inputs (model : Model) (op : Node) : bool :=
  String.eqb (type_name op) "Add" &&
  forallb (fun p => Nat.eqb (List.length (port_shape p)) 3 &&
                    match source_type model p with
                    | Some t => negb (String.eqb t "Constant")
                                && negb (String.eqb t "Convert")
                    | None => false
                    end) (inputs op).

Lemma all_inputs_non_constant_closed (model : Model) (ports : list InputPort) :
  Forall (fun p => source_type model p <> None) ports ->
  all_inputs_non_constant model ports =
    Ok (forallb (fun p => Nat.eqb (List.length (port_shape p)) 3 &&
                          match source_type model p with
                          | Some t => negb (String.eqb t "Constant")
                                      && negb (String.eqb t "Convert")
                          | None => false
                          end) ports).
Proof.
  induction 1 as [|p rest Hp _ IH]; [reflexivity|].
  cbn [all_inputs_non_constant forallb].
  destruct (Nat.eqb (List.length (port_shape p)) 3); [|reflexivity].
  cbn [negb andb].
  destruct (get_source_node_closed model p Hp) as [src [-> ->]]. cbn [bind].
  destruct (String.eqb (type_name src) "Constant"); [reflexivity|].
  destruct (String.eqb (type_name src) "Convert"); [reflexivity | exact IH].
Qed.

(** X16: For the transformer family and without a target node name,
    [get_target_node] returns the k-th node from the end of the
    topological order that is an Add all of whose inputs have three
    dimensions and come from nodes other than Constant and Convert, and
    raises [RuntimeError] when there are fewer than k of them. *)
Theorem get_target_node_transformer_automatic (model : Model) (k : Z) :
  closed model ->
  get_target_node model (Some TRANSFORMER) None k =
    match (if 0 <? k
           then nth_error (filter (add_w_non_constant_inputs model) (rev model))
                  (Z.to_nat (k - 1))
           else None) with
    | Some n => Ok n
    | None =>
        Raise (RuntimeError
          "Cannot find output backbone_node in auto mode, please provide target_layer.")
    end.
Proof.
  intros H. unfold get_target_node. cbn [truthy].
  rewrite (get_node_by_condition_ext _
             (fun x => Ok (add_w_non_constant_inputs model x))).
  - rewrite get_node_by_condition_pure. cbn [bind].
    destruct (if 0 <? k then _ else None); reflexivity.
  - apply Forall_rev. eapply Forall_impl; [|exact H].
    intros op Hop. unfold _is_add_node_w_two_non_constant_inputs,
      add_w_non_constant_inputs.
    destruct (String.eqb (type_name op) "Add"); [|reflexivity].
    cbn [negb andb]. now apply all_inputs_non_constant_closed.
Qed.

Definition residual_block : Model :=
  [mk_node 0 "tokens" "Parameter" [[Some 1; Some 197; Some 768]] [];
   mk_node 1 "mlp" "MatMul" [[Some 1; Some 197; Some 768]]
     [mk_input [Some 1; Some 197; Some 768] 0 0];
   mk_node 2 "residual" "Add" [[Some 1; Some 197; Some 768]]
     [mk_input [Some 1; Some 197; Some 768] 0 0;
      mk_input [Some 1; Some 197; Some 768] 1 0]].

Lemma get_target_node_transformer_automatic_witness :
  get_target_node residual_block (Some TRANSFORMER) None 1 =
    match (if 0 <? 1
           then nth_error (filter (add_w_non_constant_inputs residual_block)
                             (rev residual_block)) (Z.to_nat (1 - 1))
           else None) with
    | Some n => Ok n
    | None =>
        Raise (RuntimeError
          "Cannot find output backbone_node in auto mode, please provide target_layer.")
    end.
Proof.
  apply (get_target_node_transformer_automatic residual_block 1).
  repeat constructor; discriminate.
Defined.

(** *** The node after the target *)

Definition pooling_wo_spacial_size (op : Node) : bool :=
  contains_substring "Pool" (friendly_name op) &&
  match outputs op with
  | (_ :: Some c :: Some h :: Some w :: _) :: _ => (h =? 1) || ((c =? 1) && (w =? 1))
  | _ => false
  end.

(** A node with Pool in its name whose first output has at least four
    dimensions, the second to fourth of them static. *)
Definition static_pooling (op : Node) : Prop :=
  contains_substring "Pool" (friendly_name op) = true ->
  exists n c h w tail others,
    outputs op = (n :: Some c :: Some h :: Some w :: tail) :: others.

(** X17: Without a target node name, [get_post_target_node] returns for the
    convolutional family the one-element list of the last node, in
    topological order, that has Pool in its name and no spatial size; it
    raises [RuntimeError] when there is none, and for every other model
    type. *)
Theorem get_post_target_node_automatic
    (model : Model) (model_type : option ModelType) (output_id : nat) :
  Forall static_pooling model ->
  get_post_target_node model model_type None output_id =
    match model_type, find pooling_wo_spacial_size (rev model) with
    | Some CNN, Some n => Ok [n]
    | _, _ =>
        Raise (RuntimeError
          "Cannot find first head node in auto mode, please explicitly provide input parameters.")
    end.
Proof.
  intros H. unfold get_post_target_node. cbn [truthy].
  destruct model_type as [[|]|]; try reflexivity.
  rewrite (get_node_by_condition_ext _ (fun x => Ok (pooling_wo_spacial_size x))).
  - rewrite get_node_by_condition_first. cbn [bind].
    destruct (find _ _); reflexivity.
  - apply Forall_rev. eapply Forall_impl; [|exact H].
    intros op Hop. unfold _is_pooling_node_wo_spacial_size, pooling_wo_spacial_size.
    destruct (contains_substring "Pool" (friendly_name op)) eqn:E; [|reflexivity].
    destruct (Hop E) as [n [c [h [w [tail [others Ho]]]]]].
    rewrite (_has_spacial_size_dims op n c h w tail others Ho), Ho.
    cbn [bind andb].
    now destruct (h =? 1), (w =? 1), (c =? 1).
Qed.

Lemma get_post_target_node_automatic_witness :
  get_post_target_node
    [stem_conv; mk_node 2 "GlobalAveragePool" "ReduceMean"
                  [[Some 1; Some 16; Some 1; Some 1]] [mk_input [] 1 0]]
    (Some CNN) None 0 =
    match Some CNN,
          find pooling_wo_spacial_size
            (rev [stem_conv; mk_node 2 "GlobalAveragePool" "ReduceMean"
                               [[Some 1; Some 16; Some 1; Some 1]] [mk_input [] 1 0]]) with
    | Some CNN, Some n => Ok [n]
    | _, _ =>
        Raise (RuntimeError
          "Cannot find first head node in auto mode, please explicitly provide input parameters.")
    end.
Proof.
  apply (get_post_target_node_automatic
           [stem_conv; mk_node 2 "GlobalAveragePool" "ReduceMean"
                         [[Some 1; Some 16; Some 1; Some 1]] [mk_input [] 1 0]]
           (Some CNN) 0).
  repeat constructor.
  - intros H. discriminate H.
  - intros _. now exists (Some 1), 16, 1, 1, [], [].
Defined.

End ParseModelSearch.

(** ** Constant maps, NaN and the independence of the maps *)

Module ScalingMaps.
Import ScalingFacts.
Section WithPlatform.

Variable platform_cast : spec_float -> Z.

Abbreviation to_uint8 := (Scaling.to_uint8 platform_cast).
Abbreviation scaling := (Scaling.scaling platform_cast).
Abbreviation scaling_with := (Scaling.scaling_with platform_cast).

Lemma fold_fmin_repeat (v : spec_float) (k : nat) :
  fold_left Scaling.fmin (repeat v k) v = v.
Proof.
  induction k as [|k IH]; [reflexivity|]. cbn [repeat fold_left].
  replace (Scaling.fmin v v) with v; [exact IH|].
  unfold Scaling.fmin. now destruct (_ || _).
Qed.

Lemma fold_fmax_repeat (v : spec_float) (k : nat) :
  fold_left Scaling.fmax (repeat v k) v = v.
Proof.
  induction k as [|k IH]; [reflexivity|]. cbn [repeat fold_left].
  replace (Scaling.fmax v v) with v; [exact IH|].
  unfold Scaling.fmax. now destruct (_ || _).
Qed.

Lemma scale_elem_constant (v : spec_float) :
  Float32.is_finite v = true ->
  Scaling.scale_elem 255 v v v = S754_zero false.
Proof.
  intros Hv. unfold Scaling.scale_elem. now rewrite (sub_self v Hv).
Qed.

Lemma scale_row_constant (v : spec_float) (k : nat) :
  Float32.is_finite v = true ->
  scale_row 255 (repeat v (S k)) = repeat (S754_zero false) (S k).
Proof.
  intros Hv. unfold scale_row, row_min, row_max. cbn [repeat].
  rewrite fold_fmin_repeat, fold_fmax_repeat.
  change (v :: repeat v k) with (repeat v (S k)).
  rewrite map_repeat. now rewrite scale_elem_constant.
Qed.

(** The rows of the values [scaling] computes are the scaled rows. *)
Lemma rows_of_scaled_values (max_value : Z) (n len : nat) (b : buffer) :
  buffer_length b = (n * len)%nat ->
  rows_of n len (scaled_values max_value n len b)
  = map (scale_row max_value) (rows_of n len (astype_float32 b)).
Proof.
  intros Hl. unfold scaled_values.
  rewrite rows_of_concat; [reflexivity | |].
  - now rewrite length_map, rows_of_length.
  - apply Forall_map. eapply Forall_impl; [|apply rows_of_row_length].
    + intros r Hr. unfold scale_row. now rewrite !length_map.
    + now rewrite length_astype_float32.
Qed.

Lemma nth_rows_scaled (max_value : Z) (n len i : nat) (b : buffer) :
  buffer_length b = (n * len)%nat -> (i < n)%nat ->
  nth i (rows_of n len (scaled_values max_value n len b)) []
  = scale_row max_value (nth i (rows_of n len (astype_float32 b)) []).
Proof.
  intros Hl Hi. rewrite rows_of_scaled_values by exact Hl.
  rewrite (nth_indep _ [] (scale_row max_value [])) by now rewrite length_map, rows_of_length.
  apply map_nth.
Qed.

Lemma nth_rows_map {A B : Type} (f : A -> B) (n len i : nat) (l : list A) :
  nth i (rows_of n len (map f l)) [] = map f (nth i (rows_of n len l) []).
Proof.
  rewrite rows_of_map.
  destruct (Nat.lt_ge_cases i (List.length (rows_of n len l))) as [Hi | Hi].
  - rewrite (nth_indep _ [] (map f [])) by now rewrite length_map.
    apply map_nth.
  - rewrite !nth_overflow; [reflexivity | exact Hi | now rewrite length_map].
Qed.

(** X18: A map all of whose values are one finite number is scaled to zeros,
    as bytes and as floats: the epsilon in the denominator keeps the
    division from being 0 / 0. *)
Theorem scaling_constant_map_is_zero (a : ndarray) (i : nat) (v : spec_float) :
  buffer_length (data a) = numel (shape a) ->
  regular_shape (shape a) = true ->
  (i < num_maps (shape a))%nat ->
  Float32.is_finite v = true ->
  nth i (rows_of (num_maps (shape a)) (map_len (shape a)) (astype_float32 (data a))) []
    = repeat v (map_len (shape a)) ->
  exists d' f',
    scaling a = Ok (mk_ndarray (shape a) (U8 d')) /\
    nth i (rows_of (num_maps (shape a)) (map_len (shape a)) d') []
      = repeat 0 (map_len (shape a)) /\
    scaling_with a false 255 = Ok (mk_ndarray (shape a) (F32 f')) /\
    nth i (rows_of (num_maps (shape a)) (map_len (shape a)) f') []
      = repeat (S754_zero false) (map_len (shape a)).
Proof.
  intros Hl Hs Hi Hv Hrow.
  destruct (regular_shape_numel _ Hs) as [Hn Hpos].
  set (n := num_maps (shape a)) in *. set (len := map_len (shape a)) in *.
  assert (Hl' : buffer_length (data a) = (n * len)%nat) by exact (eq_trans Hl Hn).
  do 2 eexists.
  unfold Scaling.scaling.
  rewrite !(scaling_with_regular platform_cast a _ 255 Hl Hs).
  fold n len.
  assert (Hz : nth i (rows_of n len (scaled_values 255 n len (data a))) []
               = repeat (S754_zero false) len).
  { rewrite nth_rows_scaled by assumption. rewrite Hrow.
    destruct len as [|k]; [lia|]. now apply scale_row_constant. }
  split; [reflexivity|]. split; [|split; [reflexivity | exact Hz]].
  rewrite nth_rows_map, Hz, map_repeat. reflexivity.
Qed.

Lemma fold_fmin_nan (tl : list spec_float) (x : spec_float) :
  x = S754_nan \/ In S754_nan tl -> fold_left Scaling.fmin tl x = S754_nan.
Proof.
  revert x. induction tl as [|y tl IH]; intros x [Hx | Hin]; cbn [fold_left].
  - exact Hx.
  - destruct Hin.
  - apply IH. left. now subst.
  - apply IH. destruct Hin as [-> | Hin]; [left | now right].
    unfold Scaling.fmin. destruct x as [[]|[]| |[] m e]; reflexivity.
Qed.

Lemma row_min_nan (row : list spec_float) :
  In S754_nan row -> row_min row = S754_nan.
Proof.
  destruct row as [|x tl]; [contradiction|]. intros [-> | Hin].
  - apply fold_fmin_nan. now left.
  - apply fold_fmin_nan. now right.
Qed.

Lemma scale_elem_nan (max_value : Z) (mx x : spec_float) :
  Scaling.scale_elem max_value S754_nan mx x = S754_nan.
Proof.
  unfold Scaling.scale_elem.
  replace (Float32.sub x S754_nan) with S754_nan
    by now destruct x as [[]|[]| |[] m e].
  replace (Float32.mul (Float32.of_Z max_value) S754_nan) with S754_nan
    by now destruct (Float32.of_Z max_value) as [[]|[]| |[] m e].
  reflexivity.
Qed.

(** X19: One NaN in a map makes every scaled value of that map NaN, for
    every [max_value] of at most sixteen bits: the minimum of the map is
    NaN.  After the cast all bytes of the map are the one byte the
    platform gives for NaN. *)
Theorem scaling_nan_poisons_map (a : ndarray) (i : nat) (max_value : Z) :
  Scaling.float32_scalar max_value = true ->
  buffer_length (data a) = numel (shape a) ->
  regular_shape (shape a) = true ->
  (i < num_maps (shape a))%nat ->
  In S754_nan
    (nth i (rows_of (num_maps (shape a)) (map_len (shape a)) (astype_float32 (data a))) []) ->
  exists d' f',
    scaling_with a false max_value = Ok (mk_ndarray (shape a) (F32 f')) /\
    nth i (rows_of (num_maps (shape a)) (map_len (shape a)) f') []
      = repeat S754_nan (map_len (shape a)) /\
    scaling_with a true max_value = Ok (mk_ndarray (shape a) (U8 d')) /\
    nth i (rows_of (num_maps (shape a)) (map_len (shape a)) d') []
      = repeat (to_uint8 S754_nan) (map_len (shape a)).
Proof.
  intros _ Hl Hs Hi Hnan.
  destruct (regular_shape_numel _ Hs) as [Hn Hpos].
  set (n := num_maps (shape a)) in *. set (len := map_len (shape a)) in *.
  assert (Hl' : buffer_length (data a) = (n * len)%nat) by exact (eq_trans Hl Hn).
  do 2 eexists.
  rewrite !(scaling_with_regular platform_cast a _ max_value Hl Hs).
  fold n len.
  assert (Hz : nth i (rows_of n len (scaled_values max_value n len (data a))) []
               = repeat S754_nan len).
  { rewrite nth_rows_scaled by assumption.
    set (row := nth i (rows_of n len (astype_float32 (data a))) []) in *.
    assert (Hrl : List.length row = len).
    { pose proof (rows_of_row_length n len (astype_float32 (data a))) as H.
      rewrite length_astype_float32 in H. specialize (H Hl').
      rewrite Forall_forall in H. apply H. apply nth_In.
      now rewrite rows_of_length. }
    unfold scale_row. rewrite (row_min_nan row Hnan).
    rewrite <- Hrl. generalize (row_max row) as mx. intros mx.
    clear. induction row as [|x row IH]; [reflexivity|].
    cbn [map List.length repeat]. now rewrite scale_elem_nan, IH. }
  split; [reflexivity|]. split; [exact Hz|]. split; [reflexivity|].
  rewrite nth_rows_map, Hz, map_repeat. reflexivity.
Qed.

Lemma rows_of_app {A : Type} (n1 n2 len : nat) (l1 l2 : list A) :
  List.length l1 = (n1 * len)%nat ->
  rows_of (n1 + n2) len (l1 ++ l2) = rows_of n1 len l1 ++ rows_of n2 len l2.
Proof.
  revert l1. induction n1 as [|n1 IH]; intros l1 Hl.
  - destruct l1; [reflexivity | discriminate Hl].
  - cbn [Nat.add rows_of app].
    assert (Hlen : (len <= List.length l1)%nat) by lia.
    rewrite firstn_app, skipn_app.
    replace (len - List.length l1)%nat with 0%nat by lia.
    cbn [firstn skipn]. rewrite app_nil_r. f_equal.
    apply IH. rewrite length_skipn. lia.
Qed.

Lemma astype_float32_app (b1 b2 : buffer) :
  buffer_rank b1 = buffer_rank b2 ->
  astype_float32 (buffer_app b1 b2) = astype_float32 b1 ++ astype_float32 b2.
Proof.
  destruct b1, b2; try discriminate; intros _; cbn; now rewrite ?map_app.
Qed.

Lemma buffer_length_app (b1 b2 : buffer) :
  buffer_rank b1 = buffer_rank b2 ->
  buffer_length (buffer_app b1 b2) = (buffer_length b1 + buffer_length b2)%nat.
Proof.
  destruct b1, b2; try discriminate; intros _; cbn; now rewrite length_app.
Qed.

Lemma scaled_values_app (max_value : Z) (n1 n2 len : nat) (b1 b2 : buffer) :
  buffer_rank b1 = buffer_rank b2 ->
  buffer_length b1 = (n1 * len)%nat ->
  scaled_values max_value (n1 + n2) len (buffer_app b1 b2)
  = scaled_values max_value n1 len b1 ++ scaled_values max_value n2 len b2.
Proof.
  intros Hr Hl. unfold scaled_values.
  rewrite astype_float32_app by exact Hr.
  rewrite rows_of_app by now rewrite length_astype_float32.
  now rewrite map_app, concat_app.
Qed.

(** X20: The maps of a stack are scaled independently of one another: scaling
    two stacks laid end to end gives the two scaled stacks laid end to
    end, for every [max_value] of at most sixteen bits. *)
Theorem scaling_maps_independent
    (n1 n2 h w : nat) (b1 b2 : buffer) (cast_to_uint8 : bool) (max_value : Z) :
  Scaling.float32_scalar max_value = true ->
  buffer_rank b1 = buffer_rank b2 ->
  buffer_length b1 = (n1 * (h * w))%nat ->
  buffer_length b2 = (n2 * (h * w))%nat ->
  (0 < h * w)%nat ->
  exists r1 r2,
    scaling_with (mk_ndarray [n1; h; w] b1) cast_to_uint8 max_value
      = Ok (mk_ndarray [n1; h; w] r1) /\
    scaling_with (mk_ndarray [n2; h; w] b2) cast_to_uint8 max_value
      = Ok (mk_ndarray [n2; h; w] r2) /\
    scaling_with (mk_ndarray [(n1 + n2)%nat; h; w] (buffer_app b1 b2))
      cast_to_uint8 max_value
      = Ok (mk_ndarray [(n1 + n2)%nat; h; w] (buffer_app r1 r2)).
Proof.
  intros _ Hr Hl1 Hl2 Hpos. do 2 eexists.
  rewrite (scaling_with_3d platform_cast _ n1 h w) by (trivial; reflexivity).
  rewrite (scaling_with_3d platform_cast _ n2 h w) by (trivial; reflexivity).
  rewrite (scaling_with_3d platform_cast _ (n1 + n2) h w);
    [|reflexivity | cbn [data]; rewrite buffer_length_app by exact Hr; lia | exact Hpos].
  split; [reflexivity|]. split; [reflexivity|]. cbn [data].
  rewrite scaled_values_app by assumption.
  destruct cast_to_uint8; cbn [buffer_app]; now rewrite ?map_app.
Qed.

End WithPlatform.

Lemma scaling_constant_map_is_zero_witness :
  exists d' f',
    Scaling.scaling x86_cast (mk_ndarray [1; 2; 2]%nat (U8 [7; 7; 7; 7]))
      = Ok (mk_ndarray [1; 2; 2]%nat (U8 d')) /\
    nth 0 (rows_of 1 4 d') [] = repeat 0 4 /\
    Scaling.scaling_with x86_cast (mk_ndarray [1; 2; 2]%nat (U8 [7; 7; 7; 7])) false 255
      = Ok (mk_ndarray [1; 2; 2]%nat (F32 f')) /\
    nth 0 (rows_of 1 4 f') [] = repeat (S754_zero false) 4.
Proof.
  apply (scaling_constant_map_is_zero x86_cast
           (mk_ndarray [1; 2; 2]%nat (U8 [7; 7; 7; 7])) 0 (Float32.of_Z 7));
    try reflexivity.
  simpl. lia.
Defined.

Lemma scaling_nan_poisons_map_witness :
  exists d' f',
    Scaling.scaling_with x86_cast
      (mk_ndarray [1; 1; 2]%nat (F32 [S754_nan; Float32.of_Z 3])) false 255
      = Ok (mk_ndarray [1; 1; 2]%nat (F32 f')) /\
    nth 0 (rows_of 1 2 f') [] = repeat S754_nan 2 /\
    Scaling.scaling_with x86_cast
      (mk_ndarray [1; 1; 2]%nat (F32 [S754_nan; Float32.of_Z 3])) true 255
      = Ok (mk_ndarray [1; 1; 2]%nat (U8 d')) /\
    nth 0 (rows_of 1 2 d') [] = repeat (Scaling.to_uint8 x86_cast S754_nan) 2.
Proof.
  apply (scaling_nan_poisons_map x86_cast
           (mk_ndarray [1; 1; 2]%nat (F32 [S754_nan; Float32.of_Z 3])) 0 255);
    try reflexivity.
  - simpl. lia.
  - simpl. now left.
Defined.

Lemma scaling_maps_independent_witness :
  exists r1 r2,
    Scaling.scaling_with x86_cast (mk_ndarray [1; 1; 2]%nat (U8 [0; 9])) true 255
      = Ok (mk_ndarray [1; 1; 2]%nat r1) /\
    Scaling.scaling_with x86_cast (mk_ndarray [1; 1; 2]%nat (U8 [4; 5])) true 255
      = Ok (mk_ndarray [1; 1; 2]%nat r2) /\
    Scaling.scaling_with x86_cast
      (mk_ndarray [(1 + 1)%nat; 1; 2]%nat (buffer_app (U8 [0; 9]) (U8 [4; 5]))) true 255
      = Ok (mk_ndarray [(1 + 1)%nat; 1; 2]%nat (buffer_app r1 r2)).
Proof.
  apply (scaling_maps_independent x86_cast 1 1 1 2 (U8 [0; 9]) (U8 [4; 5]) true 255);
    try reflexivity.
  simpl. lia.
Defined.

End ScalingMaps.

(** ** Stacking the maps of an explanation and taking them apart again *)

Module StackFacts.













End StackFacts.

(** ** What [Visualizer.visualize] does to the dictionary of maps *)

Module VisualizerFacts.
Import StackFacts ScalingFacts.
Section WithOpenCV.

Variable platform_cast : spec_float -> Z.
Variable metadata_t : Type.
Variable draw_metadata : metadata_t -> ndarray -> list Visualizer.key -> result ndarray.
Variable resize : ndarray -> nat * nat -> result ndarray.
Variable cv2_resize : ndarray -> nat * nat -> result ndarray.
Variable applyColorMap : ndarray -> result ndarray.
Variable cvtColor_BGR2RGB : ndarray -> result ndarray.
Variable weight : Type.
Variable overlay : ndarray -> ndarray -> weight -> result ndarray.
Variable transpose_to_bhwc : buffer -> list nat -> buffer.

Abbreviation Explanation := (Visualizer.Explanation metadata_t).
Abbreviation mk_explanation := (Visualizer.mk_explanation metadata_t).
Abbreviation layout := (Visualizer.layout metadata_t).
Abbreviation saliency_map := (Visualizer.saliency_map metadata_t).
Abbreviation metadata := (Visualizer.metadata metadata_t).
Abbreviation format_to_bhwc := (Visualizer.format_to_bhwc transpose_to_bhwc).
Abbreviation visualize :=
  (Visualizer.visualize platform_cast metadata_t draw_metadata resize cv2_resize
     applyColorMap cvtColor_BGR2RGB weight overlay transpose_to_bhwc).


Ltac run :=
  unfold Visualizer.visualize, Visualizer._update_explanation_with_processed_sal_map,
    Visualizer._apply_resize, Visualizer._apply_scaling,
    Visualizer.bindM, Visualizer.lift, Visualizer.ret, Visualizer.raise,
    Visualizer.get_layout, Visualizer.set_saliency_map.


(** X22: When the maps can be stacked, asking for the overlay without an image,
    or for the resize with neither an image nor an output size, raises
    [ValueError] and leaves the explanation as it was. *)
Theorem visualize_missing_input
    (output_size : option (nat * nat)) (scaling resize_flag colormap_flag : bool)
    (w : weight) (e : Explanation) (a : ndarray) :
  stack (map snd (saliency_map e)) = Ok a ->
  visualize None output_size scaling resize_flag colormap_flag true w e
    = (Raise (ValueError "Input data has to be provided for overlay."), e) /\
  visualize None None scaling true colormap_flag false w e
    = (Raise (ValueError
         "Input data or output_size has to be provided for resize (for target size estimation)."),
       e).
Proof.
  intros Hst. split; run; rewrite Hst; cbn [fst snd andb negb];
    rewrite ?andb_false_r; reflexivity.
Qed.

(** The [scaling] flag is read only when neither resize nor overlay is
    asked for: with one of them the call does the same with the flag on
    and off. *)
Theorem visualize_scaling_flag_unread
    (image : option ndarray) (output_size : option (nat * nat))
    (resize_flag colormap_flag overlay_flag : bool) (w : weight) (e : Explanation) :
  resize_flag || overlay_flag = true ->
  visualize image output_size true resize_flag colormap_flag overlay_flag w e =
  visualize image output_size false resize_flag colormap_flag overlay_flag w e.
Proof.
  intros H. unfold Visualizer.visualize.
  destruct resize_flag, overlay_flag; try discriminate H; reflexivity.
Qed.

Lemma scaling_returns_bytes (m b : ndarray) :
  Scaling.scaling platform_cast m = Ok b ->
  exists d, data b = U8 d /\ Forall (fun v => 0 <= v <= 255) d.
Proof.
  unfold Scaling.scaling, Scaling.scaling_with.
  destruct (if Nat.eqb _ 2 then _ else _) as [|n [|h [|w' [|x l]]]]; try discriminate.
  destruct (Scaling.get_min_max _) as [[mins maxs]|x]; [|discriminate].
  cbn [bind]. intros [= <-]. eexists. split; [reflexivity|].
  apply Forall_map, Forall_forall. intros x _. apply to_uint8_range.
Qed.

Definition byte_map (a : ndarray) : Prop :=
  exists d, data a = U8 d /\ Forall (fun v => 0 <= v <= 255) d.

Lemma unstack_bytes (a : ndarray) (l : list ndarray) :
  byte_map a -> unstack a = Ok l -> Forall byte_map l.
Proof.
  intros [d [Hd Hb]] H. unfold unstack in H.
  destruct (shape a) as [|n rest]; [discriminate H|].
  injection H as <-. rewrite Hd. cbn [buffer_rows]. rewrite map_map.
  apply Forall_map.
  eapply Forall_impl; [|apply (rows_of_Forall _ n (numel rest) d Hb)].
  intros row Hrow. exists row. now split.
Qed.

Lemma Forall_combine_snd {A B : Type} (P : B -> Prop) (ks : list A) (l : list B) :
  Forall P l -> Forall (fun km => P (snd km)) (combine ks l).
Proof.
  intros H. revert ks. induction H as [|x l Hx _ IH]; intros [|k ks]; cbn;
    constructor; [exact Hx | apply IH].
Qed.

(** The size [_apply_resize] resizes to. *)
Definition target_size (image : option ndarray) (output_size : option (nat * nat))
    : result (nat * nat) :=
  match output_size, image with
  | Some s, _ => Ok s
  | None, Some im => Visualizer.infer_size_from_image im
  | None, None => Raise (AttributeError "'NoneType' object has no attribute 'ndim'")
  end.

Lemma _apply_resize_spec (m : ndarray) (image : option ndarray)
    (output_size : option (nat * nat)) (e : Explanation) :
  Visualizer._apply_resize platform_cast metadata_t resize m image output_size e =
    if negb (Visualizer.GRAY_LAYOUTS (layout e)) then
      (Raise (ValueError "Saliency map to resize has to be grayscale."), e)
    else
      match target_size image output_size with
      | Ok size =>
          match resize m size with
          | Ok m1 => (Scaling.scaling platform_cast m1, e)
          | Raise x => (Raise x, e)
          end
      | Raise x => (Raise x, e)
      end.
Proof.
  run. unfold target_size.
  destruct (Visualizer.GRAY_LAYOUTS (layout e)) eqn:G; cbn [negb]; [|reflexivity].
  destruct output_size as [sz|], image as [im|]; cbn [fst snd];
    try destruct (Visualizer.infer_size_from_image im) as [sz|x]; try reflexivity;
    destruct (resize m sz); try reflexivity; now rewrite G.
Qed.

Lemma _update_spec (m : ndarray) (keys : list Visualizer.key) (e : Explanation) :
  Visualizer._update_explanation_with_processed_sal_map metadata_t m keys e =
    if Visualizer.ONE_MAP_LAYOUTS (layout e) then
      match index0 m with
      | Ok first =>
          (Ok tt, mk_explanation (layout e) [(Visualizer.KStr "per_image_map", first)]
                    (metadata e))
      | Raise x => (Raise x, e)
      end
    else if Visualizer.MULTIPLE_MAP_LAYOUTS (layout e) then
      match unstack m with
      | Ok maps => (Ok tt, mk_explanation (layout e) (combine keys maps) (metadata e))
      | Raise x => (Raise x, e)
      end
    else (Raise (ValueError ""), e).
Proof.
  run. destruct (Visualizer.ONE_MAP_LAYOUTS (layout e)).
  - now destruct (index0 m).
  - destruct (Visualizer.MULTIPLE_MAP_LAYOUTS (layout e)); [|reflexivity].
    now destruct (unstack m).
Qed.

(** The image once formatted. *)
Definition formatted (image : option ndarray) : result (option ndarray) :=
  match image with
  | Some im => let* im' := format_to_bhwc im in Ok (Some im')
  | None => Ok None
  end.

Lemma visualize_resize_only
    (image : option ndarray) (output_size : option (nat * nat)) (scaling : bool)
    (w : weight) (e : Explanation) :
  visualize image output_size scaling true false false w e =
    match formatted image with
    | Raise x => (Raise x, e)
    | Ok image' =>
        match stack (map snd (saliency_map e)) with
        | Raise x => (Raise x, e)
        | Ok m0 =>
            match image', output_size with
            | None, None =>
                (Raise (ValueError
                   "Input data or output_size has to be provided for resize (for target size estimation)."),
                 e)
            | _, _ =>
                match Visualizer._apply_resize platform_cast metadata_t resize m0
                        image' output_size e with
                | (Ok m1, e1) =>
                    Visualizer._update_explanation_with_processed_sal_map metadata_t m1
                      (map fst (saliency_map e)) e1
                | (Raise x, e1) => (Raise x, e1)
                end
            end
        end
    end.
Proof.
  unfold Visualizer.visualize, formatted.
  unfold Visualizer.bindM at 1.
  destruct image as [im|].
  - unfold Visualizer.bindM at 1, Visualizer.lift at 1.
    destruct (format_to_bhwc im) as [im'|x]; cbn [bind]; [|reflexivity].
    unfold Visualizer.ret at 1. unfold Visualizer.bindM at 1, Visualizer.lift at 1.
    destruct (stack _) as [m0|x]; [|reflexivity].
    rewrite andb_false_r. cbn [andb].
    unfold Visualizer.bindM at 1, Visualizer.ret at 1.
    unfold Visualizer.bindM at 1. unfold Visualizer.bindM at 1.
    destruct output_size as [sz|];
      destruct (Visualizer._apply_resize _ _ _ _ _ _ e) as [[m1|x] e1]; reflexivity.
  - unfold Visualizer.ret at 1. unfold Visualizer.bindM at 1, Visualizer.lift at 1.
    destruct (stack _) as [m0|x]; [|reflexivity].
    rewrite andb_false_r. cbn [andb].
    unfold Visualizer.bindM at 1, Visualizer.ret at 1.
    unfold Visualizer.bindM at 1. unfold Visualizer.bindM at 1.
    destruct output_size as [sz|]; [|reflexivity].
    destruct (Visualizer._apply_resize _ _ _ _ _ _ e) as [[m1|x] e1]; reflexivity.
Qed.

(** X23: After a successful [visualize] with the resize and without colormap
    and overlay, the layout is the one found and every map stored is a
    uint8 array, whether or not [scaling] was asked for: the resize is
    always followed by the scaling. *)
Theorem visualize_resize_gives_bytes
    (image : option ndarray) (output_size : option (nat * nat)) (scaling : bool)
    (w : weight) (e e' : Explanation) :
  visualize image output_size scaling true false false w e = (Ok tt, e') ->
  layout e' = layout e /\
  metadata e' = metadata e /\
  Forall (fun km => byte_map (snd km)) (saliency_map e').
Proof.
  rewrite visualize_resize_only.
  destruct (formatted image) as [image'|x]; [|discriminate].
  destruct (stack _) as [m0|x]; [|discriminate].
  assert (Hstep :
    match Visualizer._apply_resize platform_cast metadata_t resize m0 image' output_size e with
    | (Ok m1, e1) =>
        Visualizer._update_explanation_with_processed_sal_map metadata_t m1
          (map fst (saliency_map e)) e1
    | (Raise x, e1) => (Raise x, e1)
    end = (Ok tt, e') ->
    layout e' = layout e /\ metadata e' = metadata e /\
    Forall (fun km => byte_map (snd km)) (saliency_map e')).
  { rewrite _apply_resize_spec.
    destruct (negb (Visualizer.GRAY_LAYOUTS (layout e))); [discriminate|].
    destruct (target_size image' output_size) as [sz|x]; [|discriminate].
    destruct (resize m0 sz) as [m1|x]; [|discriminate].
    destruct (Scaling.scaling platform_cast m1) as [m2|x] eqn:Esc; [|discriminate].
    apply scaling_returns_bytes in Esc. rewrite _update_spec.
    destruct (Visualizer.ONE_MAP_LAYOUTS (layout e)).
    - unfold index0.
      destruct (unstack m2) as [l|x] eqn:Eu; cbn [bind]; [|discriminate].
      pose proof (unstack_bytes m2 l Esc Eu) as Hl.
      destruct l as [|first l]; [discriminate|].
      intros [= <-]. cbn. repeat split. constructor; [|constructor].
      now inversion Hl.
    - destruct (Visualizer.MULTIPLE_MAP_LAYOUTS (layout e)); [|discriminate].
      destruct (unstack m2) as [l|x] eqn:Eu; [|discriminate].
      pose proof (unstack_bytes m2 l Esc Eu) as Hl.
      intros [= <-]. cbn. repeat split. now apply Forall_combine_snd. }
  destruct image' as [im|], output_size as [sz|]; try exact Hstep. discriminate.
Qed.








End WithOpenCV.
End VisualizerFacts.

(** *** A small explanation to run the visualizer on *)

Module VisualizerExample.
Import StackFacts VisualizerFacts.

(** The image operations are replaced by the identity. *)
Definition toy_visualize :=
  Visualizer.visualize x86_cast unit (fun _ m _ => Ok m) (fun m _ => Ok m)
    (fun m _ => Ok m) (fun m => Ok m) (fun m => Ok m) unit (fun m _ _ => Ok m)
    (fun d _ => d).

Definition two_maps : list (Visualizer.key * ndarray) :=
  [(Visualizer.KInt 3, mk_ndarray [2; 2]%nat (U8 [0; 1; 2; 3]));
   (Visualizer.KInt 7, mk_ndarray [2; 2]%nat (U8 [5; 5; 5; 9]))].

Definition toy_explanation : Visualizer.Explanation unit :=
  Visualizer.mk_explanation unit Visualizer.MULTIPLE_MAPS_PER_IMAGE_GRAY two_maps None.


Lemma visualize_missing_input_witness :
  toy_visualize None (Some (4, 4)%nat) true true true true tt toy_explanation
    = (Raise (ValueError "Input data has to be provided for overlay."), toy_explanation) /\
  toy_visualize None None true true true false tt toy_explanation
    = (Raise (ValueError
         "Input data or output_size has to be provided for resize (for target size estimation)."),
       toy_explanation).
Proof.
  apply (visualize_missing_input x86_cast unit (fun _ m _ => Ok m) (fun m _ => Ok m)
           (fun m _ => Ok m) (fun m => Ok m) (fun m => Ok m) unit (fun m _ _ => Ok m)
           (fun d _ => d) (Some (4, 4)%nat) true true true tt toy_explanation
           (mk_ndarray [2; 2; 2]%nat (U8 [0; 1; 2; 3; 5; 5; 5; 9]))).
  reflexivity.
Defined.

Lemma visualize_scaling_flag_unread_witness :
  toy_visualize None (Some (2, 2)%nat) true true false false tt toy_explanation =
  toy_visualize None (Some (2, 2)%nat) false true false false tt toy_explanation.
Proof.
  apply (visualize_scaling_flag_unread x86_cast unit (fun _ m _ => Ok m) (fun m _ => Ok m)
           (fun m _ => Ok m) (fun m => Ok m) (fun m => Ok m) unit (fun m _ _ => Ok m)
           (fun d _ => d) None (Some (2, 2)%nat) true false false tt toy_explanation).
  reflexivity.
Defined.

Definition toy_resized : Visualizer.Explanation unit :=
  Eval vm_compute in
    snd (toy_visualize None (Some (2, 2)%nat) false true false false tt toy_explanation).

Lemma visualize_resize_gives_bytes_witness :
  Visualizer.layout unit toy_resized = Visualizer.layout unit toy_explanation /\
  Visualizer.metadata unit toy_resized = Visualizer.metadata unit toy_explanation /\
  Forall (fun km => byte_map (snd km)) (Visualizer.saliency_map unit toy_resized).
Proof.
  apply (visualize_resize_gives_bytes x86_cast unit (fun _ m _ => Ok m) (fun m _ => Ok m)
           (fun m _ => Ok m) (fun m => Ok m) (fun m => Ok m) unit (fun m _ _ => Ok m)
           (fun d _ => d) None (Some (2, 2)%nat) false tt toy_explanation toy_resized).
  vm_compute. reflexivity.
Defined.


End VisualizerExample.

(** ** More on RISE *)

Module RiseFacts.
Section WithNumpy.

Variable tensor : Type.
Variable scalar : Type.
Variable prob_t : Type.
Variable np_ceil_div : nat -> Z -> scalar.
Variable np_uint32_times : Z -> scalar -> Z.
Variable np_less : tensor -> prob_t -> tensor.
Variable astype_float32 : tensor -> tensor.
Variable cv2_resize_cubic : tensor -> Z * Z -> result tensor.
Variable slice2 : tensor -> Z * Z -> Z * Z -> tensor.
Variable np_clip01 : tensor -> tensor.
Variable iter_first_axis : tensor -> list tensor.
Variable generator : Type.
Variable rng_random : Z * Z -> generator -> result (tensor * generator).
Variable rng_integers : Z -> scalar -> generator -> result (Z * generator).

Abbreviation mask_sequence :=
  (Rise.mask_sequence tensor scalar prob_t np_ceil_div np_uint32_times np_less
     astype_float32 cv2_resize_cubic slice2 np_clip01 generator rng_random rng_integers).
Abbreviation _generate_mask :=
  (Rise._generate_mask tensor scalar prob_t np_ceil_div np_uint32_times np_less
     astype_float32 cv2_resize_cubic slice2 np_clip01 generator rng_random rng_integers).
Abbreviation _reformat_as_dict := (Rise._reformat_as_dict tensor iter_first_axis).
Abbreviation dict_set := (Rise.dict_set tensor).

(** *** Longer runs *)

Lemma mask_sequence_S (n : nat) (input_size : nat * nat) (num_cells : Z) (prob : prob_t)
    (g : generator) :
  mask_sequence (S n) input_size num_cells prob g =
    match _generate_mask input_size num_cells prob g with
    | Ok (mask, g1) =>
        match mask_sequence n input_size num_cells prob g1 with
        | Ok (masks, g2) => Ok (mask :: masks, g2)
        | Raise e => Raise e
        end
    | Raise e => Raise e
    end.
Proof.
  cbn [Rise.mask_sequence]. unfold Rise.bindG at 1.
  destruct (_generate_mask input_size num_cells prob g) as [[mask g1]|e]; [|reflexivity].
  unfold Rise.bindG, Rise.retG.
  now destruct (mask_sequence n input_size num_cells prob g1) as [[masks g2]|e].
Qed.

(** X25: The masks of a run with n + k masks begin with the masks of the run
    with n masks from the same generator state; the other k are the
    masks of a run of k masks from the state the shorter run ends in. *)
Theorem mask_sequence_extends
    (n k : nat) (input_size : nat * nat) (num_cells : Z) (prob : prob_t)
    (g g2 : generator) (masks : list tensor) :
  mask_sequence (n + k) input_size num_cells prob g = Ok (masks, g2) ->
  exists g1,
    mask_sequence n input_size num_cells prob g = Ok (firstn n masks, g1) /\
    mask_sequence k input_size num_cells prob g1 = Ok (skipn n masks, g2).
Proof.
  revert g masks. induction n as [|n IH]; intros g masks H.
  - exists g. split; [reflexivity | exact H].
  - cbn [Nat.add] in H. rewrite mask_sequence_S in H. rewrite mask_sequence_S.
    destruct (_generate_mask input_size num_cells prob g) as [[mask g0]|e];
      [|discriminate H].
    destruct (mask_sequence (n + k) input_size num_cells prob g0) as [[rest g3]|e] eqn:E;
      [|discriminate H].
    injection H as <- <-.
    destruct (IH _ _ E) as [g1 [H1 H2]]. exists g1.
    rewrite H1. split; [reflexivity | exact H2].
Qed.

(** *** The dictionary of the targets *)

Definition keys (d : list (Z * tensor)) : list Z := map fst d.

Lemma dict_set_keys (d : list (Z * tensor)) (k : Z) (v : tensor) :
  NoDup (keys d) ->
  NoDup (keys (dict_set d k v)) /\
  forall k' v', In (k', v') (dict_set d k v) <->
                (k' = k /\ v' = v) \/ (k' <> k /\ In (k', v') d).
Proof.
  induction d as [|[k0 v0] d IH]; intros Hd.
  - cbn. split; [repeat constructor; intros [] |].
    intros k' v'. split.
    + intros [[= <- <-] | []]. now left.
    + intros [[-> ->] | [_ []]]. now left.
  - cbn [Rise.dict_set]. inversion Hd as [|? ? Hk0 Hd']; subst.
    destruct (Z.eqb_spec k0 k) as [-> | NE].
    + split; [exact Hd|]. intros k' v'. cbn [In]. split.
      * intros [[= <- <-] | Hin]; [now left | right].
        split; [|now right]. intros ->. apply Hk0.
        unfold keys. now apply (in_map fst _ (k, v')).
      * intros [[-> ->] | [Hne [[= E _] | Hin]]]; [now left | congruence | now right].
    + destruct (IH Hd') as [IH1 IH2]. split.
      * cbn. constructor; [|exact IH1].
        intros Hin. apply in_map_iff in Hin as [[k1 v1] [E Hin]]. cbn in E. subst k1.
        apply IH2 in Hin as [[-> _] | [_ Hin]]; [congruence|].
        apply Hk0. unfold keys. now apply (in_map fst _ (k0, v1)).
      * intros k' v'. cbn [In]. rewrite IH2. split.
        -- intros [[= <- <-] | [H | [H1 H2]]]; auto.
        -- intros [H | [H1 [H2 | H2]]]; auto.
Qed.

Lemma fold_dict_set (pairs d : list (Z * tensor)) :
  NoDup (keys d) ->
  NoDup (keys (fold_left (fun d kv => dict_set d (fst kv) (snd kv)) pairs d)) /\
  forall k v,
    In (k, v) (fold_left (fun d kv => dict_set d (fst kv) (snd kv)) pairs d) <->
    (exists l1 l2, pairs = l1 ++ (k, v) :: l2 /\ ~ In k (keys l2)) \/
    (~ In k (keys pairs) /\ In (k, v) d).
Proof.
  revert d. induction pairs as [|[k0 v0] pairs IH]; intros d Hd.
  - cbn. split; [exact Hd|]. intros k v. split.
    + intros H. right. split; [intros [] | exact H].
    + intros [[l1 [l2 [E _]]] | [_ H]]; [now destruct l1 | exact H].
  - cbn [fold_left fst snd].
    destruct (dict_set_keys d k0 v0 Hd) as [Hd' Hset].
    destruct (IH _ Hd') as [IH1 IH2]. split; [exact IH1|].
    intros k v. rewrite IH2. split.
    + intros [[l1 [l2 [-> Hl2]]] | [Hk Hin]].
      * left. exists ((k0, v0) :: l1), l2. split; [reflexivity | exact Hl2].
      * apply Hset in Hin as [[-> ->] | [Hne Hin]].
        -- left. exists [], pairs. split; [reflexivity | exact Hk].
        -- right. split; [|exact Hin]. cbn. intros [E | H]; [congruence | contradiction].
    + intros [[l1 [l2 [E Hl2]]] | [Hk Hin]].
      * destruct l1 as [|p l1]; cbn in E; injection E as E1 E2.
        -- subst. right. split; [exact Hl2|]. apply Hset. now left.
        -- subst. left. now exists l1, l2.
      * right. cbn in Hk. split; [tauto|]. apply Hset. right. split; [|exact Hin].
        intros ->. tauto.
Qed.

(** X26: The dictionary [_reformat_as_dict] builds has one entry for every
    distinct target class, and the map kept for a class that is listed
    more than once is the one at its last position. *)
Theorem _reformat_as_dict_last_wins (saliency_maps : tensor) (target_classes : list Z) :
  NoDup (keys (_reformat_as_dict saliency_maps target_classes)) /\
  forall k v,
    In (k, v) (_reformat_as_dict saliency_maps target_classes) <->
    exists l1 l2,
      combine target_classes (iter_first_axis saliency_maps) = l1 ++ (k, v) :: l2 /\
      ~ In k (keys l2).
Proof.
  unfold Rise._reformat_as_dict.
  destruct (fold_dict_set (combine target_classes (iter_first_axis saliency_maps)) [])
    as [H1 H2]; [constructor|].
  split; [exact H1|]. intros k v. rewrite H2. split.
  - intros [H | [_ []]]. exact H.
  - intros H. now left.
Qed.

End WithNumpy.
End RiseFacts.

Lemma mask_sequence_extends_witness :
  exists g1,
    RiseExample.toy_mask_sequence 1 (4, 4)%nat 2 50 7 = Ok (firstn 1 [101; 11], g1) /\
    RiseExample.toy_mask_sequence 1 (4, 4)%nat 2 50 g1 = Ok (skipn 1 [101; 11], 220562521).
Proof.
  apply (RiseFacts.mask_sequence_extends Z Z Z RiseExample.toy_ceil_div Z.mul
           (fun t p => if t <? p then 1 else 0) (fun t => t) (fun t _ => Ok t)
           RiseExample.toy_slice (fun t => t) Z RiseExample.toy_random
           RiseExample.toy_integers 1 1 (4, 4)%nat 2 50 7 220562521 [101; 11]).
  vm_compute. reflexivity.
Defined.

(** ** Resizing in batches ([resize] of [explainer/visualizer.py]) *)

Module Resize.

(** [range(0, stop, step)] *)
Definition range_step (stop step : nat) : list nat :=
  map (fun i => (i * step)%nat) (seq 0 ((stop + step - 1) / step)).

Section WithOpenCV.

(** [cv2.resize], on a map of two axes and on an image of three axes
    H x W x k.  Such an image is given by the list of its k planes, so
    that [x[:, :, a:b]], [np.concatenate(..., axis=-1)] and the two
    transpositions that move the first axis to the end and back are
    operations on that list; a plane and the image of one plane that
    [cv2.resize] returns without its last axis are not told apart. *)
Variable cv2_resize_map : ndarray -> nat * nat -> result ndarray.
Variable cv2_resize : list ndarray -> nat * nat -> result (list ndarray).

Definition batch_size : nat := 500.

Definition reversed (output_size : nat * nat) : nat * nat :=
  (snd output_size, fst output_size).

Definition resize (saliency_map : ndarray) (output_size : nat * nat) : result ndarray :=
  match List.length (shape saliency_map) with
  | 2%nat => cv2_resize_map saliency_map (reversed output_size)
  | 3%nat =>
      let* x := unstack saliency_map in
      let channels := List.length x in
      let* resized_batches :=
        Scaling.map_result
          (fun start_idx =>
             let end_idx := Nat.min (start_idx + batch_size) channels in
             let batch := firstn (end_idx - start_idx) (skipn start_idx x) in
             cv2_resize batch (reversed output_size))
          (range_step channels batch_size) in
      match resized_batches with
      | [] => Raise (ValueError "need at least one array to concatenate")
      | _ => stack (List.concat resized_batches)
      end
  | _ => Raise (ValueError "axes don't match array")
  end.

Lemma range_step_bound (stop step s : nat) :
  (0 < step)%nat -> In s (range_step stop step) -> (s < stop)%nat.
Proof.
  intros Hstep Hin. unfold range_step in Hin.
  apply in_map_iff in Hin as [i [<- Hi]]. apply in_seq in Hi.
  assert (H : (i < (stop + step - 1) / step)%nat) by lia.
  assert (H1 : (S i <= (stop + step - 1) / step)%nat) by lia.
  pose proof (Nat.div_mod_eq (stop + step - 1) step) as E.
  pose proof (Nat.mod_upper_bound (stop + step - 1) step ltac:(lia)) as Hm.
  nia.
Qed.

Lemma range_step_nil (stop step : nat) :
  (0 < step)%nat -> range_step stop step = [] -> stop = 0%nat.
Proof.
  intros Hstep H. unfold range_step in H.
  destruct ((stop + step - 1) / step)%nat as [|q] eqn:E; [|discriminate H].
  apply Nat.div_small_iff in E; lia.
Qed.

Lemma chunks_concat {A : Type} (step k : nat) (l : list A) :
  (List.length l <= k * step)%nat ->
  List.concat (map (fun i => firstn step (skipn (i * step) l)) (seq 0 k)) = l.
Proof.
  revert l. induction k as [|k IH]; intros l Hl.
  - destruct l; [reflexivity | cbn in Hl; lia].
  - cbn [seq map List.concat]. rewrite <- seq_shift, map_map.
    cbn [Nat.mul skipn].
    rewrite (map_ext _ (fun i => firstn step (skipn (i * step) (skipn step l)))).
    + rewrite IH by (rewrite length_skipn; lia). apply firstn_skipn.
    + intros i. f_equal. rewrite skipn_skipn. f_equal. lia.
Qed.

Lemma batches_concat {A : Type} (step : nat) (l : list A) :
  (0 < step)%nat ->
  List.concat
    (map (fun s => firstn (Nat.min (s + step) (List.length l) - s) (skipn s l))
       (range_step (List.length l) step)) = l.
Proof.
  intros Hstep. unfold range_step. rewrite map_map.
  rewrite (map_ext_in _ (fun i => firstn step (skipn (i * step) l))).
  - apply chunks_concat.
    pose proof (Nat.div_mod_eq (List.length l + step - 1) step) as E.
    pose proof (Nat.mod_upper_bound (List.length l + step - 1) step ltac:(lia)) as Hm.
    nia.
  - intros i _. set (s := (i * step)%nat).
    destruct (Nat.le_gt_cases (s + step) (List.length l)) as [H | H].
    + rewrite Nat.min_l by exact H. f_equal. lia.
    + rewrite Nat.min_r by lia.
      rewrite (firstn_all2 (n := step)) by (rewrite length_skipn; lia).
      apply firstn_all2. rewrite length_skipn. lia.
Qed.

Lemma resize_no_maps (output_size : nat * nat) (h w : nat) (d : buffer) :
  resize (mk_ndarray [0; h; w]%nat d) output_size
    = Raise (ValueError "need at least one array to concatenate").
Proof. unfold resize, unstack. cbn. now destruct d. Qed.

(** X27: Whatever the number of maps, [resize] gives what resizing every map
    on its own gives, provided [cv2.resize] treats the planes of an image
    of at most 500 planes one by one: the batches of 500 cover every map
    once and in order.  A stack of no maps raises [ValueError]. *)
Theorem resize_batches_are_invisible
    (resize_plane : nat * nat -> ndarray -> ndarray)
    (saliency_map : ndarray) (output_size : nat * nat) (n h w : nat) :
  (forall planes size,
     planes <> [] -> (List.length planes <= 500)%nat ->
     cv2_resize planes size = Ok (map (resize_plane size) planes)) ->
  shape saliency_map = [n; h; w] ->
  resize saliency_map output_size =
    if (0 <? n)%nat then
      let* planes := unstack saliency_map in
      stack (map (resize_plane (reversed output_size)) planes)
    else Raise (ValueError "need at least one array to concatenate").
Proof.
  intros Hcv Hs. destruct (Nat.ltb_spec 0 n) as [Hn | Hn].
  2:{ destruct saliency_map as [s d]. cbn in Hs. subst s.
      replace n with 0%nat by lia. apply resize_no_maps. }
  unfold resize. rewrite Hs. cbn [List.length].
  destruct (unstack saliency_map) as [x|e] eqn:Eu; [|reflexivity]. cbn [bind].
  assert (Hlen : List.length x = n).
  { unfold unstack in Eu. rewrite Hs in Eu. injection Eu as <-.
    rewrite length_map. destruct (data saliency_map); cbn [buffer_rows];
      now rewrite length_map, rows_of_length. }
  rewrite (ScalingFacts.map_result_ok _
             (fun s => map (resize_plane (reversed output_size))
                         (firstn (Nat.min (s + batch_size) (List.length x) - s)
                            (skipn s x)))).
  - cbn [bind].
    destruct (map _ (range_step (List.length x) batch_size)) as [|b bs] eqn:Em.
    + apply map_eq_nil in Em. apply range_step_nil in Em; [lia | unfold batch_size; lia].
    + rewrite <- Em. rewrite <- map_map, <- concat_map.
      rewrite batches_concat by (unfold batch_size; lia).
      reflexivity.
  - apply Forall_forall. intros s Hs'.
    apply range_step_bound in Hs'; [|unfold batch_size; lia].
    apply Hcv.
    + intros E. apply (f_equal (@List.length _)) in E.
      rewrite length_firstn, length_skipn in E. cbn in E. unfold batch_size in E. lia.
    + rewrite length_firstn, length_skipn. unfold batch_size. lia.
Qed.

End WithOpenCV.

Lemma resize_batches_are_invisible_witness :
  resize (fun m _ => Ok m) (fun planes _ => Ok planes)
    (mk_ndarray [2; 1; 2]%nat (U8 [1; 2; 3; 4])) (4, 4)%nat =
    if (0 <? 2)%nat then
      let* planes := unstack (mk_ndarray [2; 1; 2]%nat (U8 [1; 2; 3; 4])) in
      stack (map ((fun _ p => p) (reversed (4, 4)%nat)) planes)
    else Raise (ValueError "need at least one array to concatenate").
Proof.
  apply (resize_batches_are_invisible (fun m _ => Ok m) (fun planes _ => Ok planes)
           (fun _ p => p) (mk_ndarray [2; 1; 2]%nat (U8 [1; 2; 3; 4])) (4, 4)%nat 2 1 2).
  - intros planes size _ _. now rewrite map_id.
  - reflexivity.
Defined.

End Resize.

(** ** numpy arithmetic: [float64] and broadcasting *)

Module Float64Ops.

Definition add : spec_float -> spec_float -> spec_float := SFadd Float64.prec Float64.emax.
Definition sub : spec_float -> spec_float -> spec_float := SFsub Float64.prec Float64.emax.
Definition mul : spec_float -> spec_float -> spec_float := SFmul Float64.prec Float64.emax.
Definition div : spec_float -> spec_float -> spec_float := SFdiv Float64.prec Float64.emax.

(** A [float32] value as a [float64]: the conversion is exact. *)
Definition of_float32 (x : spec_float) : spec_float :=
  match x with
  | S754_finite s m e => binary_round Float64.prec Float64.emax s m e
  | _ => x
  end.

(** The Python floats [0.0], [0.5] and [1.0]. *)
Definition zero : spec_float := S754_zero false.
Definition half : spec_float := S754_finite false 4503599627370496 (-53).
Definition one : spec_float := S754_finite false 4503599627370496 (-52).

End Float64Ops.

(** [a.astype(np.float64)] on the buffer. *)
Definition astype_float64 (b : buffer) : list spec_float :=
  match b with
  | U8 d => map Float64_of_Z d
  | F32 d => map Float64Ops.of_float32 d
  | F64 d => d
  end.

Module Broadcast.

(** A shape lengthened to [r] axes with leading ones. *)
Definition pad (r : nat) (s : list nat) : list nat :=
  repeat 1%nat (r - List.length s) ++ s.

(** The common shape of two shapes of one length, axis by axis. *)
Fixpoint broadcast_dims (s1 s2 : list nat) : result (list nat) :=
  match s1, s2 with
  | a :: s1', b :: s2' =>
      let* rest := broadcast_dims s1' s2' in
      if Nat.eqb a b then Ok (a :: rest)
      else if Nat.eqb a 1 then Ok (b :: rest)
      else if Nat.eqb b 1 then Ok (a :: rest)
      else Raise (ValueError "operands could not be broadcast together")
  | _, _ => Ok []
  end.

(** The data of an array of shape [src] seen with shape [out]: an axis
    of length one is repeated. *)
Fixpoint broadcast_to {A : Type} (src out : list nat) (d : list A) : list A :=
  match src, out with
  | a :: src', b :: out' =>
      if Nat.eqb a b
      then List.concat (map (broadcast_to src' out') (rows_of a (numel src') d))
      else List.concat (repeat (broadcast_to src' out' d) b)
  | _, _ => d
  end.

Definition map2 {A B C : Type} (f : A -> B -> C) (l1 : list A) (l2 : list B) : list C :=
  map (fun p => f (fst p) (snd p)) (combine l1 l2).

(** An elementwise operation on two arrays. *)
Definition broadcast2 {A B C : Type} (f : A -> B -> C)
    (s1 : list nat) (d1 : list A) (s2 : list nat) (d2 : list B)
    : result (list nat * list C) :=
  let r := Nat.max (List.length s1) (List.length s2) in
  let* out := broadcast_dims (pad r s1) (pad r s2) in
  Ok (out, map2 f (broadcast_to (pad r s1) out d1) (broadcast_to (pad r s2) out d2)).

End Broadcast.

(** ** The overlay ([overlay] of [explainer/visualizer.py]) *)

Module Overlay.
Import Broadcast.
Section WithPlatform.

Variable platform_cast : spec_float -> Z.

(** The precision of [array * w] for a Python float [w]: that of the
    array when it is a float array, [float64] for an integer array. *)
Inductive precision : Type := Single | Double.

Definition term_precision (b : buffer) : precision :=
  match b with F32 _ => Single | _ => Double end.

Definition times (b : buffer) (w : spec_float) : list spec_float :=
  match b with
  | U8 d => map (fun z => Float64Ops.mul (Float64_of_Z z) w) d
  | F32 d => map (fun x => Float32.mul x (Float32.of_float64 w)) d
  | F64 d => map (fun x => Float64Ops.mul x w) d
  end.

Definition widen (p : precision) (x : spec_float) : spec_float :=
  match p with Single => Float64Ops.of_float32 x | Double => x end.

Definition plus (p1 p2 : precision) (x y : spec_float) : spec_float :=
  match p1, p2 with
  | Single, Single => Float32.add x y
  | _, _ => Float64Ops.add (widen p1 x) (widen p2 y)
  end.

Definition sum_precision (p1 p2 : precision) : precision :=
  match p1, p2 with Single, Single => Single | _, _ => Double end.

Definition of_int (p : precision) (z : Z) : spec_float :=
  match p with Single => Float32.of_Z z | Double => Float64_of_Z z end.

(** [overlay(saliency_map, input_image, overlay_weight, cast_to_uint8)];
    the weight is a Python float. *)
Definition overlay (saliency_map input_image : ndarray) (overlay_weight : spec_float)
    (cast_to_uint8 : bool) : result ndarray :=
  let p1 := term_precision (data input_image) in
  let p2 := term_precision (data saliency_map) in
  let* (s, res) :=
    broadcast2 (plus p1 p2)
      (shape input_image) (times (data input_image) overlay_weight)
      (shape saliency_map)
      (times (data saliency_map) (Float64Ops.sub Float64Ops.one overlay_weight)) in
  let p := sum_precision p1 p2 in
  let res := map (fun x => if SFltb (of_int p 255) x then of_int p 255 else x) res in
  if cast_to_uint8 then Ok (mk_ndarray s (U8 (map (Scaling.to_uint8 platform_cast) res)))
  else Ok (mk_ndarray s (match p with Single => F32 res | Double => F64 res end)).

End WithPlatform.
End Overlay.

(** *** The overlay with the default weight *)

Module BroadcastFacts.
Import Broadcast.

Lemma pad_full (s : list nat) : pad (List.length s) s = s.
Proof. unfold pad. now rewrite Nat.sub_diag. Qed.

Lemma broadcast_dims_same (s : list nat) : broadcast_dims s s = Ok s.
Proof.
  induction s as [|a s IH]; [reflexivity|]. cbn [broadcast_dims].
  rewrite IH. cbn [bind]. now rewrite Nat.eqb_refl.
Qed.

Lemma broadcast_to_same {A : Type} (s : list nat) (d : list A) :
  List.length d = numel s -> broadcast_to s s d = d.
Proof.
  revert d. induction s as [|a s IH]; intros d Hd; [reflexivity|].
  cbn [broadcast_to]. rewrite Nat.eqb_refl.
  rewrite (map_ext_in _ (fun x => x)).
  - rewrite map_id. apply concat_rows_of. exact Hd.
  - intros row Hrow. apply IH.
    pose proof (rows_of_row_length a (numel s) d Hd) as H.
    rewrite Forall_forall in H. now apply H.
Qed.

Lemma broadcast_to_repeat {A : Type} (s : list nat) (n : nat) (d : list A) :
  List.length d = numel s ->
  broadcast_to (1%nat :: s) (n :: s) d = List.concat (repeat d n).
Proof.
  intros Hd. cbn [broadcast_to].
  destruct (Nat.eqb_spec 1 n) as [<- | NE].
  - cbn [rows_of map List.concat repeat]. rewrite firstn_all2 by lia.
    now rewrite (broadcast_to_same s d Hd).
  - now rewrite (broadcast_to_same s d Hd).
Qed.

Lemma broadcast_dims_repeat (s : list nat) (n : nat) :
  broadcast_dims (1%nat :: s) (n :: s) = Ok (n :: s).
Proof.
  cbn [broadcast_dims]. rewrite broadcast_dims_same. cbn [bind].
  destruct (Nat.eqb_spec 1 n) as [<- | NE]; reflexivity.
Qed.

Lemma map2_app {A B C : Type} (f : A -> B -> C) (a1 a2 : list A) (b1 b2 : list B) :
  List.length a1 = List.length b1 ->
  map2 f (a1 ++ a2) (b1 ++ b2) = map2 f a1 b1 ++ map2 f a2 b2.
Proof.
  unfold map2. revert b1. induction a1 as [|x a1 IH]; intros [|y b1] H;
    try discriminate H; [reflexivity|].
  cbn. f_equal. apply IH. now injection H.
Qed.

Lemma map2_repeat_rows {A B C : Type} (f : A -> B -> C) (a : list A) (n : nat)
    (b : list B) :
  List.length b = (n * List.length a)%nat ->
  map2 f (List.concat (repeat a n)) b
  = List.concat (map (map2 f a) (rows_of n (List.length a) b)).
Proof.
  revert b. induction n as [|n IH]; intros b Hb.
  - destruct b; [reflexivity | discriminate Hb].
  - cbn [repeat List.concat rows_of map].
    rewrite <- (firstn_skipn (List.length a) b) at 1.
    rewrite map2_app by (rewrite length_firstn; lia).
    f_equal. apply IH. rewrite length_skipn. lia.
Qed.

Lemma map2_map {A A' B B' C : Type} (f : A' -> B' -> C) (g : A -> A') (h : B -> B')
    (a : list A) (b : list B) :
  map2 f (map g a) (map h b) = map2 (fun x y => f (g x) (h y)) a b.
Proof.
  unfold map2. revert b. induction a as [|x a IH]; intros [|y b]; cbn; trivial.
  now rewrite IH.
Qed.

Lemma map_map2 {A B C D : Type} (g : C -> D) (f : A -> B -> C) (a : list A) (b : list B) :
  map g (map2 f a b) = map2 (fun x y => g (f x y)) a b.
Proof. unfold map2. now rewrite map_map. Qed.

Lemma map2_ext_in {A B C : Type} (f g : A -> B -> C) (P : A -> Prop) (Q : B -> Prop)
    (a : list A) (b : list B) :
  Forall P a -> Forall Q b -> (forall x y, P x -> Q y -> f x y = g x y) ->
  map2 f a b = map2 g a b.
Proof.
  intros Ha Hb H. unfold map2. apply map_ext_in. intros [x y] Hin. cbn.
  rewrite Forall_forall in Ha, Hb.
  apply H; [apply Ha; eapply in_combine_l; exact Hin
           |apply Hb; eapply in_combine_r; exact Hin].
Qed.

Lemma broadcast2_repeat {A B C : Type} (f : A -> B -> C) (s : list nat) (n : nat)
    (d1 : list A) (d2 : list B) :
  List.length d1 = numel s -> List.length d2 = (n * numel s)%nat ->
  broadcast2 f (1%nat :: s) d1 (n :: s) d2
  = Ok (n :: s, map2 f (List.concat (repeat d1 n)) d2).
Proof.
  intros H1 H2. unfold broadcast2. cbn [List.length]. rewrite Nat.max_id.
  change (pad (S (List.length s)) (1%nat :: s))
    with (pad (List.length (1%nat :: s)) (1%nat :: s)).
  change (pad (S (List.length s)) (n :: s)) with (pad (List.length (n :: s)) (n :: s)).
  rewrite !pad_full, broadcast_dims_repeat. cbn [bind].
  rewrite broadcast_to_repeat by exact H1.
  now rewrite broadcast_to_same by exact H2.
Qed.

End BroadcastFacts.

Module OverlayFacts.
Import Broadcast BroadcastFacts.
Section WithPlatform.

Variable platform_cast : spec_float -> Z.

Abbreviation overlay := (Overlay.overlay platform_cast).

(** One byte of the overlay of two bytes with the weight 0.5. *)
Definition blend (a b : Z) : Z :=
  let res :=
    Float64Ops.add (Float64Ops.mul (Float64_of_Z a) Float64Ops.half)
      (Float64Ops.mul (Float64_of_Z b)
         (Float64Ops.sub Float64Ops.one Float64Ops.half)) in
  Scaling.to_uint8 platform_cast
    (if SFltb (Float64_of_Z 255) res then Float64_of_Z 255 else res).

Lemma blend_mean (a b : Z) :
  0 <= a <= 255 -> 0 <= b <= 255 -> blend a b = (a + b) / 2.
Proof.
  intros Ha Hb. apply Z.eqb_eq.
  apply (forall_bytes2 (fun a b => blend a b =? (a + b) / 2)); [|exact Ha|exact Hb].
  vm_compute. reflexivity.
Qed.

(** X28: With the default weight 0.5, the overlay of a stack of uint8 maps on
    one uint8 image of the shape of a map is, byte by byte, the mean of
    map and image rounded down: nothing is clipped and the cast is
    exact. *)
Theorem overlay_default_weight_is_mean
    (saliency_map input_image : ndarray) (n : nat) (s : list nat) (dm di : list Z) :
  shape input_image = 1%nat :: s -> data input_image = U8 di ->
  shape saliency_map = n :: s -> data saliency_map = U8 dm ->
  List.length di = numel s -> List.length dm = (n * numel s)%nat ->
  Forall (fun v => 0 <= v <= 255) di -> Forall (fun v => 0 <= v <= 255) dm ->
  overlay saliency_map input_image Float64Ops.half true =
    Ok (mk_ndarray (n :: s)
          (U8 (List.concat
                 (map (map2 (fun a b => (a + b) / 2) di) (rows_of n (numel s) dm))))).
Proof.
  intros Hsi Hdi Hsm Hdm Hli Hlm Hbi Hbm.
  unfold Overlay.overlay.
  rewrite Hsi, Hsm, Hdi, Hdm. cbn [Overlay.term_precision Overlay.times].
  rewrite broadcast2_repeat by now rewrite length_map.
  cbn [bind Overlay.sum_precision Overlay.of_int]. do 3 f_equal.
  rewrite map2_repeat_rows by (rewrite !length_map, Hli; exact Hlm).
  rewrite length_map, Hli, rows_of_map, !concat_map, !map_map.
  f_equal. apply map_ext_in. intros row Hrow.
  rewrite map2_map, !map_map2.
  apply (map2_ext_in _ _ (fun v => 0 <= v <= 255) (fun v => 0 <= v <= 255)).
  - exact Hbi.
  - pose proof (ScalingFacts.rows_of_Forall _ n (numel s) dm Hbm) as H.
    rewrite Forall_forall in H. now apply H.
  - intros a b Ha Hb. apply (blend_mean a b Ha Hb).
Qed.

End WithPlatform.

Lemma overlay_default_weight_is_mean_witness :
  Overlay.overlay x86_cast
    (mk_ndarray [2; 1; 2]%nat (U8 [255; 4; 10; 20]))
    (mk_ndarray [1; 1; 2]%nat (U8 [255; 3])) Float64Ops.half true =
    Ok (mk_ndarray [2; 1; 2]%nat
          (U8 (List.concat
                 (map (map2 (fun a b => (a + b) / 2) [255; 3])
                    (rows_of 2 (numel [1; 2]%nat) [255; 4; 10; 20]))))).
Proof.
  apply (overlay_default_weight_is_mean x86_cast
           (mk_ndarray [2; 1; 2]%nat (U8 [255; 4; 10; 20]))
           (mk_ndarray [1; 1; 2]%nat (U8 [255; 3])) 2 [1; 2]%nat
           [255; 4; 10; 20] [255; 3]); try reflexivity;
    repeat constructor; lia.
Defined.

End OverlayFacts.

(** ** Pre-processing ([preprocess_fn] of [explainer/utils.py]) *)

Module Preprocess.
Import Broadcast.

(** A [float64] array, as [mean] and [std] are. *)
Record farray : Type := mk_farray { fshape : list nat; fdata : list spec_float }.

Definition buffer_apply (f : forall A : Type, list A -> list A) (b : buffer) : buffer :=
  match b with
  | U8 d => U8 (f Z d)
  | F32 d => F32 (f spec_float d)
  | F64 d => F64 (f spec_float d)
  end.

(** The data of [x[:, :, ::-1]] for [x] of shape (.., .., c, ...) with
    [hw] positions on the first two axes and [k] elements under every
    index of the third. *)
Definition reverse_third {A : Type} (hw c k : nat) (d : list A) : list A :=
  List.concat (map (fun block => List.concat (rev (rows_of c k block)))
                 (rows_of hw (c * k) d)).

(** Column [j] of a matrix given by its rows. *)
Definition column {A : Type} (j : nat) (rows : list (list A)) : list A :=
  flat_map (fun row => match nth_error row j with Some x => [x] | None => [] end) rows.

(** The data of the transpose of a matrix of [nrows] rows and [ncols]
    columns.  Moving the last axis of an H x W x C array to the front
    transposes the (H W) x C matrix of its pixels. *)
Definition transpose_rows {A : Type} (nrows ncols : nat) (d : list A) : list A :=
  List.concat (map (fun j => column j (rows_of nrows ncols d)) (seq 0 ncols)).

Section WithOpenCV.

Variable cv2_resize : ndarray -> nat * nat -> result ndarray.

Definition too_many_indices (ndim : nat) : exn :=
  IndexError
    ("too many indices for array: array is "
     ++ NilEmpty.string_of_uint (Nat.to_uint ndim)
     ++ "-dimensional, but 3 were indexed")%string.

(** [preprocess_fn]; [mean] and [std] are [float64] arrays, as their
    defaults are. *)
Definition preprocess_fn (x : ndarray) (change_channel_order : bool)
    (input_size : option (nat * nat)) (mean std : farray)
    (hwc_to_chw expand_zero_dim : bool) : result ndarray :=
  let* x :=
    if change_channel_order then
      match shape x with
      | h :: w :: c :: rest =>
          Ok (mk_ndarray (shape x)
                (buffer_apply (fun A => reverse_third (h * w) c (numel rest)) (data x)))
      | _ => Raise (too_many_indices (List.length (shape x)))
      end
    else Ok x in
  let* x :=
    match input_size with
    | Some size => cv2_resize x size
    | None => Ok x
    end in
  let* (s, d) :=
    broadcast2 Float64Ops.sub (shape x) (astype_float64 (data x))
      (fshape mean) (fdata mean) in
  let* (s, d) := broadcast2 Float64Ops.div s d (fshape std) (fdata std) in
  let* (s, d) :=
    if hwc_to_chw then
      match s with
      | [h; w; c] => Ok ([c; h; w], transpose_rows (h * w) c d)
      | _ => Raise (ValueError "axes don't match array")
      end
    else Ok (s, d) in
  Ok (mk_ndarray (if expand_zero_dim then 1%nat :: s else s) (F64 d)).

End WithOpenCV.

(** The default [mean] and [std]. *)
Definition default_mean : farray :=
  mk_farray [3%nat] [Float64Ops.zero; Float64Ops.zero; Float64Ops.zero].
Definition default_std : farray :=
  mk_farray [3%nat] [Float64Ops.one; Float64Ops.one; Float64Ops.one].

(** [image.transpose((0, 2, 3, 1))] on the data of a B x C x H x W
    array: the C x (H W) matrix of every item of the batch is
    transposed. *)
Definition transpose_0231 (b : buffer) (s : list nat) : buffer :=
  match s with
  | [n; c; h; w] =>
      buffer_apply
        (fun A d => List.concat (map (transpose_rows c (h * w))
                                   (rows_of n (c * (h * w)) d))) b
  | _ => b
  end.

End Preprocess.

Module PreprocessFacts.
Import Broadcast BroadcastFacts Preprocess.

Lemma broadcast_to_lead1 {A : Type} (src out : list nat) (b : nat) (d : list A) :
  List.length d = numel src ->
  broadcast_to (1%nat :: src) (b :: out) d
  = List.concat (repeat (broadcast_to src out d) b).
Proof.
  intros Hd. cbn [broadcast_to].
  destruct (Nat.eqb_spec 1 b) as [<- | NE]; [|reflexivity].
  cbn [rows_of map List.concat repeat]. now rewrite firstn_all2 by lia.
Qed.

Lemma concat_repeat_mul {A : Type} (d : list A) (w h : nat) :
  List.concat (repeat (List.concat (repeat d w)) h) = List.concat (repeat d (h * w)).
Proof.
  induction h as [|h IH]; [reflexivity|].
  cbn [repeat List.concat Nat.mul]. rewrite IH, repeat_app, concat_app. reflexivity.
Qed.

Lemma broadcast_dims_last (h w c : nat) :
  broadcast_dims [h; w; c] [1%nat; 1%nat; c] = Ok [h; w; c].
Proof.
  cbn [broadcast_dims]. rewrite Nat.eqb_refl. cbn [bind].
  destruct (Nat.eqb_spec w 1) as [-> | Hw]; cbn [bind];
    destruct (Nat.eqb_spec h 1) as [-> | Hh]; reflexivity.
Qed.

(** An array of shape (h, w, c) against one of shape (c,). *)
Lemma broadcast2_last_axis {A B C : Type} (f : A -> B -> C) (h w c : nat)
    (d1 : list A) (d2 : list B) :
  List.length d1 = (h * w * c)%nat -> List.length d2 = c ->
  broadcast2 f [h; w; c] d1 [c] d2
  = Ok ([h; w; c], map2 f d1 (List.concat (repeat d2 (h * w)))).
Proof.
  intros H1 H2. unfold broadcast2. cbn [List.length Nat.max].
  change (pad 3 [h; w; c]) with [h; w; c].
  change (pad 3 [c]) with [1%nat; 1%nat; c].
  rewrite broadcast_dims_last. cbn [bind].
  rewrite broadcast_to_same by (cbn [numel fold_right]; lia).
  rewrite broadcast_to_lead1 by (cbn [numel fold_right]; lia).
  rewrite broadcast_to_lead1 by (cbn [numel fold_right]; lia).
  rewrite broadcast_to_same by (cbn [numel fold_right]; lia).
  now rewrite concat_repeat_mul.
Qed.

Lemma concat_repeat_const {A : Type} (v : A) (c n : nat) :
  List.concat (repeat (repeat v c) n) = repeat v (n * c).
Proof.
  induction n as [|n IH]; [reflexivity|].
  cbn [repeat List.concat Nat.mul]. now rewrite IH, repeat_app.
Qed.

Lemma map2_repeat_r {A B C : Type} (f : A -> B -> C) (l : list A) (v : B) (n : nat) :
  List.length l = n -> map2 f l (repeat v n) = map (fun x => f x v) l.
Proof.
  intros <-. unfold map2. induction l as [|x l IH]; [reflexivity|].
  cbn. now rewrite IH.
Qed.

Lemma length_map2 {A B C : Type} (f : A -> B -> C) (l1 : list A) (l2 : list B) :
  List.length l1 = List.length l2 -> List.length (map2 f l1 l2) = List.length l1.
Proof.
  intros H. unfold map2. rewrite length_map, length_combine. lia.
Qed.

Lemma length_concat_repeat {A : Type} (d : list A) (n : nat) :
  List.length (List.concat (repeat d n)) = (n * List.length d)%nat.
Proof.
  induction n as [|n IH]; [reflexivity|].
  cbn [repeat List.concat Nat.mul]. rewrite length_app, IH. lia.
Qed.

Lemma byte_unchanged (z : Z) :
  0 <= z <= 255 ->
  Float64Ops.div (Float64Ops.sub (Float64_of_Z z) Float64Ops.zero) Float64Ops.one
  = Float64_of_Z z.
Proof.
  intros Hz. apply spec_float_eqb_eq.
  apply (forall_bytes (fun z =>
    spec_float_eqb
      (Float64Ops.div (Float64Ops.sub (Float64_of_Z z) Float64Ops.zero) Float64Ops.one)
      (Float64_of_Z z))); [|exact Hz].
  vm_compute. reflexivity.
Qed.

Section WithOpenCV.

Variable cv2_resize : ndarray -> nat * nat -> result ndarray.

Abbreviation preprocess_fn := (Preprocess.preprocess_fn cv2_resize).

(** X29: With its default arguments, [preprocess_fn] turns a uint8 image of
    shape (H, W, 3) into the [float64] array of shape (1, H, W, 3) of
    the same values. *)
Theorem preprocess_fn_defaults_keep_values (x : ndarray) (h w : nat) (d : list Z) :
  shape x = [h; w; 3%nat] -> data x = U8 d ->
  List.length d = (h * w * 3)%nat -> Forall (fun v => 0 <= v <= 255) d ->
  preprocess_fn x false None default_mean default_std false true
  = Ok (mk_ndarray [1%nat; h; w; 3%nat] (F64 (map Float64_of_Z d))).
Proof.
  intros Hs Hd Hl Hb. unfold Preprocess.preprocess_fn. cbn [bind].
  rewrite Hs, Hd. cbn [astype_float64 fshape fdata default_mean default_std].
  rewrite broadcast2_last_axis by (rewrite ?length_map; trivial). cbn [bind].
  rewrite broadcast2_last_axis;
    [|rewrite length_map2; rewrite ?length_map, ?length_concat_repeat; cbn; lia
     |reflexivity].
  cbn [bind]. do 2 f_equal.
  change [Float64Ops.zero; Float64Ops.zero; Float64Ops.zero]
    with (repeat Float64Ops.zero 3).
  change [Float64Ops.one; Float64Ops.one; Float64Ops.one] with (repeat Float64Ops.one 3).
  rewrite !concat_repeat_const.
  rewrite (map2_repeat_r Float64Ops.sub) by (rewrite length_map; lia).
  rewrite (map2_repeat_r Float64Ops.div) by (rewrite !length_map; lia).
  rewrite !map_map. f_equal. apply map_ext_in. intros z Hz.
  rewrite Forall_forall in Hb. apply byte_unchanged, Hb, Hz.
Qed.

Lemma broadcast_dims_mismatch (l1 l2 : list nat) (a b : nat) :
  List.length l1 = List.length l2 ->
  a <> b -> a <> 1%nat -> b <> 1%nat ->
  broadcast_dims (l1 ++ [a]) (l2 ++ [b])
  = Raise (ValueError "operands could not be broadcast together").
Proof.
  intros Hl Hab Ha Hb. revert l2 Hl.
  induction l1 as [|x l1 IH]; intros [|y l2] Hl; try discriminate Hl.
  - cbn. apply Nat.eqb_neq in Hab, Ha, Hb. now rewrite Hab, Ha, Hb.
  - cbn [app broadcast_dims]. rewrite IH by now injection Hl. reflexivity.
Qed.

(** X4: With the default [mean], an image whose last axis has neither three
    elements nor one cannot be normalised: [preprocess_fn] raises
    [ValueError], for an image of two axes as for one with four
    channels. *)
Theorem preprocess_fn_channel_mismatch
    (x : ndarray) (lead : list nat) (c : nat) (std : farray)
    (hwc_to_chw expand_zero_dim : bool) :
  shape x = lead ++ [c] -> c <> 3%nat -> c <> 1%nat ->
  preprocess_fn x false None default_mean std hwc_to_chw expand_zero_dim
  = Raise (ValueError "operands could not be broadcast together").
Proof.
  intros Hs H3 H1. unfold Preprocess.preprocess_fn. cbn [bind].
  unfold broadcast2 at 1. rewrite Hs. cbn [fshape default_mean List.length].
  rewrite length_app. cbn [List.length].
  replace (Nat.max (List.length lead + 1) 1) with (List.length lead + 1)%nat by lia.
  unfold pad. rewrite length_app. cbn [List.length].
  rewrite Nat.sub_diag. cbn [repeat app].
  replace (List.length lead + 1 - 1)%nat with (List.length lead) by lia.
  rewrite broadcast_dims_mismatch; [reflexivity| |exact H3|exact H1|discriminate].
  now rewrite repeat_length.
Qed.

End WithOpenCV.

Lemma preprocess_fn_defaults_keep_values_witness :
  Preprocess.preprocess_fn (fun x _ => Ok x)
    (mk_ndarray [1; 2; 3]%nat (U8 [0; 1; 2; 253; 254; 255]))
    false None default_mean default_std false true
  = Ok (mk_ndarray [1; 1; 2; 3]%nat (F64 (map Float64_of_Z [0; 1; 2; 253; 254; 255]))).
Proof.
  apply (preprocess_fn_defaults_keep_values (fun x _ => Ok x)
           (mk_ndarray [1; 2; 3]%nat (U8 [0; 1; 2; 253; 254; 255])) 1 2
           [0; 1; 2; 253; 254; 255]); try reflexivity.
  repeat constructor; lia.
Defined.

Lemma preprocess_fn_channel_mismatch_witness :
  Preprocess.preprocess_fn (fun x _ => Ok x)
    (mk_ndarray [2; 2]%nat (U8 [0; 1; 2; 3]))
    false None default_mean default_std false true
  = Raise (ValueError "operands could not be broadcast together").
Proof.
  apply (preprocess_fn_channel_mismatch (fun x _ => Ok x)
           (mk_ndarray [2; 2]%nat (U8 [0; 1; 2; 3])) [2%nat] 2 default_std false true);
    [reflexivity | lia | lia].
Defined.

End PreprocessFacts.

(** *** Moving the channels to the front and back *)

Module TransposeFacts.
Import Preprocess.

Lemma nth_error_block {A : Type} (len s j : nat) (d : list A) :
  (j < len)%nat -> nth_error (firstn len (skipn s d)) j = nth_error d (s + j).
Proof.
  intros Hj. rewrite nth_error_firstn.
  destruct (Nat.ltb_spec j len) as [_ | H]; [|lia].
  apply nth_error_skipn.
Qed.

Lemma nth_error_rows_of {A : Type} (n len i : nat) (d : list A) :
  (i < n)%nat ->
  nth_error (rows_of n len d) i = Some (firstn len (skipn (i * len) d)).
Proof.
  revert i d. induction n as [|n IH]; intros i d Hi; [lia|].
  destruct i as [|i]; cbn [rows_of nth_error Nat.mul skipn]; [reflexivity|].
  rewrite IH by lia. now rewrite skipn_skipn, Nat.add_comm.
Qed.

Lemma nth_error_column {A : Type} (j i : nat) (rows : list (list A)) :
  Forall (fun r => (j < List.length r)%nat) rows ->
  nth_error (column j rows) i =
    match nth_error rows i with
    | Some r => nth_error r j
    | None => None
    end.
Proof.
  intros H. revert i. induction H as [|r rows Hr _ IH]; intros i.
  - now destruct i.
  - unfold column. cbn [flat_map]. fold (column j rows).
    destruct (nth_error r j) as [x|] eqn:E.
    + destruct i as [|i]; cbn; [now rewrite E | apply IH].
    + apply nth_error_None in E. lia.
Qed.

Lemma length_column {A : Type} (j : nat) (rows : list (list A)) :
  Forall (fun r => (j < List.length r)%nat) rows ->
  List.length (column j rows) = List.length rows.
Proof.
  induction 1 as [|r rows Hr _ IH]; [reflexivity|].
  unfold column. cbn [flat_map]. fold (column j rows).
  destruct (nth_error r j) as [x|] eqn:E.
  - cbn. now rewrite IH.
  - apply nth_error_None in E. lia.
Qed.

Lemma nth_error_concat {A : Type} (len k i : nat) (rows : list (list A)) :
  Forall (fun r => List.length r = len) rows -> (i < len)%nat ->
  nth_error (List.concat rows) (k * len + i) =
    match nth_error rows k with
    | Some r => nth_error r i
    | None => None
    end.
Proof.
  intros H Hi. revert k. induction H as [|r rows Hr _ IH]; intros k.
  - destruct k; cbn; apply nth_error_None; cbn; lia.
  - cbn [List.concat]. destruct k as [|k].
    + cbn [Nat.mul Nat.add nth_error]. apply nth_error_app1. lia.
    + cbn [nth_error]. rewrite nth_error_app2 by (cbn; lia).
      replace (S k * len + i - List.length r)%nat with (k * len + i)%nat by (cbn; lia).
      apply IH.
Qed.

Lemma rows_wide {A : Type} (nrows ncols j : nat) (d : list A) :
  List.length d = (nrows * ncols)%nat -> (j < ncols)%nat ->
  Forall (fun r => (j < List.length r)%nat) (rows_of nrows ncols d).
Proof.
  intros Hd Hj. eapply Forall_impl; [|apply (rows_of_row_length nrows ncols d Hd)].
  cbn. intros r ->. exact Hj.
Qed.

Lemma columns_length {A : Type} (nrows ncols : nat) (d : list A) :
  List.length d = (nrows * ncols)%nat ->
  Forall (fun col => List.length col = nrows)
    (map (fun j => column j (rows_of nrows ncols d)) (seq 0 ncols)).
Proof.
  intros Hd. apply Forall_map, Forall_forall. intros j Hj. apply in_seq in Hj.
  rewrite length_column by (apply rows_wide; [exact Hd | lia]).
  apply rows_of_length.
Qed.

Lemma length_transpose_rows {A : Type} (nrows ncols : nat) (d : list A) :
  List.length d = (nrows * ncols)%nat ->
  List.length (transpose_rows nrows ncols d) = (ncols * nrows)%nat.
Proof.
  intros Hd. unfold transpose_rows.
  rewrite (length_concat_rows nrows) by now apply columns_length.
  now rewrite length_map, length_seq.
Qed.

Lemma nth_error_transpose_rows {A : Type} (nrows ncols i j : nat) (d : list A) :
  List.length d = (nrows * ncols)%nat -> (i < nrows)%nat -> (j < ncols)%nat ->
  nth_error (transpose_rows nrows ncols d) (j * nrows + i) = nth_error d (i * ncols + j).
Proof.
  intros Hd Hi Hj. unfold transpose_rows.
  rewrite (nth_error_concat nrows) by (trivial; now apply columns_length).
  rewrite nth_error_map, nth_error_seq.
  destruct (Nat.ltb_spec j ncols) as [_ | H]; [|lia]. cbn [option_map Nat.add].
  rewrite nth_error_column by now apply rows_wide.
  rewrite nth_error_rows_of by exact Hi.
  now apply nth_error_block.
Qed.

(** Transposing twice gives the data back. *)
Lemma transpose_rows_involutive {A : Type} (nrows ncols : nat) (d : list A) :
  List.length d = (nrows * ncols)%nat ->
  transpose_rows ncols nrows (transpose_rows nrows ncols d) = d.
Proof.
  intros Hd.
  assert (Hlt : List.length (transpose_rows nrows ncols d) = (ncols * nrows)%nat)
    by now apply length_transpose_rows.
  assert (Hltt : List.length (transpose_rows ncols nrows (transpose_rows nrows ncols d))
                 = List.length d).
  { rewrite length_transpose_rows by exact Hlt. lia. }
  apply nth_error_ext. intros m.
  destruct (Nat.lt_ge_cases m (nrows * ncols)) as [Hm | Hm].
  - assert (Hc : (0 < ncols)%nat).
    { destruct ncols; [rewrite Nat.mul_0_r in Hm; lia | lia]. }
    pose proof (Nat.div_mod_eq m ncols) as E.
    pose proof (Nat.mod_upper_bound m ncols ltac:(lia)) as Hj.
    assert (Hi : (m / ncols < nrows)%nat).
    { apply Nat.Div0.div_lt_upper_bound; lia. }
    set (i := (m / ncols)%nat) in *. set (j := (m mod ncols)%nat) in *.
    replace m with (i * ncols + j)%nat by lia.
    rewrite (nth_error_transpose_rows ncols nrows j i) by trivial.
    now apply nth_error_transpose_rows.
  - transitivity (@None A); [|symmetry]; apply nth_error_None; lia.
Qed.

End TransposeFacts.

Module PreprocessLayout.
Import Broadcast BroadcastFacts Preprocess PreprocessFacts TransposeFacts.
Section WithOpenCV.

Variable cv2_resize : ndarray -> nat * nat -> result ndarray.

Abbreviation preprocess_fn := (Preprocess.preprocess_fn cv2_resize).
Abbreviation format_to_bhwc := (Visualizer.format_to_bhwc transpose_0231).

(** What [preprocess_fn] computes from an image of shape (h, w, c)
    before the change of layout. *)
Definition normalised (x : ndarray) (h w : nat) (mean std : farray) : list spec_float :=
  map2 Float64Ops.div
    (map2 Float64Ops.sub (astype_float64 (data x))
       (List.concat (repeat (fdata mean) (h * w))))
    (List.concat (repeat (fdata std) (h * w))).

Lemma length_astype_float64 (b : buffer) :
  List.length (astype_float64 b) = buffer_length b.
Proof. destruct b; cbn; now rewrite ?length_map. Qed.

Lemma length_normalised (x : ndarray) (h w c : nat) (mean std : farray) :
  buffer_length (data x) = (h * w * c)%nat ->
  List.length (fdata mean) = c -> List.length (fdata std) = c ->
  List.length (normalised x h w mean std) = (h * w * c)%nat.
Proof.
  intros Hx Hm Hs. unfold normalised.
  assert (H1 : List.length (List.concat (repeat (fdata mean) (h * w))) = (h * w * c)%nat)
    by now rewrite length_concat_repeat, Hm.
  assert (H2 : List.length (List.concat (repeat (fdata std) (h * w))) = (h * w * c)%nat)
    by now rewrite length_concat_repeat, Hs.
  assert (H3 : List.length (astype_float64 (data x)) = (h * w * c)%nat)
    by now rewrite length_astype_float64.
  assert (H4 : List.length (map2 Float64Ops.sub (astype_float64 (data x))
                              (List.concat (repeat (fdata mean) (h * w))))
               = (h * w * c)%nat)
    by (rewrite length_map2; lia).
  rewrite length_map2; lia.
Qed.

Lemma preprocess_fn_hwc (x : ndarray) (h w c : nat) (mean std : farray)
    (hwc_to_chw : bool) :
  shape x = [h; w; c] -> buffer_length (data x) = (h * w * c)%nat ->
  fshape mean = [c] -> List.length (fdata mean) = c ->
  fshape std = [c] -> List.length (fdata std) = c ->
  preprocess_fn x false None mean std hwc_to_chw true =
    Ok (if hwc_to_chw
        then mk_ndarray [1%nat; c; h; w]
               (F64 (transpose_rows (h * w) c (normalised x h w mean std)))
        else mk_ndarray [1%nat; h; w; c] (F64 (normalised x h w mean std))).
Proof.
  intros Hs Hx Hms Hml Hss Hsl. unfold Preprocess.preprocess_fn. cbn [bind].
  rewrite Hs, Hms, Hss.
  rewrite broadcast2_last_axis by (rewrite ?length_astype_float64; trivial).
  cbn [bind].
  rewrite broadcast2_last_axis;
    [|rewrite length_map2; rewrite ?length_astype_float64, ?length_concat_repeat;
      rewrite ?Hml; lia
     |exact Hsl].
  cbn [bind]. fold (normalised x h w mean std).
  destruct hwc_to_chw; reflexivity.
Qed.

(** X30: An image of shape (H, W, C) with C <= W that [preprocess_fn] has
    normalised and moved to (1, C, H, W) is brought back by
    [format_to_bhwc] to what [preprocess_fn] gives without the change of
    layout. *)
Theorem format_to_bhwc_undoes_hwc_to_chw
    (x : ndarray) (h w c : nat) (mean std : farray) :
  shape x = [h; w; c] -> buffer_length (data x) = (h * w * c)%nat ->
  fshape mean = [c] -> List.length (fdata mean) = c ->
  fshape std = [c] -> List.length (fdata std) = c ->
  (c <= w)%nat ->
  exists chw,
    preprocess_fn x false None mean std true true = Ok chw /\
    shape chw = [1%nat; c; h; w] /\
    format_to_bhwc chw = preprocess_fn x false None mean std false true.
Proof.
  intros Hs Hx Hms Hml Hss Hsl Hcw.
  rewrite !(preprocess_fn_hwc x h w c mean std) by assumption.
  eexists. split; [reflexivity|]. split; [reflexivity|].
  rewrite LayoutFacts.format_to_bhwc_4d.
  replace ((w <? c)%nat && (w <? h)%nat) with false
    by (symmetry; apply andb_false_intro1, Nat.ltb_ge; exact Hcw).
  do 2 f_equal. cbn [transpose_0231 buffer_apply rows_of map List.concat].
  pose proof (length_normalised x h w c mean std Hx Hml Hsl) as Hn.
  rewrite app_nil_r, firstn_all2
    by (rewrite length_transpose_rows by (rewrite Hn; lia); lia).
  now rewrite transpose_rows_involutive by (rewrite Hn; lia).
Qed.

End WithOpenCV.

Lemma format_to_bhwc_undoes_hwc_to_chw_witness :
  exists chw,
    Preprocess.preprocess_fn (fun x _ => Ok x)
      (mk_ndarray [1; 3; 3]%nat (U8 [0; 1; 2; 3; 4; 5; 6; 7; 8]))
      false None default_mean default_std true true = Ok chw /\
    shape chw = [1; 3; 1; 3]%nat /\
    Visualizer.format_to_bhwc transpose_0231 chw =
    Preprocess.preprocess_fn (fun x _ => Ok x)
      (mk_ndarray [1; 3; 3]%nat (U8 [0; 1; 2; 3; 4; 5; 6; 7; 8]))
      false None default_mean default_std false true.
Proof.
  apply (format_to_bhwc_undoes_hwc_to_chw (fun x _ => Ok x)
           (mk_ndarray [1; 3; 3]%nat (U8 [0; 1; 2; 3; 4; 5; 6; 7; 8])) 1 3 3
           default_mean default_std); reflexivity.
Defined.

End PreprocessLayout.
